(** * astro-vitesse: plugin runtime, virtual modules, translation loader

    A shallow embedding of the TypeScript sources

    - [src/schemas/navbar.ts]      (navigation item schemas, [runPlugins]),
    - [src/integrations/virtual-user-config.ts] (the virtual module registry),
    - the translation loader [createTranslationSystemFromFs],

    together with the properties that their specification states about them.

    JavaScript objects that the code uses as dictionaries are finite maps
    ([gmap string _]) of their own properties; reads and [in] tests that can
    see a property inherited from [Object.prototype] go through [Js.get] and
    [Js.has_property].  Code that throws is a function into [Js.Completion];
    the closures of [runPlugins], which assign to variables of the enclosing
    call, are computations in a state monad whose state survives a throw.
    The setup of a plugin is a tree of calls on these closures: after each
    call it goes on according to how the call completed, so that a setup
    can catch what a callback throws. *)

From Corelib Require Import SpecFloat.
From Stdlib Require Import String Ascii List ZArith Lia.
From stdpp Require Import base option list gmap strings fin_maps.

Local Open Scope string_scope.
Local Open Scope list_scope.
Set Warnings "-register-all".

(** ** JavaScript values, objects and completions *)

Module Js.

(** A value as [JSON.parse] or a configuration literal produces it.  A
    number is an IEEE 754 double: a zero, an infinity, [NaN] or a finite
    value given by its sign, mantissa and exponent.  An object keeps its
    properties in insertion order. *)
Inductive Value : Type :=
| VUndefined
| VNull
| VBool (b : bool)
| VNumber (n : spec_float)
| VString (s : string)
| VArray (items : list Value)
| VObject (props : list (string * Value)).

(** [Number.isNaN] *)
Definition isNaN (n : spec_float) : bool :=
  match n with S754_nan => true | _ => false end.

(** The property names every ordinary object inherits from
    [Object.prototype]. *)
Definition objectPrototypeKeys : list string :=
  [ "constructor"; "__defineGetter__"; "__defineSetter__"; "hasOwnProperty";
    "__lookupGetter__"; "__lookupSetter__"; "isPrototypeOf";
    "propertyIsEnumerable"; "toString"; "valueOf"; "__proto__";
    "toLocaleString" ].

Definition inherited (k : string) : bool :=
  bool_decide (k ∈ objectPrototypeKeys).

(** [k in o] for an object literal [o]: own properties first, then the
    prototype chain. *)
Definition has_property {V} (k : string) (o : gmap string V) : bool :=
  bool_decide (is_Some (o !! k)) || inherited k.

(** The result of the read [o[k]]: an own property, a property found on the
    prototype, or [undefined]. *)
Inductive PropertyRead (V : Type) : Type :=
| OwnValue (v : V)
| InheritedValue (k : string)
| Undefined.
Arguments OwnValue {V} v.
Arguments InheritedValue {V} k.
Arguments Undefined {V}.

Definition get {V} (o : gmap string V) (k : string) : PropertyRead V :=
  match o !! k with
  | Some v => OwnValue v
  | None => if inherited k then InheritedValue k else Undefined
  end.

(** [Object.fromEntries]: a later entry replaces an earlier one with the
    same key. *)
Definition fromEntries {V} (entries : list (string * V)) : gmap string V :=
  foldl (fun o kv => <[kv.1 := kv.2]> o) ∅ entries.

(** The class that a thrown error was constructed with.
    [AstroErrorClass] is the class that [astro/errors] exports under the
    name [AstroError]; [OtherClass] stands for any other constructor. *)
Inductive ErrorClass : Type :=
| ErrorClass_Error
| SyntaxErrorClass
| TypeErrorClass
| ZodErrorClass
| AstroErrorClass
| OtherClass (constructorName : string).

(** A thrown value.  [code] is the [code] property some errors carry (the
    errors of [node:fs] do, a [SyntaxError] does not); [hint] is the second
    argument of [AstroError]. *)
Record Thrown : Type := mkThrown {
  instanceof_Error : bool;
  class : ErrorClass;
  message : string;
  code : option string;
  hint : option string;
}.

Definition Error (msg : string) : Thrown :=
  mkThrown true ErrorClass_Error msg None None.
Definition SyntaxError (msg : string) : Thrown :=
  mkThrown true SyntaxErrorClass msg None None.
Definition TypeError (msg : string) : Thrown :=
  mkThrown true TypeErrorClass msg None None.
Definition AstroError (msg : string) (hint : option string) : Thrown :=
  mkThrown true AstroErrorClass msg None hint.

(** How the evaluation of an expression or a call ends. *)
Inductive Completion (A : Type) : Type :=
| Normal (a : A)
| Throw (e : Thrown).
Arguments Normal {A} a.
Arguments Throw {A} e.

#[global] Instance Completion_ret : MRet Completion := fun A a => Normal a.
#[global] Instance Completion_bind : MBind Completion := fun A B k c =>
  match c with
  | Normal a => k a
  | Throw e => Throw e
  end.

(** [Array.prototype.map] with a callback that can throw: the elements are
    visited in order and the first throw ends the traversal. *)
Fixpoint mapM {A B} (f : A -> Completion B) (l : list A) : Completion (list B) :=
  match l with
  | [] => Normal []
  | x :: rest => y ← f x; ys ← mapM f rest; Normal (y :: ys)
  end.

(** [s.endsWith(suffix)] and [s.slice(0, -n)]. *)
Definition endsWith (suffix s : string) : bool :=
  let n := String.length s in
  let m := String.length suffix in
  (m <=? n)%nat && String.eqb (substring (n - m) m s) suffix.

Definition slice_to_minus (n : nat) (s : string) : string :=
  substring 0 (String.length s - n) s.

End Js.

(** ** The translation loader ([createTranslationSystemFromFs]) *)

Module TranslationLoader.
Import Js.

Section WithFileSystem.

(** [URL] objects and the constructor [new URL(relative, base)], which does
    not fail on a base that is a URL. *)
Variable URL : Type.
Variable URL_new : string -> URL -> URL.

(** [fs.readdirSync(dir, 'utf-8')] and [fs.readFileSync(file, 'utf-8')]
    on the file system the loader runs against. *)
Variable readdirSync : URL -> Completion (list string).
Variable readFileSync : URL -> Completion string.

(** [JSON.parse]: the parsed value, or the message of the [SyntaxError]
    it throws. *)
Variable JSON_parse : string -> Value + string.

(** The constructor of the translation system, from
    [./create-translation-system]; it receives the options, the on-disk
    table and the plugin table. *)
Variables Opts PluginTable I18nFactory : Type.
Variable createTranslationSystem :
  Opts -> gmap string Value -> PluginTable -> I18nFactory.

Definition parse_json (text : string) : Completion Value :=
  match JSON_parse text with
  | inl data => Normal data
  | inr msg => Throw (SyntaxError msg)
  end.

(** The callback of [.map]: one [[id, data]] entry for a locale file. *)
Definition loadEntry (i18nDir : URL) (file : string) : Completion (string * Value) :=
  let id := slice_to_minus 5 file in
  text ← readFileSync (URL_new file i18nDir) ;
  data ← parse_json text ;
  Normal (id, data).

(** The body of the [try] block: the value assigned to
    [userTranslations] when nothing throws. *)
Definition tryBlock (srcDir : URL) : Completion (gmap string Value) :=
  let i18nDir := URL_new "content/i18n/" srcDir in
  files ← readdirSync i18nDir ;
  entries ← mapM (loadEntry i18nDir) (filter (fun file => endsWith ".json" file = true) files) ;
  Normal (fromEntries entries).

(** [e instanceof Error && 'code' in e && e.code === 'ENOENT'] *)
Definition is_ENOENT (e : Thrown) : bool :=
  instanceof_Error e &&
  match code e with
  | Some c => String.eqb c "ENOENT"
  | None => false
  end.

(** [userTranslations] after the [try]/[catch] statement. *)
Definition userTranslations (srcDir : URL) : Completion (gmap string Value) :=
  let initial : gmap string Value := ∅ in
  match tryBlock srcDir with
  | Normal table => Normal table
  | Throw e => if is_ENOENT e then Normal initial else Throw e
  end.

Definition createTranslationSystemFromFs
    (opts : Opts) (srcDir : URL) (pluginTranslations : PluginTable)
    : Completion I18nFactory :=
  table ← userTranslations srcDir ;
  Normal (createTranslationSystem opts table pluginTranslations).

End WithFileSystem.

End TranslationLoader.

(** ** Schemas of [astro/zod], as far as [navbar.ts] uses them *)

Module Zod.
Import Js.

(** The outcome of parsing one value: the parsed output, a validation
    failure, or an exception that a [transform] callback let escape. *)
Inductive ParseResult : Type :=
| Valid (v : Value)
| Invalid
| Escaped (e : Thrown).

Definition Schema : Type := Value -> ParseResult.

Definition z_string : Schema := fun v =>
  match v with VString _ => Valid v | _ => Invalid end.
(** [z.number()] takes [NaN] for a value of another type. *)
Definition z_number : Schema := fun v =>
  match v with
  | VNumber n => if isNaN n then Invalid else Valid v
  | _ => Invalid
  end.
Definition z_boolean : Schema := fun v =>
  match v with VBool _ => Valid v | _ => Invalid end.
Definition z_undefined : Schema := fun v =>
  match v with VUndefined => Valid v | _ => Invalid end.

(** [z.union]: the output of the first option that accepts the input. *)
Fixpoint z_union (options : list Schema) (v : Value) : ParseResult :=
  match options with
  | [] => Invalid
  | o :: rest =>
      match o v with
      | Valid r => Valid r
      | Invalid => z_union rest v
      | Escaped e => Escaped e
      end
  end.

(** [schema.default(d)]: an absent input is replaced by [d] before the inner
    schema runs. *)
Definition z_default (inner : Schema) (d : Value) : Schema := fun v =>
  match v with VUndefined => inner d | _ => inner v end.

Definition z_optional (inner : Schema) : Schema := fun v =>
  match v with VUndefined => Valid VUndefined | _ => inner v end.

(** [schema.transform(f)]: [f] runs on the output of a successful parse; what
    it throws is not a validation failure. *)
Definition z_transform (inner : Schema) (f : Value -> Completion Value) : Schema := fun v =>
  match inner v with
  | Valid r => match f r with Normal out => Valid out | Throw e => Escaped e end
  | other => other
  end.

(** [schema.parse(v)], which throws a [ZodError] where [safeParse] reports a
    failure. *)
Definition ZodError : Thrown := mkThrown true ZodErrorClass "" None None.

Definition parse (schema : Schema) (v : Value) : Completion Value :=
  match schema v with
  | Valid r => Normal r
  | Invalid => Throw ZodError
  | Escaped e => Throw e
  end.

Definition is_undefined (v : Value) : bool :=
  match v with VUndefined => true | _ => false end.

Fixpoint lookup_prop (k : string) (props : list (string * Value)) : option Value :=
  match props with
  | [] => None
  | (k', v) :: rest => if String.eqb k k' then Some v else lookup_prop k rest
  end.

(** The parsed pairs of an object or record are merged into the output: the
    key [__proto__] is dropped, and a key whose value is [undefined] is kept
    only when the input had it. *)
Inductive Merged : Type :=
| MValid (props : list (string * Value))
| MInvalid
| MEscaped (e : Thrown).

Fixpoint mergeObject (pairs : list (string * ParseResult * bool)) : Merged :=
  match pairs with
  | [] => MValid []
  | (k, r, alwaysSet) :: rest =>
      match r with
      | Escaped e => MEscaped e
      | Invalid =>
          match mergeObject rest with
          | MEscaped e => MEscaped e
          | _ => MInvalid
          end
      | Valid v =>
          match mergeObject rest with
          | MValid props =>
              if negb (String.eqb k "__proto__") && (negb (is_undefined v) || alwaysSet)
              then MValid ((k, v) :: props)
              else MValid props
          | other => other
          end
      end
  end.

(** [z.record(valueType)] *)
Definition z_record (valueType : Schema) : Schema := fun v =>
  match v with
  | VObject props =>
      match mergeObject (map (fun kv => (kv.1, valueType kv.2, true)) props) with
      | MValid out => Valid (VObject out)
      | MInvalid => Invalid
      | MEscaped e => Escaped e
      end
  | _ => Invalid
  end.

(** [z.object(shape)] with its policy for keys outside the shape. *)
Inductive UnknownKeys : Type := strip | strict_keys | passthrough_keys.

Record ObjectSchema : Type := mkObjectSchema {
  shape : list (string * Schema);
  unknownKeys : UnknownKeys;
}.

Definition z_object (shape : list (string * Schema)) : ObjectSchema :=
  mkObjectSchema shape strip.

Definition has_key (k : string) {A} (l : list (string * A)) : bool :=
  existsb (fun kv => String.eqb k kv.1) l.

(** [{ ...shape, ...augmentation }]: a key of the shape keeps its place and
    takes the new schema; new keys follow. *)
Definition spread_shape (shape augmentation : list (string * Schema)) : list (string * Schema) :=
  map (fun ks =>
         match find (fun a => String.eqb ks.1 a.1) augmentation with
         | Some a => (ks.1, a.2)
         | None => ks
         end) shape
  ++ filter (fun a => has_key a.1 shape = false) augmentation.

Definition z_extend (o : ObjectSchema) (augmentation : list (string * Schema)) : ObjectSchema :=
  mkObjectSchema (spread_shape (shape o) augmentation) (unknownKeys o).

(** [o.partial({ k: true, ... })]: the listed keys become optional. *)
Definition z_partial (o : ObjectSchema) (mask : list string) : ObjectSchema :=
  mkObjectSchema
    (map (fun ks => if bool_decide (ks.1 ∈ mask) then (ks.1, z_optional ks.2) else ks) (shape o))
    (unknownKeys o).

Definition z_strict (o : ObjectSchema) : ObjectSchema :=
  mkObjectSchema (shape o) strict_keys.

Definition extraKeys (o : ObjectSchema) (props : list (string * Value)) : list (string * Value) :=
  filter (fun kv => has_key kv.1 (shape o) = false) props.

(** The parser of an object schema: the keys of the shape are parsed in
    order, then the keys outside the shape are treated by the policy. *)
Definition run (o : ObjectSchema) : Schema := fun v =>
  match v with
  | VObject props =>
      let pairs :=
        map (fun ks =>
               (ks.1,
                ks.2 (match lookup_prop ks.1 props with Some x => x | None => VUndefined end),
                has_key ks.1 props))
            (shape o) in
      let extra := extraKeys o props in
      let all_pairs :=
        match unknownKeys o with
        | passthrough_keys => pairs ++ map (fun kv => (kv.1, Valid kv.2, true)) extra
        | _ => pairs
        end in
      match mergeObject all_pairs with
      | MValid out =>
          match unknownKeys o, extra with
          | strict_keys, _ :: _ => Invalid
          | _, _ => Valid (VObject out)
          end
      | MInvalid => Invalid
      | MEscaped e => Escaped e
      end
  | _ => Invalid
  end.

End Zod.

(** ** Navigation item schemas ([src/schemas/navbar.ts], first part) *)

Module NavBar.
Import Js.

Definition NavBarBaseSchema : Zod.ObjectSchema :=
  Zod.z_object
    [ ("label", Zod.z_string);
      ("translations", Zod.z_default (Zod.z_record Zod.z_string) (VObject [])) ].

Definition linkHTMLAttributesSchema : Zod.Schema :=
  Zod.z_record (Zod.z_union [Zod.z_string; Zod.z_number; Zod.z_boolean; Zod.z_undefined]).

Definition NavBarLinkItemHTMLAttributesSchema : Zod.Schema :=
  Zod.z_default linkHTMLAttributesSchema (VObject []).

Definition NavBarLinkItemSchema : Zod.ObjectSchema :=
  Zod.z_strict
    (Zod.z_extend NavBarBaseSchema
       [ ("link", Zod.z_string);
         ("attrs", NavBarLinkItemHTMLAttributesSchema) ]).

Definition InternalNavBarLinkItemSchema : Zod.ObjectSchema :=
  Zod.z_extend (Zod.z_partial NavBarBaseSchema ["label"])
    [ ("slug", Zod.z_string);
      ("attrs", NavBarLinkItemHTMLAttributesSchema) ].

Definition InternalNavBarLinkItemShorthandSchema : Zod.Schema :=
  Zod.z_transform Zod.z_string
    (fun slug => Zod.parse (Zod.run InternalNavBarLinkItemSchema) (VObject [("slug", slug)])).

Definition NavBarItemSchema : Zod.Schema :=
  Zod.z_union
    [ Zod.run NavBarLinkItemSchema;
      Zod.run InternalNavBarLinkItemSchema;
      InternalNavBarLinkItemShorthandSchema ].

End NavBar.

(** ** The validated configuration *)

Module Config.

(** Modelled from the spec: the type [VitesseConfig] is declared in
    [utils/user-config], which is not among the sources.  The logo is
    "either absent, a single-image form, or a light/dark pair form"; the
    other fields are the ones the sources read. *)
Inductive LogoConfig : Type :=
| LogoSingle (src : string)
| LogoPair (dark light : string).

Record VitesseConfig : Type := mkVitesseConfig {
  prerender : bool;
  customCss : list string;
  logo : option LogoConfig;
  components : list (string * string);
}.

End Config.

(** ** The plugin runtime ([runPlugins]) *)

Module Plugins.
Import Js Config.

Abbreviation UserConfig := (gmap string Value).
Abbreviation PluginTranslations := (gmap string (gmap string string)).

(** The argument of [injectTranslations]: an object whose properties are
    its own and enumerable, as those of an object literal or of a parsed
    JSON text are, and whose values are such objects.  It is given by its
    entries in the order of [Object.entries]; the keys of an object are
    distinct.  The argument of [updateConfig] is such an object too; the
    order of its properties plays no part. *)
Abbreviation LocaleTranslations := (list (string * string)).
Abbreviation Translations := (list (string * list (string * string))).

Section Runtime.

(** [VitesseConfigSchema], from [utils/user-config]: the validated
    configuration, or the description of the validation issues. *)
Variable VitesseConfigSchema : UserConfig -> VitesseConfig + string.

(** Astro integrations and the integration logger are not interpreted. *)
Variable AstroIntegration : Type.
Variable Logger : Type.
Variable fork : Logger -> string -> Logger.

(** The message of the [TypeError] that the engine throws when a property
    that cannot be assigned is assigned: it is given the name under which
    the target is inherited from [Object.prototype], and the key.  The text
    is the engine's own. *)
Variable readOnlyMessage : string -> string -> string.

(** Modelled from the spec: [parseWithFriendlyErrors] is defined in
    [utils/error-map], which is not among the sources.  It returns the
    validated value, or fails with an error "carrying a human-readable
    explanation that includes the supplied context label". *)
Definition parseWithFriendlyErrors {I O} (schema : I -> O + string)
    (input : I) (errorMessage : string) : Completion O :=
  match schema input with
  | inl parsed => Normal parsed
  | inr issues => Throw (AstroError errorMessage (Some issues))
  end.

(** [VitessePluginContext]: what [runPlugins] reads of the hook parameters. *)
Record AstroConfig : Type := mkAstroConfig {
  output : string;
  config_integrations : list AstroIntegration;
}.

Record VitessePluginContext : Type := mkContext {
  config : AstroConfig;
  command : string;
  isRestart : bool;
  logger : Logger;
}.

(** The variables of one call of [runPlugins] that its closures assign to
    or mutate. *)
Record RunState : Type := mkRunState {
  userConfig : UserConfig;
  vitesseConfig : VitesseConfig;
  integrations : list AstroIntegration;
  pluginTranslations : PluginTranslations;
}.

(** A computation inside [runPlugins]: it completes normally or throws, and
    leaves the variables as they were at that point. *)
Definition Run (A : Type) : Type := RunState -> Completion A * RunState.

Definition ret {A} (a : A) : Run A := fun s => (Normal a, s).
Definition throw {A} (e : Thrown) : Run A := fun s => (Throw e, s).
Definition seq {A B} (m : Run A) (k : A -> Run B) : Run B := fun s =>
  match m s with
  | (Normal a, s') => k a s'
  | (Throw e, s') => (Throw e, s')
  end.

(** A call of one of the three callbacks, with its argument. *)
Inductive Call : Type :=
| UpdateConfig (newConfig : UserConfig)
| AddIntegration (integration : AstroIntegration)
| InjectTranslations (translations : Translations).

(** What a plugin's [setup] does, as far as [runPlugins] is concerned: it
    returns (or the promise it returned is fulfilled), it throws (or that
    promise is rejected), or it calls a callback and goes on according to
    how the call completed.  Going on after a call that threw is what a
    [try]/[catch] around the call does; a setup that does not catch goes on
    with [Raise e] after [Throw e].  A setup calls the callbacks it was
    given, and only while it runs. *)
Inductive Setup : Type :=
| Return
| Raise (e : Thrown)
| Invoke (call : Call) (andThen : Completion unit -> Setup).

(** The setup that makes the given calls in order and catches nothing. *)
Fixpoint uncaught (calls : list Call) : Setup :=
  match calls with
  | [] => Return
  | c :: rest =>
      Invoke c (fun completion =>
                  match completion with
                  | Normal _ => uncaught rest
                  | Throw e => Raise e
                  end)
  end.

(** The argument of [setup], without the three callbacks. *)
Record SetupArgs : Type := mkSetupArgs {
  setup_config : UserConfig;
  setup_astroConfig : AstroConfig;
  setup_command : string;
  setup_isRestart : bool;
  setup_logger : Logger;
}.

Record Plugin : Type := mkPlugin {
  name : string;
  setup : SetupArgs -> Setup;
}.

(** The value of the key [plugins] in the configuration shown to a plugin;
    plugins see it typed as a list of [{ name }]. *)
Definition plugins_value (plugins : list Plugin) : Value :=
  VArray (map (fun p => VObject [("name", VString (name p))]) plugins).

(** *** The plugin schema (lines 54-194)

    [z.function(args, returns)] replaces a function by one that parses its
    arguments and calls the function with the parsed copies: so for
    [setup] (line 76) and, in its argument, for [updateConfig] (lines
    107-110), [addIntegration] (line 133) and [injectTranslations] (lines
    183-186).  For an object, [z.record] builds the copy property by
    property, in order, and it never copies a key [__proto__].  The
    arguments have the types of the schema's input, so the wrappers do not
    reject them. *)
Definition notProto {V} (kv : string * V) : bool :=
  negb (String.eqb kv.1 "__proto__").

(** [z.record(z.any())], the argument of [updateConfig]. *)
Definition z_record_any (newConfig : UserConfig) : UserConfig :=
  delete "__proto__" newConfig.

(** [z.record(z.string(), z.record(z.string(), z.string()))], the argument
    of [injectTranslations].  The copies keep the order of the
    properties. *)
Definition z_record_of_records (translations : Translations) : Translations :=
  map (fun kv => (kv.1, List.filter notProto kv.2)) (List.filter notProto translations).

(** The argument that a callback receives when the wrapped callback is
    called with the argument of [c].  An integration is copied with its
    name and hooks. *)
Definition parsedCall (c : Call) : Call :=
  match c with
  | UpdateConfig newConfig => UpdateConfig (z_record_any newConfig)
  | AddIntegration integration => AddIntegration integration
  | InjectTranslations translations => InjectTranslations (z_record_of_records translations)
  end.

(** A setup behind the schema: [setup] itself is wrapped, so it is run
    with wrapped callbacks, and every call it makes reaches the callbacks of
    [runPlugins] with the parsed argument. *)
Fixpoint wrapped (t : Setup) : Setup :=
  match t with
  | Return => Return
  | Raise e => Raise e
  | Invoke c andThen => Invoke (parsedCall c) (fun completion => wrapped (andThen completion))
  end.

Definition vitessePluginSchema (p : Plugin) : Plugin :=
  mkPlugin (name p) (fun args => wrapped (setup p args)).

(** [z.array(vitessePluginSchema).default([])].  The plugin list has the
    type of the schema's input, so validation does not fail on it. *)
Definition parsedPlugins (pluginsUserConfig : option (list Plugin)) : list Plugin :=
  map vitessePluginSchema
      (match pluginsUserConfig with Some plugins => plugins | None => [] end).

Definition vitessePluginsConfigSchema (pluginsUserConfig : option (list Plugin))
    : list Plugin + string :=
  inl (parsedPlugins pluginsUserConfig).

(** *** The callbacks *)

Definition updateConfig (name : string) (newConfig : UserConfig) : Run unit := fun s =>
  if has_property "plugins" newConfig then
    (Throw (Error ("The '" +:+ name +:+
       "' plugin tried to update the 'plugins' config key which is not supported.")), s)
  else
    let mergedUserConfig := newConfig ∪ userConfig s in
    match parseWithFriendlyErrors VitesseConfigSchema mergedUserConfig
            ("Invalid config update provided by the '" +:+ name +:+ "' plugin") with
    | Throw e => (Throw e, s)
    | Normal mergedConfig =>
        (Normal tt,
         mkRunState mergedUserConfig mergedConfig (integrations s) (pluginTranslations s))
    end.

Definition addIntegration (integration : AstroIntegration) : Run unit := fun s =>
  (Normal tt,
   mkRunState (userConfig s) (vitesseConfig s) (integrations s ++ [integration])
     (pluginTranslations s)).

(** [Object.assign(target, source)] for a target that is an entry of the
    table.  The properties of the source are assigned in order.  The key
    [__proto__] reaches the setter that the target inherits from
    [Object.prototype], which ignores a string, unless the target has a
    property of its own under that key. *)
Definition assignProperty (target : gmap string string) (kv : string * string)
    : gmap string string :=
  if String.eqb kv.1 "__proto__" && negb (bool_decide (is_Some (target !! "__proto__")))
  then target
  else <[kv.1 := kv.2]> target.

Definition Object_assign (target : gmap string string) (source : LocaleTranslations)
    : gmap string string :=
  foldl assignProperty target source.

(** The properties that cannot be assigned on the built-in that an object
    inherits under the name [builtin].  Under every name but [__proto__]
    the built-in is a function: its [name] and [length] are read-only, as
    is the [prototype] of the constructor [Object], and [caller] and
    [arguments] are inherited accessors whose setter throws.  Under
    [__proto__] it is [Object.prototype], where every assignment
    succeeds. *)
Definition readOnlyOn (builtin key : string) : bool :=
  negb (String.eqb builtin "__proto__")
  && (bool_decide (key ∈ ["name"; "length"; "caller"; "arguments"])
      || (String.eqb builtin "constructor" && String.eqb key "prototype")).

(** [Object.assign(target, source)] for such a built-in: the properties
    are assigned in order, on the built-in and not in the table, until one
    cannot be assigned. *)
Definition assignToBuiltin (builtin : string) (source : LocaleTranslations)
    : Completion unit :=
  match List.find (fun kv => readOnlyOn builtin kv.1) source with
  | Some kv => Throw (TypeError (readOnlyMessage builtin kv.1))
  | None => Normal tt
  end.

(** One turn of the loop over [Object.entries(translations)].  When the read
    [pluginTranslations[locale]] finds an inherited property, [??=] assigns
    nothing and [Object.assign] writes to the inherited object: the table
    gets no property.  (The inherited object is [Object.prototype] itself
    only for the locale [__proto__], which the argument check of the
    wrapped callback drops.) *)
Definition injectLocale (table : PluginTranslations)
    (entry : string * LocaleTranslations) : Completion unit * PluginTranslations :=
  let '(locale, localeTranslations) := entry in
  match get table locale with
  | OwnValue target => (Normal tt, <[locale := Object_assign target localeTranslations]> table)
  | InheritedValue builtin => (assignToBuiltin builtin localeTranslations, table)
  | Undefined => (Normal tt, <[locale := Object_assign ∅ localeTranslations]> table)
  end.

(** The loop: a turn that throws ends it, and the table keeps what the
    turns before it did. *)
Fixpoint injectEntries (table : PluginTranslations) (entries : Translations)
    : Completion unit * PluginTranslations :=
  match entries with
  | [] => (Normal tt, table)
  | entry :: rest =>
      match injectLocale table entry with
      | (Normal _, table') => injectEntries table' rest
      | (Throw e, table') => (Throw e, table')
      end
  end.

Definition injectTranslations (translations : Translations) : Run unit := fun s =>
  let '(completion, table) := injectEntries (pluginTranslations s) translations in
  (completion, mkRunState (userConfig s) (vitesseConfig s) (integrations s) table).

(** *** Running the setups *)

Definition perform (name : string) (c : Call) : Run unit :=
  match c with
  | UpdateConfig newConfig => updateConfig name newConfig
  | AddIntegration integration => addIntegration integration
  | InjectTranslations translations => injectTranslations translations
  end.

(** The setup [t] of the plugin [name], run from the state [s]. *)
Fixpoint execute (name : string) (t : Setup) (s : RunState) : Completion unit * RunState :=
  match t with
  | Return => (Normal tt, s)
  | Raise e => (Throw e, s)
  | Invoke c andThen =>
      let '(completion, s') := perform name c s in
      execute name (andThen completion) s'
  end.

(** The calls that [t] makes on the callbacks, each with its completion. *)
Fixpoint callsOf (name : string) (t : Setup) (s : RunState)
    : list (Call * Completion unit) :=
  match t with
  | Return | Raise _ => []
  | Invoke c andThen =>
      let '(completion, s') := perform name c s in
      (c, completion) :: callsOf name (andThen completion) s'
  end.

(** What is left of [t] after its first [n] calls, and the state then. *)
Fixpoint advance (name : string) (n : nat) (t : Setup) (s : RunState) : Setup * RunState :=
  match n, t with
  | S n', Invoke c andThen =>
      let '(completion, s') := perform name c s in
      advance name n' (andThen completion) s'
  | _, _ => (t, s)
  end.

(** The object literal passed to [setup] in the state [s]. *)
Definition setupArgs (pluginsUserConfig : option (list Plugin))
    (context : VitessePluginContext) (name : string) (s : RunState) : SetupArgs :=
  mkSetupArgs
    (match pluginsUserConfig with
     | Some plugins => <["plugins" := plugins_value plugins]> (userConfig s)
     | None => userConfig s
     end)
    (mkAstroConfig (output (config context))
       (config_integrations (config context) ++ integrations s))
    (command context)
    (isRestart context)
    (fork (logger context) name).

(** [await setup({ ... })] for one plugin. *)
Definition runSetup (pluginsUserConfig : option (list Plugin))
    (context : VitessePluginContext) (p : Plugin) : Run unit := fun s =>
  execute (name p) (setup p (setupArgs pluginsUserConfig context (name p) s)) s.

(** The [for ... of pluginsConfig] loop. *)
Fixpoint forEachPlugin (pluginsUserConfig : option (list Plugin))
    (context : VitessePluginContext) (pluginsConfig : list Plugin) : Run unit :=
  match pluginsConfig with
  | [] => ret tt
  | p :: rest =>
      seq (runSetup pluginsUserConfig context p)
          (fun _ => forEachPlugin pluginsUserConfig context rest)
  end.

(** The calls that the callbacks received during the loop, in order, each
    with its completion; the loop ends with the first setup that throws. *)
Fixpoint receivedCalls (pluginsUserConfig : option (list Plugin))
    (context : VitessePluginContext) (pluginsConfig : list Plugin)
    (s : RunState) : list (Call * Completion unit) :=
  match pluginsConfig with
  | [] => []
  | p :: rest =>
      let t := setup p (setupArgs pluginsUserConfig context (name p) s) in
      callsOf (name p) t s
      ++ match execute (name p) t s with
         | (Normal _, s') => receivedCalls pluginsUserConfig context rest s'
         | (Throw _, _) => []
         end
  end.

(** The calls among them that returned. *)
Definition returned (calls : list (Call * Completion unit)) : list Call :=
  omap (fun cc => match cc.2 with Normal _ => Some cc.1 | Throw _ => None end) calls.

Definition completedCalls (pluginsUserConfig : option (list Plugin))
    (context : VitessePluginContext) (pluginsConfig : list Plugin)
    (s : RunState) : list Call :=
  returned (receivedCalls pluginsUserConfig context pluginsConfig s).

Record RunResult : Type := mkRunResult {
  result_integrations : list AstroIntegration;
  result_vitesseConfig : VitesseConfig;
  result_pluginTranslations : PluginTranslations;
}.

Definition prerenderConflict : Thrown :=
  AstroError
    ("Vitesse’s `prerender: false` option requires `output: " +:+
     String "034" "hybrid" +:+ String "034" "` or `" +:+ String "034" "server" +:+
     String "034" "` in your Astro config.")
    (Some
       ("Either set `output` in your Astro config or set `prerender: true` in the Vitesse options." +:+
        String "010" (String "010"
        "Learn more about rendering modes in the Astro docs: https://docs.astro.build/en/basics/rendering-modes/"))).

Definition initialState (vitesseUserConfig : UserConfig) (validated : VitesseConfig) : RunState :=
  mkRunState vitesseUserConfig validated [] ∅.

Definition runPlugins (vitesseUserConfig : UserConfig)
    (pluginsUserConfig : option (list Plugin))
    (context : VitessePluginContext) : Completion RunResult :=
  validated ← parseWithFriendlyErrors VitesseConfigSchema vitesseUserConfig
                "Invalid config passed to vitesse integration";
  pluginsConfig ← parseWithFriendlyErrors vitessePluginsConfigSchema pluginsUserConfig
                    "Invalid plugins config passed to vitesse integration";
  match forEachPlugin pluginsUserConfig context pluginsConfig
          (initialState vitesseUserConfig validated) with
  | (Throw e, _) => Throw e
  | (Normal _, s) =>
      if String.eqb (output (config context)) "static" && negb (prerender (vitesseConfig s))
      then Throw prerenderConflict
      else Normal (mkRunResult (integrations s) (vitesseConfig s) (pluginTranslations s))
  end.

End Runtime.

Arguments mkRunState {_}.
Arguments userConfig {_}.
Arguments vitesseConfig {_}.
Arguments integrations {_}.
Arguments pluginTranslations {_}.
Arguments UpdateConfig {_}.
Arguments AddIntegration {_}.
Arguments InjectTranslations {_}.
Arguments Return {_}.
Arguments Raise {_}.
Arguments Invoke {_}.
Arguments uncaught {_}.
Arguments parsedCall {_}.
Arguments wrapped {_}.
Arguments mkAstroConfig {_}.
Arguments output {_}.
Arguments config_integrations {_}.
Arguments mkContext {_ _}.
Arguments config {_ _}.
Arguments command {_ _}.
Arguments isRestart {_ _}.
Arguments logger {_ _}.
Arguments mkSetupArgs {_ _}.
Arguments setup_config {_ _}.
Arguments setup_astroConfig {_ _}.
Arguments setup_command {_ _}.
Arguments setup_isRestart {_ _}.
Arguments setup_logger {_ _}.
Arguments mkPlugin {_ _}.
Arguments name {_ _}.
Arguments setup {_ _}.
Arguments vitessePluginSchema {_ _}.
Arguments parsedPlugins {_ _}.
Arguments vitessePluginsConfigSchema {_ _}.
Arguments mkRunResult {_}.
Arguments result_integrations {_}.
Arguments result_vitesseConfig {_}.
Arguments result_pluginTranslations {_}.
Arguments ret {_ _}.
Arguments throw {_ _}.
Arguments seq {_ _ _}.
Arguments updateConfig VitesseConfigSchema {_}.
Arguments addIntegration {_}.
Arguments injectTranslations {_}.
Arguments perform VitesseConfigSchema {_}.
Arguments execute VitesseConfigSchema {_}.
Arguments callsOf VitesseConfigSchema {_}.
Arguments advance VitesseConfigSchema {_}.
Arguments plugins_value {_ _}.
Arguments setupArgs {_ _} fork.
Arguments runSetup VitesseConfigSchema {_ _} fork.
Arguments forEachPlugin VitesseConfigSchema {_ _} fork.
Arguments initialState {_}.
Arguments receivedCalls VitesseConfigSchema {_ _} fork.
Arguments returned {_}.
Arguments completedCalls VitesseConfigSchema {_ _} fork.
Arguments runPlugins VitesseConfigSchema {_ _} fork.

End Plugins.

(** ** String literals in generated source *)

Module Literal.

Definition hexDigit (n : nat) : ascii :=
  match n with
  | 0 => "0" | 1 => "1" | 2 => "2" | 3 => "3" | 4 => "4" | 5 => "5" | 6 => "6"
  | 7 => "7" | 8 => "8" | 9 => "9" | 10 => "a" | 11 => "b" | 12 => "c"
  | 13 => "d" | 14 => "e" | _ => "f"
  end%char.

(** The text [JSON.stringify] writes for one character of a string: the
    quotation mark, the backslash and the control characters are escaped. *)
Definition quoteChar (c : ascii) : string :=
  match c with
  | "034"%char => String "\" (String "034" "")
  | "\"%char => String "\" (String "\" "")
  | "008"%char => String "\" "b"
  | "009"%char => String "\" "t"
  | "010"%char => String "\" "n"
  | "012"%char => String "\" "f"
  | "013"%char => String "\" "r"
  | _ =>
      let n := nat_of_ascii c in
      if (n <? 32)%nat
      then String "\" (String "u" (String "0" (String "0"
             (String (hexDigit (n / 16)) (String (hexDigit (n mod 16)) "")))))
      else String c ""
  end.

Fixpoint quoteBody (s : string) : string :=
  match s with
  | EmptyString => ""
  | String c rest => quoteChar c +:+ quoteBody rest
  end.

(** [JSON.stringify(s)] for a string [s]. *)
Definition JSON_stringify (s : string) : string :=
  String "034" (quoteBody s +:+ String "034" "").

(** Reading a double-quoted string literal back: the value it denotes and
    the text after it. *)
Definition unescape (e : ascii) : option ascii :=
  match e with
  | "034" => Some "034"
  | "\" => Some "\"
  | "/" => Some "/"
  | "b" => Some "008"
  | "t" => Some "009"
  | "n" => Some "010"
  | "f" => Some "012"
  | "r" => Some "013"
  | _ => None
  end%char.

Definition hexValue (c : ascii) : option nat :=
  let n := nat_of_ascii c in
  if (48 <=? n)%nat && (n <=? 57)%nat then Some (n - 48)
  else if (97 <=? n)%nat && (n <=? 102)%nat then Some (n - 87)
  else if (65 <=? n)%nat && (n <=? 70)%nat then Some (n - 55)
  else None.

Definition unicodeEscape (h1 h2 h3 h4 : ascii) : option ascii :=
  match hexValue h1, hexValue h2, hexValue h3, hexValue h4 with
  | Some 0, Some 0, Some c, Some d =>
      if (c <? 8)%nat then Some (ascii_of_nat (16 * c + d)) else None
  | _, _, _, _ => None
  end.

Definition consChar (c : ascii) (r : option (string * string)) : option (string * string) :=
  match r with
  | Some (value, rest) => Some (String c value, rest)
  | None => None
  end.

Fixpoint readBody (s : string) : option (string * string) :=
  match s with
  | EmptyString => None
  | String c t =>
      match c with
      | "034"%char => Some ("", t)
      | "\"%char =>
          match t with
          | String "u" (String h1 (String h2 (String h3 (String h4 t')))) =>
              match unicodeEscape h1 h2 h3 h4 with
              | Some d => consChar d (readBody t')
              | None => None
              end
          | String e t' =>
              match unescape e with
              | Some d => consChar d (readBody t')
              | None => None
              end
          | EmptyString => None
          end
      | _ => if (nat_of_ascii c <? 32)%nat then None else consChar c (readBody t)
      end
  end.

Definition readStringLiteral (s : string) : option (string * string) :=
  match s with
  | String "034" t => readBody t
  | _ => None
  end.

End Literal.

(** ** The virtual module registry ([vitePluginVitesseUserConfig]) *)

Module VirtualModules.
Import Js Config.

Definition resolveVirtualModuleId (id : string) : string :=
  String "000" id.

Section Registry.

(** [URL] objects, [fileURLToPath] of [node:url] and [resolve] of
    [node:path]. *)
Variable URL : Type.
Variable fileURLToPath : URL -> string.
Variable path_resolve : string -> string -> string.

(** [JSON.stringify] of the three objects that are serialized whole. *)
Variable PluginTranslations : Type.
Variable stringify_config : VitesseConfig -> string.
Variable stringify_context : string -> URL -> URL -> string -> string.
Variable stringify_translations : PluginTranslations -> string.

Variable opts : VitesseConfig.

(** The second parameter, [{ build, root, srcDir, trailingSlash }]. *)
Variable build_format : string.
Variable root : URL.
Variable srcDir : URL.
Variable trailingSlash : string.

Variable pluginTranslations : PluginTranslations.

(** [resolveId(id, base = root)] *)
Definition resolveId (id : string) (base : option URL) : string :=
  let base := match base with Some b => b | None => root end in
  Literal.JSON_stringify
    (if String.prefix "." id then path_resolve (fileURLToPath base) id else id).

Definition virtualComponentModules : gmap string string :=
  fromEntries
    (map (fun entry =>
            ("virtual:vitesse/components/" +:+ entry.1,
             "export { default } from " +:+ resolveId entry.2 None +:+ ";"))
         (components opts)).

Definition userImagesModule : string :=
  match logo opts with
  | Some (LogoSingle src) =>
      "import src from " +:+ resolveId src None +:+
      "; export const logos = { dark: src, light: src };"
  | Some (LogoPair dark light) =>
      "import dark from " +:+ resolveId dark None +:+
      "; import light from " +:+ resolveId light None +:+
      "; export const logos = { dark, light };"
  | None => "export const logos = {};"
  end.

Definition collectionConfigModule : string :=
  "let userCollections;" +:+ String "010"
  "      try {" +:+ String "010"
  "        userCollections = (await import(" +:+
  resolveId "./content/config.ts" (Some srcDir) +:+
  ")).collections;" +:+ String "010"
  "      } catch {}" +:+ String "010"
  "      export const collections = userCollections;".

(** Map of virtual module names to their code contents as strings. *)
Definition modules : gmap string string :=
  virtualComponentModules ∪
  fromEntries
    [ ("virtual:vitesse/user-config", "export default " +:+ stringify_config opts);
      ("virtual:vitesse/project-context",
       "export default " +:+ stringify_context build_format root srcDir trailingSlash);
      ("virtual:vitesse/user-css",
       String.concat "" (map (fun id => "import " +:+ resolveId id None +:+ ";") (customCss opts)));
      ("virtual:vitesse/user-images", userImagesModule);
      ("virtual:vitesse/collection-config", collectionConfigModule);
      ("virtual:vitesse/plugin-translations",
       "export default " +:+ stringify_translations pluginTranslations) ].

(** Mapping names prefixed with [\0] to their original form. *)
Definition resolutionMap : gmap string string :=
  fromEntries (map (fun key => (resolveVirtualModuleId key, key)) (map fst (map_to_list modules))).

(** The hook [resolveId(id)] of the returned plugin. *)
Definition plugin_resolveId (id : string) : option string :=
  if has_property id modules then Some (resolveVirtualModuleId id) else None.

(** The property key that an inherited value of [Object.prototype] turns
    into when it is used as one. *)
Definition inheritedAsKey (k : string) : string :=
  if String.eqb k "__proto__" then "[object Object]"
  else if String.eqb k "constructor" then "function Object() { [native code] }"
  else "function " +:+ k +:+ "() { [native code] }".

(** The hook [load(id)] of the returned plugin: [Undefined] is the absence
    of a result. *)
Definition plugin_load (id : string) : PropertyRead string :=
  match get resolutionMap id with
  | OwnValue resolution =>
      if String.eqb resolution "" then Undefined else get modules resolution
  | InheritedValue k => get modules (inheritedAsKey k)
  | Undefined => Undefined
  end.

End Registry.

End VirtualModules.

(** ** Reading the text of the user-images module

    The statements of a generated module, read back from its text: the
    import declarations [import x from "specifier";] in order, then the
    declaration [export const logos = { ... };] with the identifier bound to
    each property ([{ dark, light }] is short for
    [{ dark: dark, light: light }]). *)

Module ModuleText.

Fixpoint strip (p s : string) : option string :=
  match p with
  | EmptyString => Some s
  | String a p' =>
      match s with
      | String b s' => if Ascii.eqb a b then strip p' s' else None
      | EmptyString => None
      end
  end.

Definition isIdentifierChar (c : ascii) : bool :=
  let n := nat_of_ascii c in
  ((97 <=? n)%nat && (n <=? 122)%nat) || ((65 <=? n)%nat && (n <=? 90)%nat)
  || ((48 <=? n)%nat && (n <=? 57)%nat) || Ascii.eqb c "_" || Ascii.eqb c "$".

Fixpoint readIdentifier (s : string) : string * string :=
  match s with
  | EmptyString => ("", "")
  | String c t =>
      if isIdentifierChar c
      then let (w, r) := readIdentifier t in (String c w, r)
      else ("", s)
  end.

Fixpoint skipSpaces (s : string) : string :=
  match s with
  | String " " t => skipSpaces t
  | _ => s
  end.

(** [import x from "specifier";] *)
Definition readImport (s : string) : option ((string * string) * string) :=
  s1 ← strip "import " s;
  let (x, s2) := readIdentifier s1 in
  s3 ← strip " from " s2;
  '(specifier, s4) ← Literal.readStringLiteral s3;
  s5 ← strip ";" s4;
  Some ((x, specifier), s5).

Fixpoint readImports (fuel : nat) (s : string) : list (string * string) * string :=
  match fuel with
  | O => ([], s)
  | S fuel' =>
      match readImport (skipSpaces s) with
      | Some (i, rest) =>
          let (more, rest') := readImports fuel' rest in (i :: more, rest')
      | None => ([], skipSpaces s)
      end
  end.

(** The properties of an object literal up to its closing brace. *)
Fixpoint readProperties (fuel : nat) (s : string) : option (list (string * string) * string) :=
  match fuel with
  | O => None
  | S fuel' =>
      match skipSpaces s with
      | String "}" rest => Some ([], rest)
      | s1 =>
          let (key, s2) := readIdentifier s1 in
          if String.eqb key "" then None
          else
            let (bound, s3) :=
              match skipSpaces s2 with
              | String ":" s2' => readIdentifier (skipSpaces s2')
              | _ => (key, s2)
              end in
            if String.eqb bound "" then None
            else
              match skipSpaces s3 with
              | String "," s4 =>
                  '(more, rest) ← readProperties fuel' s4;
                  Some ((key, bound) :: more, rest)
              | String "}" rest => Some ([(key, bound)], rest)
              | _ => None
              end
      end
  end.

Record ImagesModule : Type := mkImagesModule {
  imports : list (string * string);
  logos : list (string * string);
}.

Definition readExport (s : string) : option (list (string * string)) :=
  s1 ← strip "export const logos = {" s;
  '(properties, s2) ← readProperties (String.length s1) s1;
  s3 ← strip ";" s2;
  if String.eqb s3 "" then Some properties else None.

Definition readModule (text : string) : option ImagesModule :=
  let (imported, rest) := readImports (String.length text) text in
  properties ← readExport rest;
  Some (mkImagesModule imported properties).

End ModuleText.

(** ** Concrete inputs *)

Module Examples.
Import Js.

(** The error of [node:fs] for a path that does not exist. *)
Definition ENOENT : Thrown :=
  mkThrown true ErrorClass_Error "ENOENT: no such file or directory" (Some "ENOENT") None.

(** [new URL(relative, base)] for a base that ends with [/] and a relative
    file or directory name made of letters, digits, [.], [-], [_] and [/]
    that does not start with [/] or [.]: the name is appended.  (Other
    names, such as one with [#], [?] or [%], are parsed by [new URL]; the
    examples use none.) *)
Definition url_new (relative base : string) : string := base +:+ relative.

Definition json_parse (text : string) : Value + string :=
  if String.eqb text "{}" then inl (VObject [])
  else inr "Unexpected token".

(** A project whose [content/i18n/] directory lists [en.json], the link
    [fr.json] whose target is gone, and [notes.txt]. *)
Definition dangling_readdir (dir : string) : Completion (list string) :=
  if String.eqb dir "/site/src/content/i18n/"
  then Normal ["en.json"; "fr.json"; "notes.txt"]
  else Throw ENOENT.

Definition dangling_readFile (file : string) : Completion string :=
  if String.eqb file "/site/src/content/i18n/en.json" then Normal "{}"
  else Throw ENOENT.

(** A project without a [content/i18n/] directory. *)
Definition absent_readdir (dir : string) : Completion (list string) :=
  Throw ENOENT.

(** A project whose only locale file, [en.json], holds malformed JSON. *)
Definition malformed_readdir (dir : string) : Completion (list string) :=
  Normal ["en.json"].

Definition malformed_readFile (file : string) : Completion string :=
  Normal "{ hello".

(** A configuration schema that reads the key [prerender], a boolean that
    defaults to [true]. *)
Definition prerender_schema (raw : gmap string Value) : Config.VitesseConfig + string :=
  match raw !! "prerender" with
  | None => inl (Config.mkVitesseConfig true [] None [])
  | Some (VBool b) => inl (Config.mkVitesseConfig b [] None [])
  | Some _ => inr "prerender: Expected boolean"
  end.

(** Integrations are known by their name, a logger by its label. *)
Definition fork (logger label : string) : string := logger +:+ ":" +:+ label.

Definition static_build : Plugins.VitessePluginContext string string :=
  Plugins.mkContext (Plugins.mkAstroConfig "static" []) "build" false "vitesse".

Definition server_build : Plugins.VitessePluginContext string string :=
  Plugins.mkContext (Plugins.mkAstroConfig "server" []) "build" false "vitesse".

(** The message of an engine for an assignment that is refused. *)
Definition engine_message (builtin key : string) : string :=
  "Cannot assign to read only property '" +:+ key +:+ "' of " +:+ builtin.

Definition sitemap : Plugins.Plugin string string :=
  Plugins.mkPlugin "sitemap"
    (fun _ =>
       Plugins.uncaught
         [ Plugins.AddIntegration "sitemap";
           Plugins.InjectTranslations [ ("en", [ ("sitemap.title", "Sitemap") ]) ] ]).

(** A plugin that tries to replace the plugin list and lets the error
    escape. *)
Definition rogue : Plugins.Plugin string string :=
  Plugins.mkPlugin "rogue"
    (fun _ =>
       Plugins.uncaught
         [ Plugins.AddIntegration "rogue-integration";
           Plugins.UpdateConfig {[ "plugins" := VArray [] ]};
           Plugins.AddIntegration "unreached" ]).

(** A plugin that tries the same inside [try { ... } catch { }] and then
    goes on. *)
Definition cautious : Plugins.Plugin string string :=
  Plugins.mkPlugin "cautious"
    (fun _ =>
       Plugins.Invoke (Plugins.UpdateConfig {[ "plugins" := VArray [] ]})
         (fun _ => Plugins.uncaught [ Plugins.AddIntegration "after" ])).

(** A plugin that turns prerendering off, and one whose update is invalid. *)
Definition ssr : Plugins.Plugin string string :=
  Plugins.mkPlugin "ssr"
    (fun _ => Plugins.uncaught [ Plugins.UpdateConfig {[ "prerender" := VBool false ]} ]).

Definition invalid_update : gmap string Value := {[ "prerender" := VString "no" ]}.

(** Two plugins that translate the same key of the same locale. *)
Definition greeting_en : Plugins.Plugin string string :=
  Plugins.mkPlugin "greeting-en"
    (fun _ =>
       Plugins.uncaught
         [ Plugins.InjectTranslations
             [ ("en", [ ("greeting", "Hello"); ("farewell", "Bye") ]) ] ]).

Definition greeting_override : Plugins.Plugin string string :=
  Plugins.mkPlugin "greeting-override"
    (fun _ =>
       Plugins.uncaught
         [ Plugins.InjectTranslations
             [ ("en", [ ("greeting", "Hi") ]); ("fr", [ ("greeting", "Salut") ]) ] ]).

(** A plugin that names a locale like a property of [Object.prototype]. *)
Definition constructor_locale : Plugins.Plugin string string :=
  Plugins.mkPlugin "constructor-locale"
    (fun _ =>
       Plugins.uncaught
         [ Plugins.InjectTranslations [ ("constructor", [ ("greeting", "Hello") ]) ] ]).

(** [resolve] of [node:path] on POSIX for an absolute base and a relative
    path: the segments of both in order, without the empty ones and [.],
    each [..] removing the segment before it. *)
Fixpoint segments (s current : string) : list string :=
  match s with
  | EmptyString => [current]
  | String c t =>
      if Ascii.eqb c "/" then current :: segments t ""
      else segments t (current +:+ String c "")
  end.

Definition normalize (parts : list string) : list string :=
  rev (foldl (fun kept part =>
                if String.eqb part "" || String.eqb part "." then kept
                else if String.eqb part ".." then tail kept
                else part :: kept)
         [] parts).

Definition posix_resolve (base path : string) : string :=
  match normalize (segments (base +:+ "/" +:+ path) "") with
  | [] => "/"
  | parts => String.concat "" (map (fun part => "/" +:+ part) parts)
  end.

(** [fileURLToPath] on [file:] URLs without escapes. *)
Definition file_url_to_path (url : string) : string :=
  match ModuleText.strip "file://" url with
  | Some path => path
  | None => url
  end.

(** A site with two custom style sheets, a logo pair and one component
    override. *)
Definition site : Config.VitesseConfig :=
  Config.mkVitesseConfig true
    ["./src/styles/a.css"; "my-pkg/style.css"]
    (Some (Config.LogoPair "./src/assets/dark.svg" "./src/assets/light.svg"))
    [("Footer", "./src/components/Footer.astro")].

Definition site_modules : gmap string string :=
  VirtualModules.modules string file_url_to_path posix_resolve unit
    (fun _ => "{}") (fun _ _ _ _ => "{}") (fun _ => "{}")
    site "directory" "file:///proj/" "file:///proj/src/" "ignore" tt.

Definition site_resolveId : string -> option string :=
  VirtualModules.plugin_resolveId string file_url_to_path posix_resolve unit
    (fun _ => "{}") (fun _ _ _ _ => "{}") (fun _ => "{}")
    site "directory" "file:///proj/" "file:///proj/src/" "ignore" tt.

Definition site_load : string -> Js.PropertyRead string :=
  VirtualModules.plugin_load string file_url_to_path posix_resolve unit
    (fun _ => "{}") (fun _ _ _ _ => "{}") (fun _ => "{}")
    site "directory" "file:///proj/" "file:///proj/src/" "ignore" tt.

(** A translation system that is the on-disk table it was built from. *)
Definition table_only (opts : unit) (table : gmap string Value) (plugins : unit)
    : gmap string Value := table.

End Examples.

(** ** The shapes of a validated navigation item *)

Module NavBarNormal.
Import Js Zod NavBar.

(** An external link item with its four properties, or an internal link
    item, whose label can be absent or [undefined].  In both, the
    translations are a record of strings and the attributes a record that
    [linkHTMLAttributesSchema] accepts as it is. *)
Inductive Normalised : Value -> Prop :=
| ExternalLink (l k : string) (t a : list (string * Value)) :
    z_record z_string (VObject t) = Valid (VObject t) ->
    linkHTMLAttributesSchema (VObject a) = Valid (VObject a) ->
    Normalised (VObject [("label", VString l); ("translations", VObject t);
                         ("link", VString k); ("attrs", VObject a)])
| InternalLink (label : list (string * Value)) (s : string) (t a : list (string * Value)) :
    label = [] \/ label = [("label", VUndefined)] \/ (exists l, label = [("label", VString l)]) ->
    z_record z_string (VObject t) = Valid (VObject t) ->
    linkHTMLAttributesSchema (VObject a) = Valid (VObject a) ->
    Normalised (VObject (label ++ [("translations", VObject t); ("slug", VString s);
                                   ("attrs", VObject a)])).

End NavBarNormal.

(** ** What the calls of a run add up to *)

Module PluginCalls.
Import Js Plugins.

(** The integrations passed to [addIntegration], the objects passed to
    [updateConfig] and the translations passed to [injectTranslations]
    among a sequence of calls, in order. *)
Definition addedIntegrations {A} (calls : list (Call A)) : list A :=
  omap (fun c => match c with AddIntegration integration => Some integration | _ => None end)
       calls.

Definition configUpdates {A} (calls : list (Call A)) : list UserConfig :=
  omap (fun c => match c with UpdateConfig newConfig => Some newConfig | _ => None end) calls.

Definition injectedFragments {A} (calls : list (Call A)) : list Translations :=
  omap (fun c => match c with InjectTranslations t => Some t | _ => None end) calls.

(** [{ ...userConfig, ...newConfig }] for each update in turn. *)
Definition mergeUpdates (userConfig : UserConfig) (updates : list UserConfig) : UserConfig :=
  foldl (fun merged newConfig => newConfig ∪ merged) userConfig updates.

(** The table after each of the fragments was passed to
    [injectTranslations] in turn, whether the call returned or threw. *)
Definition injectAll (readOnlyMessage : string -> string -> string)
    (table : PluginTranslations) (fragments : list Translations) : PluginTranslations :=
  foldl (fun t fragment => (injectEntries readOnlyMessage t fragment).2) table fragments.

(** The same calls when each of them has to return for the next to be
    made. *)
Fixpoint injectEach (readOnlyMessage : string -> string -> string)
    (table : PluginTranslations) (fragments : list Translations)
    : Completion unit * PluginTranslations :=
  match fragments with
  | [] => (Normal tt, table)
  | fragment :: rest =>
      match injectEntries readOnlyMessage table fragment with
      | (Normal _, table') => injectEach readOnlyMessage table' rest
      | (Throw e, table') => (Throw e, table')
      end
  end.

(** The value that an object gives for a key: that of its last property
    with this key (the keys of an object are distinct). *)
Definition given {V} (key : string) (properties : list (string * V)) : option V :=
  last (omap (fun kv => if String.eqb kv.1 key then Some kv.2 else None) properties).

(** The properties that a fragment holds for a locale, the value that it
    gives for a key of the locale, and the value that the last of several
    fragments to give one gives. *)
Definition localeProperties (locale : string) (fragment : Translations) : LocaleTranslations :=
  concat (omap (fun entry : string * LocaleTranslations =>
                  if String.eqb entry.1 locale then Some entry.2 else None)
               fragment).

Definition translation (locale key : string) (fragment : Translations) : option string :=
  given key (localeProperties locale fragment).

Definition lastTranslation (locale key : string) (fragments : list Translations)
    : option string :=
  last (omap (translation locale key) fragments).

Definition mentions (locale : string) (fragment : Translations) : bool :=
  existsb (fun entry : string * LocaleTranslations => String.eqb entry.1 locale) fragment.

(** The entry of a locale after properties were assigned to it: [before]
    is the entry it had, if any, [mentioned] tells whether some fragment
    held the locale. *)
Definition merged (before : option (gmap string string)) (locale : string)
    (properties : LocaleTranslations) (mentioned : bool) : option (gmap string string) :=
  match before with
  | Some target => Some (Object_assign target properties)
  | None =>
      if inherited locale then None
      else if mentioned then Some (Object_assign ∅ properties) else None
  end.

End PluginCalls.

(** ** Types of the injected translation keys ([injectPluginTranslationsTypes]) *)

Module PluginTypes.

(** [allKeys.add(key)] on a [Set], which keeps the order of insertion. *)
Definition add (allKeys : list string) (key : string) : list string :=
  if bool_decide (key ∈ allKeys) then allKeys else allKeys ++ [key].

(** The two loops.  The argument lists, for every locale in the order of
    [Object.values(translations)], the keys of its table in the order of
    [Object.keys]. *)
Definition allKeys (translations : list (list string)) : list string :=
  foldl (fun keys localeTranslations => foldl add keys localeTranslations) [] translations.

Definition keyDeclaration (key : string) : string :=
  "'" +:+ key +:+ "': string;".

Definition separator : string :=
  String "010" (String "009" (String "009" "")).

Definition header : string :=
  "declare namespace VitesseApp {" +:+ String "010"
  "  type PluginUIStringKeys = {" +:+ String "010"
  "    ".

Definition footer : string :=
  String "010"
  "  };" +:+ String "010"
  "  interface I18n extends PluginUIStringKeys {}" +:+ String "010"
  "}".

(** The argument of the call of [injectTypes]. *)
Record InjectedType : Type := mkInjectedType {
  filename : string;
  content : string;
}.

(** The call of [injectTypes] that the function makes, if it makes one. *)
Definition injectPluginTranslationsTypes (translations : list (list string))
    : option InjectedType :=
  let allKeys := allKeys translations in
  if (length allKeys =? 0)%nat then None
  else
    Some (mkInjectedType "i18n-plugins.d.ts"
            (header +:+ String.concat separator (map keyDeclaration allKeys) +:+ footer)).

(** A line terminator of ECMAScript at the start of [s]: LF, CR, or
    U+2028 or U+2029 in UTF-8. *)
Definition lineTerminatorAt (s : string) : bool :=
  match s with
  | String c1 t1 =>
      Ascii.eqb c1 "010" || Ascii.eqb c1 "013"
      || (Ascii.eqb c1 "226"
          && match t1 with
             | String c2 (String c3 _) =>
                 Ascii.eqb c2 "128" && (Ascii.eqb c3 "168" || Ascii.eqb c3 "169")
             | _ => false
             end)
  | EmptyString => false
  end.

(** A key that is written between apostrophes as it is: it has no
    apostrophe, no backslash and no line terminator. *)
Fixpoint plainKey (s : string) : bool :=
  match s with
  | EmptyString => true
  | String c t =>
      negb (Ascii.eqb c "'") && negb (Ascii.eqb c "\") && negb (lineTerminatorAt s)
      && plainKey t
  end.

(** The character that a backslash and [e] denote in a string literal, for
    the single-character escapes. *)
Definition singleEscape (e : ascii) : option ascii :=
  match e with
  | "'" => Some "'"
  | "034" => Some "034"
  | "\" => Some "\"
  | "b" => Some "008"
  | "f" => Some "012"
  | "n" => Some "010"
  | "r" => Some "013"
  | "t" => Some "009"
  | "v" => Some "011"
  | _ => None
  end%char.

(** Reading a property name of [PluginUIStringKeys] back from the
    declaration, as the TypeScript string literal it is written as: the
    text after the opening apostrophe up to the closing one, with its
    single-character escapes decoded.  A line terminator ends the line
    before the literal is closed, and the other escapes are not decoded:
    for both the result is [None]. *)
Fixpoint readQuoted (s : string) : option (string * string) :=
  match s with
  | EmptyString => None
  | String c t =>
      if Ascii.eqb c "'" then Some ("", t)
      else if lineTerminatorAt s then None
      else if Ascii.eqb c "\" then
        match t with
        | String e t' =>
            match singleEscape e with
            | Some d => Literal.consChar d (readQuoted t')
            | None => None
            end
        | EmptyString => None
        end
      else Literal.consChar c (readQuoted t)
  end.

Definition readDeclaration (s : string) : option (string * string) :=
  s1 ← ModuleText.strip "'" s;
  '(key, s2) ← readQuoted s1;
  s3 ← ModuleText.strip ": string;" s2;
  Some (key, s3).

Fixpoint readDeclarations (fuel : nat) (s : string) : option (list string * string) :=
  match fuel with
  | O => None
  | S fuel' =>
      '(key, rest) ← readDeclaration s;
      match ModuleText.strip separator rest with
      | Some rest' =>
          '(keys, after) ← readDeclarations fuel' rest';
          Some (key :: keys, after)
      | None => Some ([key], rest)
      end
  end.

Definition readContent (text : string) : option (list string) :=
  s1 ← ModuleText.strip header text;
  '(keys, s2) ← readDeclarations (String.length s1) s1;
  if String.eqb s2 footer then Some keys else None.

End PluginTypes.

(** ** Reading the text of the other generated modules *)

Module SourceText.

(** [import "specifier";] *)
Definition readBareImport (s : string) : option (string * string) :=
  s1 ← ModuleText.strip "import " s;
  '(specifier, s2) ← Literal.readStringLiteral s1;
  s3 ← ModuleText.strip ";" s2;
  Some (specifier, s3).

(** A module that consists of such imports only. *)
Fixpoint readBareImports (fuel : nat) (s : string) : option (list string) :=
  match fuel with
  | O => None
  | S fuel' =>
      match s with
      | EmptyString => Some []
      | _ =>
          '(specifier, rest) ← readBareImport s;
          more ← readBareImports fuel' rest;
          Some (specifier :: more)
      end
  end.

Definition readImportsOnly (text : string) : option (list string) :=
  readBareImports (S (String.length text)) text.

(** [export { default } from "specifier";] *)
Definition readReexport (text : string) : option string :=
  s1 ← ModuleText.strip "export { default } from " text;
  '(specifier, s2) ← Literal.readStringLiteral s1;
  if String.eqb s2 ";" then Some specifier else None.

End SourceText.

(** ** More concrete inputs *)

Module MoreExamples.
Import Js.

(** A plugin whose second call makes [prerender] a string. *)
Definition broken : Plugins.Plugin string string :=
  Plugins.mkPlugin "broken"
    (fun _ =>
       Plugins.uncaught
         [ Plugins.AddIntegration "kept";
           Plugins.UpdateConfig Examples.invalid_update;
           Plugins.AddIntegration "unreached" ]).

(** A plugin that changes the title twice and the description once. *)
Definition retitle : Plugins.Plugin string string :=
  Plugins.mkPlugin "retitle"
    (fun _ =>
       Plugins.uncaught
         [ Plugins.UpdateConfig
             {[ "title" := VString "Draft"; "description" := VString "Notes" ]};
           Plugins.AddIntegration "mdx";
           Plugins.UpdateConfig {[ "title" := VString "Final" ]} ]).

(** A plugin that tries an invalid update inside [try { ... } catch { }],
    then makes a valid one. *)
Definition retrying : Plugins.Plugin string string :=
  Plugins.mkPlugin "retrying"
    (fun _ =>
       Plugins.Invoke (Plugins.UpdateConfig Examples.invalid_update)
         (fun _ => Plugins.uncaught [ Plugins.UpdateConfig {[ "title" := VString "Kept" ]} ])).

Definition user_config : gmap string Value :=
  {[ "title" := VString "Site"; "lang" := VString "en" ]}.

(** A project with the locale files [en.json] and [fr.json] and a file that
    is no locale file. *)
Definition locale_readdir (dir : string) : Completion (list string) :=
  if String.eqb dir "/site/src/content/i18n/"
  then Normal ["en.json"; "fr.json"; "notes.txt"]
  else Throw Examples.ENOENT.

Definition locale_readFile (file : string) : Completion string :=
  if String.eqb file "/site/src/content/i18n/en.json" then Normal "{}"
  else if String.eqb file "/site/src/content/i18n/fr.json" then Normal "null"
  else Throw Examples.ENOENT.

Definition small_json_parse (text : string) : Value + string :=
  if String.eqb text "{}" then inl (VObject [])
  else if String.eqb text "null" then inl VNull
  else inr "Unexpected token".

(** A project whose [content/i18n/] directory holds no locale file, on a
    file system where no file can be read. *)
Definition notes_readdir (dir : string) : Completion (list string) :=
  Normal ["notes.txt"; "README.md"].

Definition unreadable (file : string) : Completion string :=
  Throw (mkThrown true ErrorClass_Error "EACCES: permission denied" (Some "EACCES") None).

End MoreExamples.

(** * Properties *)

(** ** String literals: what [JSON.stringify] writes reads back *)

Module LiteralFacts.
Import Literal.

Lemma append_cons (x : ascii) (a b : string) :
  String x a +:+ b = String x (a +:+ b).
Proof. reflexivity. Qed.

Lemma append_assoc (a b c : string) : (a +:+ b) +:+ c = a +:+ (b +:+ c).
Proof.
  induction a as [|x a IH]; [reflexivity|].
  rewrite !append_cons. f_equal. exact IH.
Qed.

Lemma append_empty_r (s : string) : s +:+ "" = s.
Proof.
  induction s as [|x s IH]; [reflexivity|].
  rewrite append_cons. f_equal. exact IH.
Qed.

Lemma readBody_quoteChar (c : ascii) (rest : string) :
  readBody (quoteChar c +:+ rest) = consChar c (readBody rest).
Proof.
  destruct c as [[] [] [] [] [] [] [] []]; reflexivity.
Qed.

Lemma readBody_quoteBody (s rest : string) :
  readBody (quoteBody s +:+ String "034" rest) = Some (s, rest).
Proof.
  induction s as [|c s IH].
  - reflexivity.
  - change (quoteBody (String c s)) with (quoteChar c +:+ quoteBody s).
    rewrite append_assoc, readBody_quoteChar, IH. reflexivity.
Qed.

Lemma readStringLiteral_JSON_stringify (s rest : string) :
  readStringLiteral (JSON_stringify s +:+ rest) = Some (s, rest).
Proof.
  unfold JSON_stringify. rewrite append_cons.
  change (readBody ((quoteBody s +:+ String "034" "") +:+ rest) = Some (s, rest)).
  rewrite append_assoc. apply readBody_quoteBody.
Qed.

End LiteralFacts.

(** ** Path resolution and the user-images module *)

Module GeneratedSource.
Import Js Config VirtualModules LiteralFacts.

Section Registry.

Variable URL : Type.
Variable fileURLToPath : URL -> string.
Variable path_resolve : string -> string -> string.
Variable root : URL.

(** The module that a user-supplied path refers to: the path resolved
    against the base directory when it starts with a dot, the path itself
    otherwise. *)
Local Abbreviation referenced id base :=
  (if String.prefix "." id%string then path_resolve (fileURLToPath base) id%string else id%string).

Lemma resolveId_followed (id : string) (base : option URL) (rest : string) :
  Literal.readStringLiteral
    (resolveId URL fileURLToPath path_resolve root id base +:+ rest)
  = Some (referenced id (match base with Some b => b | None => root end), rest).
Proof. unfold resolveId. apply readStringLiteral_JSON_stringify. Qed.

(** C5: the reference that [resolveId] emits for a path [id] is a string
    literal.  It denotes the absolute path [resolve(fileURLToPath(base), id)]
    when [id] starts with ['.'], and [id] itself, unchanged, otherwise; the
    base directory is the project root unless the caller names another. *)
Theorem resolveId_emits_literal (id : string) (base : option URL) :
  let target :=
    if String.prefix "." id
    then path_resolve (fileURLToPath (match base with Some b => b | None => root end)) id
    else id in
  resolveId URL fileURLToPath path_resolve root id base = Literal.JSON_stringify target
  /\ Literal.readStringLiteral (resolveId URL fileURLToPath path_resolve root id base)
     = Some (target, "").
Proof.
  split; [reflexivity|].
  rewrite <- (append_empty_r (resolveId _ _ _ _ _ _)).
  apply resolveId_followed.
Qed.

Variable opts : VitesseConfig.

Lemma readImport_literal (x specifier rest : string) :
  ModuleText.readIdentifier (x +:+ " from " +:+ Literal.JSON_stringify specifier +:+ ";" +:+ rest)
  = (x, " from " +:+ Literal.JSON_stringify specifier +:+ ";" +:+ rest) ->
  ModuleText.readImport
    ("import " +:+ x +:+ " from " +:+ Literal.JSON_stringify specifier +:+ ";" +:+ rest)
  = Some ((x, specifier), rest).
Proof.
  intros Hx. unfold ModuleText.readImport.
  change (ModuleText.strip "import " ("import " +:+ ?s)) with (Some s).
  cbn [mbind option_bind]. rewrite Hx.
  change (ModuleText.strip " from " (" from " +:+ ?s)) with (Some s).
  cbn [mbind option_bind].
  rewrite readStringLiteral_JSON_stringify. cbn [mbind option_bind].
  reflexivity.
Qed.

Lemma readImports_step (fuel : nat) (s : string) (i : string * string) (rest : string) :
  ModuleText.readImport (ModuleText.skipSpaces s) = Some (i, rest) ->
  ModuleText.readImports (S fuel) s
  = (i :: (ModuleText.readImports fuel rest).1, (ModuleText.readImports fuel rest).2).
Proof.
  intros H. cbn [ModuleText.readImports]. rewrite H.
  destruct (ModuleText.readImports fuel rest); reflexivity.
Qed.

Lemma readImports_done (fuel : nat) (s : string) :
  ModuleText.readImport s = None -> ModuleText.skipSpaces s = s ->
  ModuleText.readImports fuel s = ([], s).
Proof.
  intros H Hs. destruct fuel; cbn [ModuleText.readImports]; [reflexivity|].
  rewrite Hs, H. reflexivity.
Qed.

Lemma readImports_export (fuel : nat) (properties : string) :
  ModuleText.readImports (S fuel) (" export const logos = {" +:+ properties)
  = ([], "export const logos = {" +:+ properties).
Proof. reflexivity. Qed.

Lemma readImport_identifier (x : string) (lit rest : string) :
  x = "src" \/ x = "dark" \/ x = "light" ->
  ModuleText.readIdentifier (x +:+ " from " +:+ lit +:+ ";" +:+ rest)
  = (x, " from " +:+ lit +:+ ";" +:+ rest).
Proof.
  intros [-> | [-> | ->]]; reflexivity.
Qed.

(** C6: the text of the user-images module has one of three shapes.  Without
    a logo it exports an empty [logos] object and imports nothing.  With the
    single-image form it imports the asset once, as [src], and binds both
    [dark] and [light] to that import.  With the pair form it has two
    imports, [dark] and [light], and exports [logos = { dark, light }] from
    them. *)
Theorem user_images_module_shapes :
  let text := userImagesModule URL fileURLToPath path_resolve opts root in
  match logo opts with
  | None =>
      text = "export const logos = {};"
      /\ ModuleText.readModule text = Some (ModuleText.mkImagesModule [] [])
  | Some (LogoSingle src) =>
      text = "import src from " +:+ Literal.JSON_stringify (referenced src root) +:+
             "; export const logos = { dark: src, light: src };"
      /\ ModuleText.readModule text
         = Some (ModuleText.mkImagesModule
                   [("src", referenced src root)]
                   [("dark", "src"); ("light", "src")])
  | Some (LogoPair dark light) =>
      text = "import dark from " +:+ Literal.JSON_stringify (referenced dark root) +:+
             "; import light from " +:+ Literal.JSON_stringify (referenced light root) +:+
             "; export const logos = { dark, light };"
      /\ ModuleText.readModule text
         = Some (ModuleText.mkImagesModule
                   [("dark", referenced dark root); ("light", referenced light root)]
                   [("dark", "dark"); ("light", "light")])
  end.
Proof.
  unfold userImagesModule.
  destruct (logo opts) as [[src | dark light] |]; cbv zeta.
  - split; [reflexivity|].
    unfold ModuleText.readModule, resolveId.
    set (lit := Literal.JSON_stringify _).
    assert (Hlen : exists n, String.length
              ("import src from " +:+ lit +:+
               "; export const logos = { dark: src, light: src };") = S (S n))
      by (cbn; eauto).
    destruct Hlen as [n ->].
    erewrite readImports_step.
    2:{ change ("import src from " +:+ lit +:+ ?t)
          with ("import " +:+ "src" +:+ " from " +:+ lit +:+ ";" +:+
                " export const logos = { dark: src, light: src };").
        change (ModuleText.skipSpaces ("import " +:+ ?s)) with ("import " +:+ s).
        apply readImport_literal, readImport_identifier. auto. }
    change " export const logos = { dark: src, light: src };"
      with (" export const logos = {" +:+ " dark: src, light: src };").
    rewrite readImports_export. reflexivity.
  - split; [reflexivity|].
    unfold ModuleText.readModule, resolveId.
    set (lit1 := Literal.JSON_stringify _).
    set (lit2 := Literal.JSON_stringify _).
    assert (Hlen : exists n, String.length
              ("import dark from " +:+ lit1 +:+ "; import light from " +:+ lit2 +:+
               "; export const logos = { dark, light };") = S (S (S n)))
      by (cbn; eauto).
    destruct Hlen as [n ->].
    erewrite readImports_step.
    2:{ change ("import dark from " +:+ lit1 +:+ ?t)
          with ("import " +:+ "dark" +:+ " from " +:+ lit1 +:+ ";" +:+
                " import light from " +:+ lit2 +:+
                "; export const logos = { dark, light };").
        change (ModuleText.skipSpaces ("import " +:+ ?s)) with ("import " +:+ s).
        apply readImport_literal, readImport_identifier. auto. }
    erewrite readImports_step.
    2:{ change (ModuleText.skipSpaces (" import light from " +:+ lit2 +:+ ?t))
          with ("import " +:+ "light" +:+ " from " +:+ lit2 +:+ ";" +:+
                " export const logos = { dark, light };").
        apply readImport_literal, readImport_identifier. auto. }
    change " export const logos = { dark, light };"
      with (" export const logos = {" +:+ " dark, light };").
    rewrite readImports_export. reflexivity.
  - split; reflexivity.
Qed.

End Registry.

(** A relative style sheet is imported by its absolute path under the
    project root, a package style sheet by its name as given. *)
Example site_user_css :
  Examples.site_modules !! "virtual:vitesse/user-css"
  = Some ("import " +:+ Literal.JSON_stringify "/proj/src/styles/a.css" +:+
          ";import " +:+ Literal.JSON_stringify "my-pkg/style.css" +:+ ";").
Proof. vm_compute. reflexivity. Qed.

(** The collection configuration is resolved against [srcDir]. *)
Example site_collection_config_path :
  resolveId string Examples.file_url_to_path Examples.posix_resolve "file:///proj/"
    "./content/config.ts" (Some "file:///proj/src/")
  = Literal.JSON_stringify "/proj/src/content/config.ts".
Proof. vm_compute. reflexivity. Qed.

End GeneratedSource.

(** ** The translation loader *)

Module TranslationLoaderFacts.
Import Js TranslationLoader.

Lemma mapM_app_throw {A B} (f : A -> Completion B) (before after : list A)
    (x : A) (done : list B) (e : Thrown) :
  mapM f before = Normal done -> f x = Throw e ->
  mapM f (before ++ x :: after) = Throw e.
Proof.
  revert done. induction before as [|y before IH]; intros done Hdone Hx; simpl.
  - rewrite Hx. reflexivity.
  - simpl in Hdone. destruct (f y) as [b|e']; simpl in *; [|discriminate].
    destruct (mapM f before) as [bs|e'] eqn:Hbs; simpl in *; [|discriminate].
    rewrite (IH bs eq_refl Hx). reflexivity.
Qed.

Lemma is_ENOENT_SyntaxError (msg : string) : is_ENOENT (SyntaxError msg) = false.
Proof. reflexivity. Qed.

Section WithFileSystem.

Variable URL : Type.
Variable URL_new : string -> URL -> URL.
Variable readdirSync : URL -> Completion (list string).
Variable readFileSync : URL -> Completion string.
Variable JSON_parse : string -> Value + string.
Variables Opts PluginTable I18nFactory : Type.
Variable createTranslationSystem :
  Opts -> gmap string Value -> PluginTable -> I18nFactory.

Local Abbreviation tryBlock' := (tryBlock URL URL_new readdirSync readFileSync JSON_parse).
Local Abbreviation userTranslations' :=
  (userTranslations URL URL_new readdirSync readFileSync JSON_parse).
Local Abbreviation load' :=
  (createTranslationSystemFromFs URL URL_new readdirSync readFileSync JSON_parse
     Opts PluginTable I18nFactory createTranslationSystem).
Local Abbreviation loadEntry' := (loadEntry URL URL_new readFileSync JSON_parse).

(** X25: when listing [content/i18n/] fails with the code [ENOENT], the
    loader returns the system built from the empty on-disk table. *)
Lemma missing_directory_gives_empty_table (opts : Opts) (srcDir : URL)
    (pluginTranslations : PluginTable) (e : Thrown) :
  readdirSync (URL_new "content/i18n/" srcDir) = Throw e ->
  is_ENOENT e = true ->
  load' opts srcDir pluginTranslations
  = Normal (createTranslationSystem opts ∅ pluginTranslations).
Proof.
  intros Hdir He. unfold createTranslationSystemFromFs, userTranslations, tryBlock.
  rewrite Hdir. simpl. rewrite He. reflexivity.
Qed.

(** What the [try] block throws without the code [ENOENT] reaches the
    caller as it is. *)
Lemma other_errors_propagate (opts : Opts) (srcDir : URL)
    (pluginTranslations : PluginTable) (e : Thrown) :
  tryBlock' srcDir = Throw e ->
  is_ENOENT e = false ->
  load' opts srcDir pluginTranslations = Throw e.
Proof.
  intros Htry He. unfold createTranslationSystemFromFs, userTranslations.
  rewrite Htry, He. reflexivity.
Qed.

(** X29: when the locale files before it were loaded and a locale file
    holds malformed JSON, the loader throws the [SyntaxError] of
    [JSON.parse], whatever files follow in the listing. *)
Lemma malformed_json_propagates (opts : Opts) (srcDir : URL)
    (pluginTranslations : PluginTable)
    (files before after : list string) (file text msg : string)
    (done : list (string * Value)) :
  let i18nDir := URL_new "content/i18n/" srcDir in
  readdirSync i18nDir = Normal files ->
  filter (fun f => endsWith ".json" f = true) files = before ++ file :: after ->
  mapM (loadEntry' i18nDir) before = Normal done ->
  readFileSync (URL_new file i18nDir) = Normal text ->
  JSON_parse text = inr msg ->
  load' opts srcDir pluginTranslations = Throw (SyntaxError msg).
Proof.
  intros i18nDir Hdir Hfiles Hdone Hread Hparse.
  apply other_errors_propagate; [|reflexivity].
  unfold tryBlock. fold i18nDir. rewrite Hdir. simpl. rewrite Hfiles.
  erewrite mapM_app_throw; [reflexivity | exact Hdone |].
  unfold loadEntry, parse_json. rewrite Hread. simpl. rewrite Hparse. reflexivity.
Qed.

(** C10: the loader never produces a partial on-disk table.  An [ENOENT]
    error is absorbed whether it comes from listing the directory or from
    reading one of the locale files; in each case the entries parsed so far
    are dropped and the on-disk table is empty.  A table that is not the
    initial empty one holds an entry for every locale file listed. *)
Theorem enoent_leaves_no_partial_table (opts : Opts) (srcDir : URL)
    (pluginTranslations : PluginTable) :
  let i18nDir := URL_new "content/i18n/" srcDir in
  (forall e : Thrown,
     is_ENOENT e = true ->
     (readdirSync i18nDir = Throw e
      \/ exists files before file after done,
           readdirSync i18nDir = Normal files
           /\ filter (fun f => endsWith ".json" f = true) files = before ++ file :: after
           /\ mapM (loadEntry' i18nDir) before = Normal done
           /\ readFileSync (URL_new file i18nDir) = Throw e) ->
     userTranslations' srcDir = Normal ∅
     /\ load' opts srcDir pluginTranslations
        = Normal (createTranslationSystem opts ∅ pluginTranslations))
  /\ (forall table : gmap string Value,
        userTranslations' srcDir = Normal table ->
        table = ∅
        \/ exists files entries,
             readdirSync i18nDir = Normal files
             /\ mapM (loadEntry' i18nDir)
                  (filter (fun f => endsWith ".json" f = true) files) = Normal entries
             /\ table = fromEntries entries).
Proof.
  intros i18nDir. split.
  - intros e He Hsource.
    assert (Htry : tryBlock' srcDir = Throw e).
    { unfold tryBlock. fold i18nDir.
      destruct Hsource as [Hdir | (files & before & file & after & done & Hdir & Hfiles & Hdone & Hread)].
      - rewrite Hdir. reflexivity.
      - rewrite Hdir. simpl. rewrite Hfiles.
        erewrite mapM_app_throw; [reflexivity | exact Hdone |].
        unfold loadEntry. rewrite Hread. reflexivity. }
    unfold createTranslationSystemFromFs, userTranslations.
    rewrite Htry, He. split; reflexivity.
  - intros table. unfold userTranslations, tryBlock. fold i18nDir.
    destruct (readdirSync i18nDir) as [files|e] eqn:Hdir; simpl.
    + destruct (mapM _ _) as [entries|e] eqn:Hentries; simpl.
      * intros [= <-]. right. exists files, entries. auto.
      * destruct (is_ENOENT e); intros [= <-]. now left.
    + destruct (is_ENOENT e); intros [= <-]. now left.
Qed.

End WithFileSystem.

(** The entries parsed before a locale file turns out to be missing are
    dropped. *)
Lemma enoent_leaves_no_partial_table_witness :
  is_ENOENT Examples.ENOENT = true
  /\ mapM (loadEntry string Examples.url_new Examples.dangling_readFile Examples.json_parse
             "/site/src/content/i18n/") ["en.json"]
     = Normal [("en", VObject [])]
  /\ Examples.dangling_readFile "/site/src/content/i18n/fr.json" = Throw Examples.ENOENT
  /\ userTranslations string Examples.url_new Examples.dangling_readdir
       Examples.dangling_readFile Examples.json_parse "/site/src/"
     = Normal ∅.
Proof.
  split; [reflexivity|]. split; [reflexivity|]. split; [reflexivity|].
  apply (proj1 (enoent_leaves_no_partial_table string Examples.url_new
                  Examples.dangling_readdir Examples.dangling_readFile Examples.json_parse
                  unit unit (gmap string Value) Examples.table_only tt "/site/src/" tt)
           Examples.ENOENT eq_refl).
  right. exists ["en.json"; "fr.json"; "notes.txt"], ["en.json"], "fr.json", [], [("en", VObject [])].
  repeat split; reflexivity.
Defined.

(** C7: with [content/i18n/] present and one locale file missing, the call
    returns the system built from the empty table; the error of the failed
    read does not reach the caller. *)
Theorem missing_locale_file_is_absorbed :
  Examples.dangling_readdir "/site/src/content/i18n/" = Normal ["en.json"; "fr.json"; "notes.txt"]
  /\ Examples.dangling_readFile "/site/src/content/i18n/fr.json" = Throw Examples.ENOENT
  /\ createTranslationSystemFromFs string Examples.url_new Examples.dangling_readdir
       Examples.dangling_readFile Examples.json_parse unit unit (gmap string Value)
       Examples.table_only tt "/site/src/" tt
     = Normal ∅.
Proof. repeat split; reflexivity. Qed.

End TranslationLoaderFacts.

(** ** Navigation items *)

Module NavBarFacts.
Import Js Zod NavBar.

(** C8: a bare string [s] is accepted as a navigation item exactly when the
    object [{ slug: s }] is accepted as an internal link item, and both give
    the same item: slug [s], no label, [translations] and [attrs] at their
    default, the empty record. *)
Theorem shorthand_is_internal_link (s : string) :
  let item :=
    VObject [("translations", VObject []); ("slug", VString s); ("attrs", VObject [])] in
  (forall out : Value,
     NavBarItemSchema (VString s) = Valid out
     <-> run InternalNavBarLinkItemSchema (VObject [("slug", VString s)]) = Valid out)
  /\ NavBarItemSchema (VString s) = Valid item
  /\ run InternalNavBarLinkItemSchema (VObject [("slug", VString s)]) = Valid item
  /\ lookup_prop "label" [("translations", VObject []); ("slug", VString s); ("attrs", VObject [])]
     = None.
Proof.
  assert (Hshort : NavBarItemSchema (VString s)
                   = Valid (VObject [("translations", VObject []); ("slug", VString s);
                                     ("attrs", VObject [])])) by reflexivity.
  assert (Hlong : run InternalNavBarLinkItemSchema (VObject [("slug", VString s)])
                  = Valid (VObject [("translations", VObject []); ("slug", VString s);
                                    ("attrs", VObject [])])) by reflexivity.
  cbv zeta. repeat split; try assumption; try reflexivity.
  - rewrite Hshort, Hlong. trivial.
  - rewrite Hshort, Hlong. trivial.
Qed.

(** An object with a slug and an explicit label keeps the label. *)
Example internal_link_with_label :
  NavBarItemSchema (VObject [("slug", VString "guides/intro"); ("label", VString "Intro")])
  = Valid (VObject [("label", VString "Intro"); ("translations", VObject []);
                    ("slug", VString "guides/intro"); ("attrs", VObject [])]).
Proof. reflexivity. Qed.

(** An external link item admits no key outside its shape. *)
Example external_link_is_strict :
  run NavBarLinkItemSchema
    (VObject [("label", VString "Docs"); ("link", VString "https://x.dev"); ("extra", VNull)])
  = Invalid.
Proof. reflexivity. Qed.

End NavBarFacts.

(** ** The plugin runtime *)

Module PluginsFacts.
Import Js Config Plugins.

Section Runtime.

Variable VitesseConfigSchema : UserConfig -> VitesseConfig + string.
Variable AstroIntegration : Type.
Variable Logger : Type.
Variable fork : Logger -> string -> Logger.
Variable readOnlyMessage : string -> string -> string.

Implicit Types (s : RunState AstroIntegration) (p : Plugin AstroIntegration Logger).
Implicit Types (t : Setup AstroIntegration).
Implicit Types (context : VitessePluginContext AstroIntegration Logger).

Local Abbreviation updateConfig' := (updateConfig VitesseConfigSchema).
Local Abbreviation perform' := (perform VitesseConfigSchema readOnlyMessage).
Local Abbreviation execute' := (execute VitesseConfigSchema readOnlyMessage).
Local Abbreviation advance' := (advance VitesseConfigSchema readOnlyMessage).
Local Abbreviation forEachPlugin' := (forEachPlugin VitesseConfigSchema fork readOnlyMessage).
Local Abbreviation runPlugins' := (runPlugins VitesseConfigSchema fork readOnlyMessage).

Local Abbreviation pluginsKeyMessage name :=
  ("The '" +:+ name +:+
   "' plugin tried to update the 'plugins' config key which is not supported.").

Lemma updateConfig_plugins_key (name : string) (newConfig : UserConfig) s :
  is_Some (newConfig !! "plugins") ->
  updateConfig' name newConfig s = (Throw (Error (pluginsKeyMessage name)), s).
Proof.
  intros Hkey. unfold updateConfig, has_property.
  rewrite bool_decide_eq_true_2 by exact Hkey. reflexivity.
Qed.

(** The key [plugins] passes through the argument check of the wrapped
    callback. *)
Lemma z_record_any_plugins (newConfig : UserConfig) :
  z_record_any newConfig !! "plugins" = newConfig !! "plugins".
Proof. unfold z_record_any. apply lookup_delete_ne. discriminate. Qed.

(** A setup ends as what is left of it after some of its calls ends. *)
Lemma execute_advance (name : string) (n : nat) t s t' s' :
  advance' name n t s = (t', s') ->
  execute' name t s = execute' name t' s'.
Proof.
  revert t s. induction n as [|n IH]; intros t s Hadvance.
  - destruct t; injection Hadvance as <- <-; reflexivity.
  - destruct t as [|e|c andThen]; try (injection Hadvance as <- <-; reflexivity).
    cbn [advance execute] in *.
    destruct (perform' name c s) as [completion s0]. apply IH, Hadvance.
Qed.

Lemma forEachPlugin_reaches (pluginsUserConfig : option (list (Plugin AstroIntegration Logger)))
    context (before after : list (Plugin AstroIntegration Logger)) p s s' :
  forEachPlugin' pluginsUserConfig context before s = (Normal tt, s') ->
  forEachPlugin' pluginsUserConfig context (before ++ p :: after) s
  = seq (runSetup VitesseConfigSchema fork readOnlyMessage pluginsUserConfig context p)
        (fun _ => forEachPlugin' pluginsUserConfig context after) s'.
Proof.
  revert s. induction before as [|p0 before IH]; intros s Hbefore; simpl in *.
  - unfold ret in Hbefore. injection Hbefore as <-. reflexivity.
  - unfold seq in *. destruct (runSetup _ _ _ _ _ p0 s) as [[[]|e] s0]; [|discriminate].
    apply IH, Hbefore.
Qed.

Lemma runPlugins_validated
    (vitesseUserConfig : UserConfig)
    (pluginsUserConfig : option (list (Plugin AstroIntegration Logger))) context
    (validated : VitesseConfig) :
  VitesseConfigSchema vitesseUserConfig = inl validated ->
  runPlugins' vitesseUserConfig pluginsUserConfig context
  = match forEachPlugin' pluginsUserConfig context (parsedPlugins pluginsUserConfig)
            (initialState vitesseUserConfig validated) with
    | (Throw e, _) => Throw e
    | (Normal _, s) =>
        if String.eqb (output (config context)) "static" && negb (prerender (vitesseConfig s))
        then Throw prerenderConflict
        else Normal (mkRunResult (integrations s) (vitesseConfig s) (pluginTranslations s))
    end.
Proof.
  intros Hvalid. unfold runPlugins, parseWithFriendlyErrors, vitessePluginsConfigSchema.
  rewrite Hvalid. reflexivity.
Qed.

(** A setup that throws ends the loop in the state it threw in. *)
Lemma forEachPlugin_setup_throws
    (pluginsUserConfig : option (list (Plugin AstroIntegration Logger)))
    context (before after : list (Plugin AstroIntegration Logger)) p s s1 s2 (e : Thrown) :
  forEachPlugin' pluginsUserConfig context before s = (Normal tt, s1) ->
  execute' (name p) (setup p (setupArgs fork pluginsUserConfig context (name p) s1)) s1
  = (Throw e, s2) ->
  forEachPlugin' pluginsUserConfig context (before ++ p :: after) s = (Throw e, s2).
Proof.
  intros Hbefore Hsetup. rewrite (forEachPlugin_reaches _ _ _ _ _ _ _ Hbefore).
  unfold seq, runSetup. rewrite Hsetup. reflexivity.
Qed.

(** C1: when the setup of a plugin calls [updateConfig] with an object that
    has the key [plugins], the call throws at once an error whose message
    names that plugin, and it changes nothing.  When the setup does not
    catch that error, the run ends there with it: the loop stops in the
    state it had before the call, so neither the rest of that setup nor a
    later plugin runs, and [runPlugins] returns nothing. *)
Theorem plugins_key_update_aborts_unless_caught
    (vitesseUserConfig : UserConfig)
    (pluginsUserConfig : option (list (Plugin AstroIntegration Logger))) context
    (validated : VitesseConfig)
    (before after : list (Plugin AstroIntegration Logger)) p
    (n : nat) (newConfig : UserConfig) (andThen : Completion unit -> Setup AstroIntegration)
    s1 s2 :
  VitesseConfigSchema vitesseUserConfig = inl validated ->
  parsedPlugins pluginsUserConfig = before ++ p :: after ->
  forEachPlugin' pluginsUserConfig context before (initialState vitesseUserConfig validated)
  = (Normal tt, s1) ->
  advance' (name p) n (setup p (setupArgs fork pluginsUserConfig context (name p) s1)) s1
  = (Invoke (UpdateConfig newConfig) andThen, s2) ->
  is_Some (newConfig !! "plugins") ->
  updateConfig' (name p) newConfig s2 = (Throw (Error (pluginsKeyMessage (name p))), s2)
  /\ (andThen (Throw (Error (pluginsKeyMessage (name p))))
      = Raise (Error (pluginsKeyMessage (name p))) ->
      runPlugins' vitesseUserConfig pluginsUserConfig context
      = Throw (Error (pluginsKeyMessage (name p)))
      /\ (forall result, runPlugins' vitesseUserConfig pluginsUserConfig context <> Normal result)
      /\ forEachPlugin' pluginsUserConfig context (before ++ p :: after)
           (initialState vitesseUserConfig validated)
         = (Throw (Error (pluginsKeyMessage (name p))), s2)).
Proof.
  intros Hvalid Hlist Hbefore Hadvance Hkey.
  pose proof (updateConfig_plugins_key (name p) newConfig s2 Hkey) as Hcall.
  split; [exact Hcall|]. intros Huncaught.
  assert (Hloop : forEachPlugin' pluginsUserConfig context (before ++ p :: after)
                    (initialState vitesseUserConfig validated)
                  = (Throw (Error (pluginsKeyMessage (name p))), s2)).
  { apply (forEachPlugin_setup_throws _ _ _ _ _ _ _ _ _ Hbefore).
    rewrite (execute_advance _ _ _ _ _ _ Hadvance).
    cbn [execute perform]. rewrite Hcall, Huncaught. reflexivity. }
  assert (Hrun : runPlugins' vitesseUserConfig pluginsUserConfig context
                 = Throw (Error (pluginsKeyMessage (name p)))).
  { rewrite (runPlugins_validated _ _ _ _ Hvalid), Hlist, Hloop. reflexivity. }
  split; [exact Hrun|]. split; [|exact Hloop].
  intros result. rewrite Hrun. discriminate.
Qed.

(** C2: once every setup has completed, [runPlugins] throws the
    configuration-conflict error exactly when the host's output mode is
    ["static"] and the [prerender] flag of the final validated configuration
    is false; otherwise it returns the accumulated result. *)
Theorem prerender_conflict_exactly
    (vitesseUserConfig : UserConfig)
    (pluginsUserConfig : option (list (Plugin AstroIntegration Logger))) context
    (validated : VitesseConfig) s :
  VitesseConfigSchema vitesseUserConfig = inl validated ->
  forEachPlugin' pluginsUserConfig context (parsedPlugins pluginsUserConfig)
    (initialState vitesseUserConfig validated)
  = (Normal tt, s) ->
  (runPlugins' vitesseUserConfig pluginsUserConfig context = Throw prerenderConflict
   <-> output (config context) = "static" /\ prerender (vitesseConfig s) = false)
  /\ (~ (output (config context) = "static" /\ prerender (vitesseConfig s) = false) ->
      runPlugins' vitesseUserConfig pluginsUserConfig context
      = Normal (mkRunResult (integrations s) (vitesseConfig s) (pluginTranslations s))).
Proof.
  intros Hvalid Hloop.
  assert (Hrun : runPlugins' vitesseUserConfig pluginsUserConfig context
                 = if String.eqb (output (config context)) "static"
                      && negb (prerender (vitesseConfig s))
                   then Throw prerenderConflict
                   else Normal (mkRunResult (integrations s) (vitesseConfig s)
                                  (pluginTranslations s))).
  { rewrite (runPlugins_validated _ _ _ _ Hvalid), Hloop. reflexivity. }
  rewrite Hrun.
  destruct (String.eqb_spec (output (config context)) "static") as [Hout|Hout];
    destruct (prerender (vitesseConfig s)); cbn [andb negb].
  - split; [split; [discriminate | intros [_ [=]]] | reflexivity].
  - split; [split; auto | intros H; destruct H; auto].
  - split; [split; [discriminate | intros [? _]; contradiction] | reflexivity].
  - split; [split; [discriminate | intros [? _]; contradiction] | reflexivity].
Qed.

(** When a setup throws, the conflict check is not reached: the error of the
    setup is the error of the run. *)
Lemma setup_error_is_run_error
    (vitesseUserConfig : UserConfig)
    (pluginsUserConfig : option (list (Plugin AstroIntegration Logger))) context
    (validated : VitesseConfig) (e : Thrown) s :
  VitesseConfigSchema vitesseUserConfig = inl validated ->
  forEachPlugin' pluginsUserConfig context (parsedPlugins pluginsUserConfig)
    (initialState vitesseUserConfig validated)
  = (Throw e, s) ->
  runPlugins' vitesseUserConfig pluginsUserConfig context = Throw e.
Proof.
  intros Hvalid Hloop.
  rewrite (runPlugins_validated _ _ _ _ Hvalid), Hloop. reflexivity.
Qed.

(** C9: an update whose merged configuration fails validation throws before
    anything is assigned: [userConfig] and [vitesseConfig] keep the values
    they had before the call.  The merged configuration and its validated
    form are installed, together, only when validation succeeds. *)
Theorem updateConfig_is_atomic (name : string) (newConfig : UserConfig) s :
  has_property "plugins" newConfig = false ->
  (forall issues : string,
     VitesseConfigSchema (newConfig ∪ userConfig s) = inr issues ->
     updateConfig' name newConfig s
     = (Throw (AstroError ("Invalid config update provided by the '" +:+ name +:+ "' plugin")
                 (Some issues)),
        s))
  /\ (forall mergedConfig : VitesseConfig,
        VitesseConfigSchema (newConfig ∪ userConfig s) = inl mergedConfig ->
        updateConfig' name newConfig s
        = (Normal tt,
           mkRunState (newConfig ∪ userConfig s) mergedConfig
             (integrations s) (pluginTranslations s))).
Proof.
  intros Hkey. unfold updateConfig. rewrite Hkey.
  unfold parseWithFriendlyErrors.
  split; intros x Hx; rewrite Hx; reflexivity.
Qed.

End Runtime.

(** The run of [sitemap], [rogue] and [ssr] ends at the second call of
    [rogue], which does not catch the error. *)
Lemma plugins_key_update_aborts_unless_caught_witness :
  Examples.prerender_schema ∅ = inl (mkVitesseConfig true [] None [])
  /\ is_Some (({[ "plugins" := VArray [] ]} : gmap string Value) !! "plugins")
  /\ runPlugins Examples.prerender_schema Examples.fork Examples.engine_message ∅
       (Some [Examples.sitemap; Examples.rogue; Examples.ssr]) Examples.static_build
     = Throw (Error
         "The 'rogue' plugin tried to update the 'plugins' config key which is not supported.").
Proof.
  pose (plugins := Some [Examples.sitemap; Examples.rogue; Examples.ssr]).
  pose (s1 := (forEachPlugin Examples.prerender_schema Examples.fork Examples.engine_message
                 plugins Examples.static_build [vitessePluginSchema Examples.sitemap]
                 (initialState ∅ (mkVitesseConfig true [] None []))).2).
  pose (s2 := (perform Examples.prerender_schema Examples.engine_message "rogue"
                 (AddIntegration "rogue-integration") s1).2).
  pose (andThen := fun completion : Completion unit =>
                     wrapped match completion with
                             | Normal _ => uncaught [AddIntegration "unreached"]
                             | Throw e => Raise e
                             end).
  assert (Hvalid : Examples.prerender_schema ∅ = inl (mkVitesseConfig true [] None []))
    by reflexivity.
  assert (Hbefore : forEachPlugin Examples.prerender_schema Examples.fork
                      Examples.engine_message plugins Examples.static_build
                      [vitessePluginSchema Examples.sitemap]
                      (initialState ∅ (mkVitesseConfig true [] None []))
                    = (Normal tt, s1))
    by (vm_compute; reflexivity).
  assert (Hadvance : advance Examples.prerender_schema Examples.engine_message "rogue" 1
                       (setup (vitessePluginSchema Examples.rogue)
                          (setupArgs Examples.fork plugins Examples.static_build "rogue" s1))
                       s1
                     = (Invoke (UpdateConfig {[ "plugins" := VArray [] ]}) andThen, s2))
    by reflexivity.
  assert (Hkey : is_Some (({[ "plugins" := VArray [] ]} : gmap string Value) !! "plugins"))
    by (exists (VArray []); reflexivity).
  split; [exact Hvalid|]. split; [exact Hkey|].
  apply (proj1 (proj2 (plugins_key_update_aborts_unless_caught Examples.prerender_schema
                         string string Examples.fork Examples.engine_message ∅ plugins
                         Examples.static_build (mkVitesseConfig true [] None [])
                         [vitessePluginSchema Examples.sitemap]
                         [vitessePluginSchema Examples.ssr]
                         (vitessePluginSchema Examples.rogue) 1
                         {[ "plugins" := VArray [] ]} andThen s1 s2
                         Hvalid eq_refl Hbefore Hadvance Hkey) eq_refl)).
Defined.

(** C1, as it is stated, fails: the setup of [cautious] calls [updateConfig]
    with an object that has the key [plugins] and catches the error; the
    call throws, the setup goes on, and the run returns its result. *)
Lemma caught_plugins_key_update_does_not_abort :
  callsOf Examples.prerender_schema Examples.engine_message "cautious"
    (setup (vitessePluginSchema Examples.cautious)
       (setupArgs Examples.fork (Some [Examples.cautious]) Examples.server_build "cautious"
          (initialState ∅ (mkVitesseConfig true [] None []))))
    (initialState ∅ (mkVitesseConfig true [] None []))
  = [ (UpdateConfig {[ "plugins" := VArray [] ]},
       Throw (Error
         "The 'cautious' plugin tried to update the 'plugins' config key which is not supported."));
      (AddIntegration "after", Normal tt) ]
  /\ runPlugins Examples.prerender_schema Examples.fork Examples.engine_message ∅
       (Some [Examples.cautious]) Examples.server_build
     = Normal (mkRunResult ["after"] (mkVitesseConfig true [] None []) ∅).
Proof. split; vm_compute; reflexivity. Qed.

(** With the output mode ["static"], the update of [ssr] makes the run end
    in the conflict error. *)
Lemma prerender_conflict_exactly_witness :
  Examples.prerender_schema ∅ = inl (mkVitesseConfig true [] None [])
  /\ forEachPlugin Examples.prerender_schema Examples.fork Examples.engine_message
       (Some [Examples.sitemap; Examples.ssr]) Examples.static_build
       (parsedPlugins (Some [Examples.sitemap; Examples.ssr]))
       (initialState ∅ (mkVitesseConfig true [] None []))
     = (Normal tt,
        mkRunState {[ "prerender" := VBool false ]} (mkVitesseConfig false [] None [])
          ["sitemap"] {[ "en" := {[ "sitemap.title" := "Sitemap" ]} ]})
  /\ runPlugins Examples.prerender_schema Examples.fork Examples.engine_message ∅
       (Some [Examples.sitemap; Examples.ssr]) Examples.static_build
     = Throw prerenderConflict.
Proof.
  assert (Hloop : forEachPlugin Examples.prerender_schema Examples.fork Examples.engine_message
       (Some [Examples.sitemap; Examples.ssr]) Examples.static_build
       (parsedPlugins (Some [Examples.sitemap; Examples.ssr]))
       (initialState ∅ (mkVitesseConfig true [] None []))
     = (Normal tt,
        mkRunState {[ "prerender" := VBool false ]} (mkVitesseConfig false [] None [])
          ["sitemap"] {[ "en" := {[ "sitemap.title" := "Sitemap" ]} ]}))
    by (vm_compute; reflexivity).
  assert (Hvalid : Examples.prerender_schema ∅ = inl (mkVitesseConfig true [] None []))
    by reflexivity.
  split; [exact Hvalid|]. split; [exact Hloop|].
  apply (proj2 (proj1 (prerender_conflict_exactly Examples.prerender_schema string string
                         Examples.fork Examples.engine_message ∅
                         (Some [Examples.sitemap; Examples.ssr])
                         Examples.static_build (mkVitesseConfig true [] None []) _
                         Hvalid Hloop))).
  split; reflexivity.
Defined.

(** The same plugins under the output mode ["server"] return normally. *)
Example prerender_false_on_server :
  runPlugins Examples.prerender_schema Examples.fork Examples.engine_message ∅
    (Some [Examples.sitemap; Examples.ssr]) Examples.server_build
  = Normal (mkRunResult ["sitemap"] (mkVitesseConfig false [] None [])
              {[ "en" := {[ "sitemap.title" := "Sitemap" ]} ]}).
Proof. vm_compute. reflexivity. Qed.

(** An update that makes [prerender] a string is rejected and changes
    nothing. *)
Lemma updateConfig_is_atomic_witness :
  has_property "plugins" Examples.invalid_update = false
  /\ Examples.prerender_schema
       (Examples.invalid_update
        ∪ userConfig (initialState (AstroIntegration := string) ∅
                        (mkVitesseConfig true [] None [])))
     = inr "prerender: Expected boolean"
  /\ updateConfig Examples.prerender_schema "broken" Examples.invalid_update
       (initialState (AstroIntegration := string) ∅ (mkVitesseConfig true [] None []))
     = (Throw (AstroError "Invalid config update provided by the 'broken' plugin"
                 (Some "prerender: Expected boolean")),
        initialState ∅ (mkVitesseConfig true [] None [])).
Proof.
  assert (Hkey : has_property "plugins" Examples.invalid_update = false) by reflexivity.
  assert (Hinvalid : Examples.prerender_schema
                       (Examples.invalid_update
                        ∪ userConfig (initialState (AstroIntegration := string) ∅
                                        (mkVitesseConfig true [] None [])))
                     = inr "prerender: Expected boolean")
    by (vm_compute; reflexivity).
  split; [exact Hkey|]. split; [exact Hinvalid|].
  apply (proj1 (updateConfig_is_atomic Examples.prerender_schema string "broken"
                  Examples.invalid_update (initialState ∅ (mkVitesseConfig true [] None []))
                  Hkey) _ Hinvalid).
Defined.

End PluginsFacts.

(** ** Injected translations *)

Module TranslationFacts.
Import Js Config Plugins PluginCalls.

(** *** [Object.assign] on an entry *)

Lemma given_cons {V} (key : string) (kv : string * V) (l : list (string * V)) :
  given key (kv :: l)
  = match given key l with
    | Some v => Some v
    | None => if String.eqb kv.1 key then Some kv.2 else None
    end.
Proof.
  unfold given. cbn [omap list_omap].
  destruct (String.eqb kv.1 key).
  - rewrite last_cons. reflexivity.
  - destruct (last _); reflexivity.
Qed.

Lemma given_app {V} (key : string) (l1 l2 : list (string * V)) :
  given key (l1 ++ l2)
  = match given key l2 with Some v => Some v | None => given key l1 end.
Proof. unfold given. rewrite omap_app. apply last_app. Qed.

Lemma assignProperty_proto (target : gmap string string) (kv : string * string) :
  is_Some (assignProperty target kv !! "__proto__") <-> is_Some (target !! "__proto__").
Proof.
  unfold assignProperty.
  destruct (String.eqb_spec kv.1 "__proto__") as [Hk|Hk]; cbn [andb].
  - case_bool_decide as Hown; cbn [negb]; [|reflexivity].
    rewrite Hk, lookup_insert_eq. split; [intros _; exact Hown | eauto].
  - rewrite lookup_insert_ne by exact Hk. reflexivity.
Qed.


Lemma Object_assign_app (target : gmap string string) (s1 s2 : LocaleTranslations) :
  Object_assign (Object_assign target s1) s2 = Object_assign target (s1 ++ s2).
Proof. unfold Object_assign. symmetry. apply foldl_app. Qed.

(** A property of the result: the last value that the source gives for the
    key, or else the value the target had.  The key [__proto__] is never
    created. *)
Lemma Object_assign_lookup (target : gmap string string) (source : LocaleTranslations)
    (key : string) :
  Object_assign target source !! key
  = if String.eqb key "__proto__" && negb (bool_decide (is_Some (target !! "__proto__")))
    then None
    else match given key source with Some v => Some v | None => target !! key end.
Proof.
  revert target. induction source as [|kv source IH]; intros target.
  - cbn. destruct (String.eqb_spec key "__proto__") as [->|Hk]; cbn [andb]; [|reflexivity].
    case_bool_decide as Hown; cbn [negb]; [reflexivity|].
    destruct (target !! "__proto__") eqn:Ht; [|reflexivity]. exfalso. apply Hown. eauto.
  - change (Object_assign target (kv :: source))
      with (Object_assign (assignProperty target kv) source).
    rewrite IH, given_cons.
    rewrite (bool_decide_ext _ _ (assignProperty_proto target kv)).
    destruct (String.eqb key "__proto__" && negb (bool_decide (is_Some (target !! "__proto__"))))
      eqn:Hcond; [reflexivity|].
    destruct (given key source) as [v|]; [reflexivity|].
    unfold assignProperty.
    destruct (String.eqb kv.1 "__proto__" && negb (bool_decide (is_Some (target !! "__proto__"))))
      eqn:Hskip.
    + destruct (String.eqb_spec kv.1 key) as [Hk|Hk]; [|reflexivity].
      rewrite Hk in Hskip. rewrite Hskip in Hcond. discriminate.
    + destruct (String.eqb_spec kv.1 key) as [Hk|Hk].
      * rewrite Hk. apply lookup_insert_eq.
      * apply lookup_insert_ne, Hk.
Qed.

Lemma Object_assign_keeps (target : gmap string string) (source : LocaleTranslations)
    (key : string) :
  is_Some (target !! key) -> is_Some (Object_assign target source !! key).
Proof.
  intros Hkey. rewrite Object_assign_lookup.
  destruct (String.eqb_spec key "__proto__") as [->|Hk]; cbn [andb].
  - rewrite bool_decide_eq_true_2 by exact Hkey. cbn [negb].
    destruct (given _ _); [eauto | exact Hkey].
  - destruct (given _ _); [eauto | exact Hkey].
Qed.


(** *** One turn of the loop *)

Section Injection.

Variable readOnlyMessage : string -> string -> string.

Local Abbreviation injectLocale' := (injectLocale readOnlyMessage).
Local Abbreviation injectEntries' := (injectEntries readOnlyMessage).
Local Abbreviation injectEach' := (injectEach readOnlyMessage).
Local Abbreviation assignToBuiltin' := (assignToBuiltin readOnlyMessage).

Lemma injectLocale_lookup (table : PluginTranslations) (locale : string)
    (localeTranslations : LocaleTranslations) (other : string) :
  (injectLocale' table (locale, localeTranslations)).2 !! other
  = if decide (locale = other)
    then merged (table !! locale) locale localeTranslations true
    else table !! other.
Proof.
  unfold injectLocale, get, merged.
  destruct (table !! locale) as [target|] eqn:Hown; cbn [snd].
  - destruct (decide (locale = other)) as [<-|Hne].
    + apply lookup_insert_eq.
    + now apply lookup_insert_ne.
  - destruct (inherited locale); cbn [snd].
    + destruct (decide (locale = other)) as [<-|Hne]; [exact Hown | reflexivity].
    + destruct (decide (locale = other)) as [<-|Hne].
      * apply lookup_insert_eq.
      * now apply lookup_insert_ne.
Qed.



Lemma merged_twice (before : option (gmap string string)) (locale : string)
    (s1 s2 : LocaleTranslations) (m1 m2 : bool) :
  (m1 = false -> s1 = []) ->
  merged (merged before locale s1 m1) locale s2 m2
  = merged before locale (s1 ++ s2) (m1 || m2).
Proof.
  intros Hs1. unfold merged. destruct before as [target|].
  - rewrite Object_assign_app. reflexivity.
  - destruct (inherited locale); [reflexivity|].
    destruct m1; cbn [orb].
    + rewrite Object_assign_app. reflexivity.
    + rewrite (Hs1 eq_refl). reflexivity.
Qed.

Lemma localeProperties_cons (locale : string) (entry : string * LocaleTranslations)
    (fragment : Translations) :
  localeProperties locale (entry :: fragment)
  = (if String.eqb entry.1 locale then entry.2 else []) ++ localeProperties locale fragment.
Proof.
  unfold localeProperties. cbn [omap list_omap].
  destruct (String.eqb entry.1 locale); reflexivity.
Qed.

Lemma not_mentioned (locale : string) (fragment : Translations) :
  mentions locale fragment = false -> localeProperties locale fragment = [].
Proof.
  induction fragment as [|entry fragment IH]; [reflexivity|].
  rewrite localeProperties_cons. cbn [mentions existsb].
  destruct (String.eqb entry.1 locale); [discriminate|]. exact IH.
Qed.

(** The table after a call that returned, seen at one locale. *)
Lemma injectEntries_lookup (fragment : Translations) (table table' : PluginTranslations)
    (locale : string) :
  injectEntries' table fragment = (Normal tt, table') ->
  table' !! locale
  = merged (table !! locale) locale (localeProperties locale fragment)
      (mentions locale fragment).
Proof.
  revert table. induction fragment as [|[l lt] fragment IH]; intros table Hrun.
  - injection Hrun as <-. unfold merged.
    destruct (table !! locale); [reflexivity|]. destruct (inherited locale); reflexivity.
  - cbn [injectEntries] in Hrun.
    pose proof (injectLocale_lookup table l lt locale) as Hstep.
    destruct (injectLocale' table (l, lt)) as [[[]|e] table1]; [|discriminate].
    cbn [snd] in Hstep. rewrite (IH _ Hrun), Hstep, localeProperties_cons.
    cbn [mentions existsb fst snd].
    destruct (decide (l = locale)) as [->|Hne].
    + rewrite String.eqb_refl.
      rewrite merged_twice by discriminate. reflexivity.
    + rewrite (proj2 (String.eqb_neq l locale) Hne). reflexivity.
Qed.

(** Whether a turn throws is decided by the table before the call. *)
Local Abbreviation refused table entry :=
  (match (table : PluginTranslations) !! fst entry with
   | Some _ => false
   | None =>
       inherited (fst entry)
       && match assignToBuiltin' (fst entry) (snd entry) with
          | Normal _ => false
          | Throw _ => true
          end
   end).






(** A locale that has an entry keeps it, with all its keys, through a call
    that returns or throws. *)
Lemma injectEntries_keeps (fragment : Translations) (table : PluginTranslations)
    (locale : string) (entry : gmap string string) :
  table !! locale = Some entry ->
  exists entry' : gmap string string,
    (injectEntries' table fragment).2 !! locale = Some entry'
    /\ forall key : string, is_Some (entry !! key) -> is_Some (entry' !! key).
Proof.
  revert table entry. induction fragment as [|[l lt] fragment IH]; intros table entry Hentry.
  - exists entry. split; [exact Hentry | auto].
  - cbn [injectEntries].
    pose proof (injectLocale_lookup table l lt locale) as Hstep.
    assert (Hturn : exists entry1 : gmap string string,
               (injectLocale' table (l, lt)).2 !! locale = Some entry1
               /\ forall key, is_Some (entry !! key) -> is_Some (entry1 !! key)).
    { rewrite Hstep. destruct (decide (l = locale)) as [->|Hne].
      - rewrite Hentry. cbn [merged]. eexists. split; [reflexivity|].
        intros key. apply Object_assign_keeps.
      - exists entry. split; [exact Hentry | auto]. }
    destruct Hturn as (entry1 & Hentry1 & Hkeys1).
    destruct (injectLocale' table (l, lt)) as [[[]|e] table1]; cbn [snd] in *.
    + destruct (IH table1 entry1 Hentry1) as (entry' & Hentry' & Hkeys').
      exists entry'. split; [exact Hentry' | auto].
    + exists entry1. split; [exact Hentry1 | exact Hkeys1].
Qed.

(** *** Several calls *)

Lemma given_concat {V} (key : string) (parts : list (list (string * V))) :
  given key (concat parts) = last (omap (given key) parts).
Proof.
  induction parts as [|part parts IH].
  - reflexivity.
  - cbn [concat omap list_omap]. rewrite given_app, IH.
    destruct (given key part) as [v|].
    + rewrite last_cons. reflexivity.
    + destruct (last _); reflexivity.
Qed.

Lemma omap_given_translation (locale key : string) (fragments : list Translations) :
  omap (given key) (map (localeProperties locale) fragments)
  = omap (translation locale key) fragments.
Proof.
  induction fragments as [|fragment fragments IH]; [reflexivity|].
  cbn [map omap list_omap]. rewrite IH. reflexivity.
Qed.

Lemma injectEach_lookup (fragments : list Translations) (table table' : PluginTranslations)
    (locale : string) :
  injectEach' table fragments = (Normal tt, table') ->
  table' !! locale
  = merged (table !! locale) locale
      (concat (map (localeProperties locale) fragments))
      (existsb (mentions locale) fragments).
Proof.
  revert table. induction fragments as [|fragment fragments IH]; intros table Hrun.
  - injection Hrun as <-. unfold merged.
    destruct (table !! locale); [reflexivity|]. destruct (inherited locale); reflexivity.
  - cbn [injectEach] in Hrun.
    destruct (injectEntries' table fragment) as [[[]|e] table1] eqn:Hcall; [|discriminate].
    rewrite (IH _ Hrun), (injectEntries_lookup _ _ _ locale Hcall).
    cbn [map concat existsb]. apply merged_twice, not_mentioned.
Qed.

(** X9: when each call of a sequence of [injectTranslations] calls
    returns, the table that started empty holds an entry for a locale
    exactly when the locale names no inherited property and some fragment
    holds it; under each key but [__proto__] the entry has the value of the
    last fragment that gives one, and it has no key [__proto__]. *)
Lemma injected_fragments_merge (fragments : list Translations)
    (table : PluginTranslations) :
  injectEach' ∅ fragments = (Normal tt, table) ->
  forall locale : string,
    (table !! locale = None
     <-> inherited locale = true
         \/ forall fragment, fragment ∈ fragments -> mentions locale fragment = false)
    /\ (forall entry : gmap string string,
          table !! locale = Some entry ->
          entry !! "__proto__" = None
          /\ forall key : string,
               key <> "__proto__" ->
               entry !! key = lastTranslation locale key fragments).
Proof.
  intros Hrun locale. rewrite (injectEach_lookup _ _ _ locale Hrun), lookup_empty.
  unfold merged. destruct (inherited locale) eqn:Hinherited.
  - split; [split; auto | discriminate].
  - destruct (existsb (mentions locale) fragments) eqn:Hmentioned.
    + split.
      * split; [discriminate|]. intros [Hi | Hall]; [discriminate|]. exfalso.
        apply existsb_exists in Hmentioned as (fragment & Hin & Hfragment).
        rewrite (Hall fragment) in Hfragment; [discriminate|].
        apply list_elem_of_In, Hin.
      * intros entry [= <-]. split.
        -- rewrite Object_assign_lookup. rewrite lookup_empty.
           rewrite bool_decide_eq_false_2 by (intros [? [=]]). reflexivity.
        -- intros key Hkey. rewrite Object_assign_lookup.
           rewrite (proj2 (String.eqb_neq key "__proto__") Hkey). cbn [andb].
           rewrite lookup_empty, given_concat, omap_given_translation.
           unfold lastTranslation. destruct (last _); reflexivity.
    + split; [|discriminate]. split; [|reflexivity]. intros _. right.
      intros fragment Hin.
      destruct (mentions locale fragment) eqn:Hfragment; [|reflexivity].
      assert (Hex : existsb (mentions locale) fragments = true).
      { apply existsb_exists. exists fragment. split; [apply list_elem_of_In, Hin | exact Hfragment]. }
      rewrite Hex in Hmentioned. discriminate.
Qed.

End Injection.

Section Runtime.

Variable VitesseConfigSchema : UserConfig -> VitesseConfig + string.
Variable AstroIntegration : Type.
Variable Logger : Type.
Variable fork : Logger -> string -> Logger.
Variable readOnlyMessage : string -> string -> string.

Implicit Types (s : RunState AstroIntegration) (p : Plugin AstroIntegration Logger).
Implicit Types (t : Setup AstroIntegration).
Implicit Types (context : VitessePluginContext AstroIntegration Logger).

Local Abbreviation injectAll' := (injectAll readOnlyMessage).

(** A call changes the table by its fragment only. *)
Lemma perform_translations (name : string) (c : Call AstroIntegration) s :
  pluginTranslations (perform VitesseConfigSchema readOnlyMessage name c s).2
  = injectAll' (pluginTranslations s) (injectedFragments [c]).
Proof.
  destruct c as [newConfig | integration | translations]; cbn [perform].
  - unfold updateConfig. destruct (has_property "plugins" newConfig); [reflexivity|].
    destruct (parseWithFriendlyErrors _ _ _) as [merged|e]; reflexivity.
  - reflexivity.
  - unfold injectTranslations.
    destruct (injectEntries readOnlyMessage (pluginTranslations s) translations)
      as [completion table] eqn:Hcall.
    cbn. rewrite Hcall. reflexivity.
Qed.

(** So does a setup, whether it returns or throws. *)
Lemma execute_translations (name : string) t s :
  pluginTranslations (execute VitesseConfigSchema readOnlyMessage name t s).2
  = injectAll' (pluginTranslations s)
      (injectedFragments (callsOf VitesseConfigSchema readOnlyMessage name t s).*1).
Proof.
  revert s. induction t as [|e|c andThen IH]; intros s; try reflexivity.
  cbn [execute callsOf].
  pose proof (perform_translations name c s) as Hcall.
  destruct (perform VitesseConfigSchema readOnlyMessage name c s) as [completion s0].
  cbn [snd] in Hcall. rewrite IH, Hcall. cbn [fmap list_fmap fst].
  unfold injectedFragments, injectAll.
  destruct c as [newConfig | integration | translations]; reflexivity.
Qed.

Lemma forEachPlugin_translations
    (pluginsUserConfig : option (list (Plugin AstroIntegration Logger))) context
    (pluginsConfig : list (Plugin AstroIntegration Logger)) s :
  pluginTranslations
    (forEachPlugin VitesseConfigSchema fork readOnlyMessage pluginsUserConfig context
       pluginsConfig s).2
  = injectAll' (pluginTranslations s)
      (injectedFragments
         (receivedCalls VitesseConfigSchema fork readOnlyMessage pluginsUserConfig context
            pluginsConfig s).*1).
Proof.
  revert s. induction pluginsConfig as [|p rest IH]; intros s; [reflexivity|].
  cbn [forEachPlugin receivedCalls]. unfold seq, runSetup.
  pose proof (execute_translations (name p)
                (setup p (setupArgs fork pluginsUserConfig context (name p) s)) s) as Hsetup.
  destruct (execute _ _ _ _ s) as [[[]|e] s1]; cbn [snd] in *.
  - rewrite IH, Hsetup, fmap_app. unfold injectedFragments, injectAll.
    rewrite omap_app, foldl_app. reflexivity.
  - rewrite Hsetup, app_nil_r. reflexivity.
Qed.

(** X10: the table that [runPlugins] returns is the result of passing to
    [injectTranslations], in execution order and starting from the empty
    table, the fragments of all the calls that the setups made. *)
Lemma runPlugins_translations
    (vitesseUserConfig : UserConfig)
    (pluginsUserConfig : option (list (Plugin AstroIntegration Logger))) context
    (result : RunResult AstroIntegration) :
  runPlugins VitesseConfigSchema fork readOnlyMessage vitesseUserConfig pluginsUserConfig
    context
  = Normal result ->
  exists validated,
    VitesseConfigSchema vitesseUserConfig = inl validated
    /\ result_pluginTranslations result
       = injectAll' (∅ : PluginTranslations)
           (injectedFragments
              (receivedCalls VitesseConfigSchema fork readOnlyMessage pluginsUserConfig
                 context (parsedPlugins pluginsUserConfig)
                 (initialState vitesseUserConfig validated)).*1).
Proof.
  intros Hrun.
  destruct (VitesseConfigSchema vitesseUserConfig) as [validated|issues] eqn:Hvalid.
  - exists validated. split; [reflexivity|].
    rewrite (PluginsFacts.runPlugins_validated _ _ _ _ _ _ _ _ _ Hvalid) in Hrun.
    pose proof (forEachPlugin_translations pluginsUserConfig context
                  (parsedPlugins pluginsUserConfig)
                  (initialState vitesseUserConfig validated)) as Htable.
    destruct (forEachPlugin _ _ _ _ _ _ _) as [[[]|e] s]; [|discriminate].
    destruct (_ && _); [discriminate|]. injection Hrun as <-.
    exact Htable.
  - unfold runPlugins, parseWithFriendlyErrors in Hrun. rewrite Hvalid in Hrun.
    discriminate.
Qed.

End Runtime.

(** When two plugins translate the same key of the same locale, the value
    of the later plugin is in the returned table. *)
Example later_plugin_wins :
  runPlugins Examples.prerender_schema Examples.fork Examples.engine_message ∅
    (Some [Examples.greeting_en; Examples.greeting_override]) Examples.server_build
  = Normal (mkRunResult []
              (mkVitesseConfig true [] None [])
              {[ "en" := {[ "greeting" := "Hi"; "farewell" := "Bye" ]};
                 "fr" := {[ "greeting" := "Salut" ]} ]}).
Proof. vm_compute. reflexivity. Qed.

(** C4: a fragment for the locale ["constructor"] passes through
    [injectTranslations] without an entry for that locale appearing in the
    returned table: the read [pluginTranslations[locale]] finds the property
    inherited from [Object.prototype], so nothing is created. *)
Theorem inherited_locale_gets_no_entry :
  runPlugins Examples.prerender_schema Examples.fork Examples.engine_message ∅
    (Some [Examples.constructor_locale]) Examples.server_build
  = Normal (mkRunResult [] (mkVitesseConfig true [] None []) ∅).
Proof. vm_compute. reflexivity. Qed.

End TranslationFacts.

(** ** The virtual module registry *)

Module RegistryFacts.
Import Js Config VirtualModules.

Lemma fromEntries_snoc {V} (entries : list (string * V)) (k : string) (v : V) :
  fromEntries (entries ++ [(k, v)]) = <[k := v]> (fromEntries entries).
Proof. unfold fromEntries. rewrite foldl_snoc. reflexivity. Qed.

Lemma fromEntries_lookup_Some {V} (entries : list (string * V)) (k : string) (v : V) :
  fromEntries entries !! k = Some v -> (k, v) ∈ entries.
Proof.
  induction entries as [|[k' v'] entries IH] using rev_ind.
  - unfold fromEntries. cbn [foldl]. rewrite lookup_empty. discriminate.
  - rewrite fromEntries_snoc. destruct (decide (k' = k)) as [->|Hne].
    + rewrite lookup_insert_eq. intros [= ->]. apply elem_of_app. right. left.
    + rewrite lookup_insert_ne by exact Hne. intros H. apply elem_of_app. left. now apply IH.
Qed.

Lemma fromEntries_lookup_NoDup {V} (entries : list (string * V)) (k : string) (v : V) :
  NoDup entries.*1 -> (k, v) ∈ entries -> fromEntries entries !! k = Some v.
Proof.
  induction entries as [|[k' v'] entries IH] using rev_ind; intros Hnodup Hin.
  - inversion Hin.
  - rewrite fmap_app in Hnodup. apply NoDup_app in Hnodup as (Hnodup & Hfresh & _).
    rewrite fromEntries_snoc. apply elem_of_app in Hin as [Hin|Hin].
    + rewrite lookup_insert_ne; [now apply IH|].
      intros ->. apply (Hfresh k); [|left].
      apply list_elem_of_fmap. exists (k, v). split; [reflexivity | exact Hin].
    + apply list_elem_of_singleton in Hin as [= -> ->]. apply lookup_insert_eq.
Qed.

Lemma prefix_append (p s : string) : String.prefix p (p +:+ s) = true.
Proof.
  induction p as [|c p IH]; [destruct s; reflexivity|].
  change (String.prefix (String c p) (String c p +:+ s))
    with (if ascii_dec c c then String.prefix p (p +:+ s) else false).
  destruct (ascii_dec c c); [exact IH | contradiction].
Qed.

(** No name inherited from [Object.prototype], and no property key made
    from an inherited value, starts like the name of a virtual module. *)
Lemma inherited_not_virtual (k : string) :
  inherited k = true -> String.prefix "virtual:vitesse/" k = false.
Proof.
  unfold inherited. intros H. apply bool_decide_eq_true_1 in H.
  unfold objectPrototypeKeys in H.
  repeat (apply elem_of_cons in H as [->|H]; [reflexivity|]).
  inversion H.
Qed.

Lemma inheritedAsKey_not_virtual (k : string) :
  inherited k = true ->
  String.prefix "virtual:vitesse/" (inheritedAsKey k) = false
  /\ inherited (inheritedAsKey k) = false.
Proof.
  unfold inherited at 1. intros H. apply bool_decide_eq_true_1 in H.
  unfold objectPrototypeKeys in H.
  repeat (apply elem_of_cons in H as [->|H]; [split; reflexivity|]).
  inversion H.
Qed.

Lemma prefixed_not_inherited (n : string) :
  inherited (resolveVirtualModuleId n) = false.
Proof.
  unfold inherited. apply bool_decide_eq_false_2. intros H.
  unfold objectPrototypeKeys in H.
  repeat (apply elem_of_cons in H as [H|H]; [discriminate H|]).
  inversion H.
Qed.

Section Registry.

Variable URL : Type.
Variable fileURLToPath : URL -> string.
Variable path_resolve : string -> string -> string.
Variable PluginTranslations : Type.
Variable stringify_config : VitesseConfig -> string.
Variable stringify_context : string -> URL -> URL -> string -> string.
Variable stringify_translations : PluginTranslations -> string.
Variable opts : VitesseConfig.
Variable build_format : string.
Variable root : URL.
Variable srcDir : URL.
Variable trailingSlash : string.
Variable pluginTranslations : PluginTranslations.

Local Abbreviation modules' :=
  (modules URL fileURLToPath path_resolve PluginTranslations stringify_config
     stringify_context stringify_translations opts build_format root srcDir trailingSlash
     pluginTranslations).
Local Abbreviation resolutionMap' :=
  (resolutionMap URL fileURLToPath path_resolve PluginTranslations stringify_config
     stringify_context stringify_translations opts build_format root srcDir trailingSlash
     pluginTranslations).
Local Abbreviation plugin_resolveId' :=
  (plugin_resolveId URL fileURLToPath path_resolve PluginTranslations stringify_config
     stringify_context stringify_translations opts build_format root srcDir trailingSlash
     pluginTranslations).
Local Abbreviation plugin_load' :=
  (plugin_load URL fileURLToPath path_resolve PluginTranslations stringify_config
     stringify_context stringify_translations opts build_format root srcDir trailingSlash
     pluginTranslations).

(** Every name in [modules] is a virtual module name. *)
Lemma modules_names (n : string) :
  is_Some (modules' !! n) -> String.prefix "virtual:vitesse/" n = true.
Proof.
  intros [text Hn]. unfold modules in Hn.
  apply lookup_union_Some_raw in Hn as [Hn | [_ Hn]].
  - apply fromEntries_lookup_Some in Hn.
    apply list_elem_of_fmap in Hn as ([name path] & [= -> _] & _).
    change ("virtual:vitesse/components/" +:+ name)
      with ("virtual:vitesse/" +:+ ("components/" +:+ name)).
    apply prefix_append.
  - apply fromEntries_lookup_Some in Hn.
    repeat (apply elem_of_cons in Hn as [[= -> _]|Hn]; [reflexivity|]).
    inversion Hn.
Qed.

Lemma modules_not_inherited (k : string) :
  inherited k = true -> modules' !! k = None.
Proof.
  intros Hk. destruct (modules' !! k) as [text|] eqn:Hown; [|reflexivity].
  pose proof (inherited_not_virtual k Hk) as Hnot.
  rewrite (modules_names k) in Hnot by eauto. discriminate.
Qed.

Lemma resolutionMap_lookup (id n : string) :
  resolutionMap' !! id = Some n
  <-> id = resolveVirtualModuleId n /\ is_Some (modules' !! n).
Proof.
  unfold resolutionMap. split.
  - intros H. apply fromEntries_lookup_Some in H.
    apply list_elem_of_fmap in H as (key & [= -> ->] & Hkey).
    split; [reflexivity|].
    apply list_elem_of_fmap in Hkey as ([k text] & -> & Hin).
    apply elem_of_map_to_list in Hin. eauto.
  - intros [-> [text Hn]]. apply fromEntries_lookup_NoDup.
    + rewrite <- list_fmap_compose.
      assert (Hinj : Inj eq eq resolveVirtualModuleId) by (intros a b [= ->]; reflexivity).
      apply (NoDup_fmap_2 resolveVirtualModuleId), NoDup_fst_map_to_list.
    + apply list_elem_of_fmap. exists n. split; [reflexivity|].
      apply list_elem_of_fmap. exists (n, text). split; [reflexivity|].
      now apply elem_of_map_to_list.
Qed.

(** [resolveId] answers for the names in [modules] and for the names that
    [modules] inherits, and for no other id. *)
Lemma plugin_resolveId_answers (id resolved : string) :
  plugin_resolveId' id = Some resolved
  <-> resolved = resolveVirtualModuleId id
      /\ (is_Some (modules' !! id) \/ inherited id = true).
Proof.
  unfold plugin_resolveId, has_property.
  destruct (bool_decide (is_Some (modules' !! id))) eqn:Hown; cbn [orb].
  - apply bool_decide_eq_true_1 in Hown. split.
    + intros [= <-]. auto.
    + intros [-> _]. reflexivity.
  - apply bool_decide_eq_false_1 in Hown. destruct (inherited id); split.
    + intros [= <-]. auto.
    + intros [-> _]. reflexivity.
    + discriminate.
    + intros [_ [H|H]]; [contradiction | discriminate].
Qed.

(** [load] returns the text of a module for the prefixed form of its name,
    and nothing for any other id. *)
Lemma plugin_load_answers (id : string) :
  plugin_load' id
  = match resolutionMap' !! id with
    | Some n => match modules' !! n with Some text => OwnValue text | None => Undefined end
    | None => Undefined
    end.
Proof.
  unfold plugin_load, get.
  destruct (resolutionMap' !! id) as [n|] eqn:Hid.
  - apply resolutionMap_lookup in Hid as [-> [text Hn]].
    assert (Hname : String.prefix "virtual:vitesse/" n = true) by (apply modules_names; eauto).
    destruct n as [|c n]; [discriminate|].
    cbn [String.eqb]. rewrite Hn. reflexivity.
  - destruct (inherited id) eqn:Hinherited; [|reflexivity].
    destruct (inheritedAsKey_not_virtual id Hinherited) as [Hnot Hplain].
    destruct (modules' !! inheritedAsKey id) as [text|] eqn:Hown.
    + rewrite (modules_names (inheritedAsKey id)) in Hnot by eauto. discriminate.
    + rewrite Hplain. reflexivity.
Qed.

Lemma plugin_load_text (id text : string) :
  plugin_load' id = OwnValue text
  <-> exists n, id = resolveVirtualModuleId n /\ modules' !! n = Some text.
Proof.
  rewrite plugin_load_answers. split.
  - destruct (resolutionMap' !! id) as [n|] eqn:Hid; [|discriminate].
    apply resolutionMap_lookup in Hid as [-> _].
    destruct (modules' !! n) as [text'|] eqn:Hn; [|discriminate].
    intros [= ->]. eauto.
  - intros (n & -> & Hn).
    rewrite (proj2 (resolutionMap_lookup _ n) (conj eq_refl (ex_intro _ text Hn))), Hn.
    reflexivity.
Qed.

(** Round trip: [load(resolveId(n))] is the text registered under [n]. *)
Lemma load_resolved_name (n text : string) :
  modules' !! n = Some text ->
  exists resolved,
    plugin_resolveId' n = Some resolved /\ plugin_load' resolved = OwnValue text.
Proof.
  intros Hn. exists (resolveVirtualModuleId n). split.
  - apply plugin_resolveId_answers. split; [reflexivity|]. left. eauto.
  - apply plugin_load_text. eauto.
Qed.

(** A public name is not loaded without its prefix, and a prefixed id is
    not resolved again. *)
Lemma unprefixed_and_prefixed (n : string) :
  is_Some (modules' !! n) ->
  plugin_load' n = Undefined /\ plugin_resolveId' (resolveVirtualModuleId n) = None.
Proof.
  intros Hn. pose proof (modules_names n Hn) as Hname. split.
  - rewrite plugin_load_answers.
    destruct (resolutionMap' !! n) as [m|] eqn:Hm; [|reflexivity].
    apply resolutionMap_lookup in Hm as [-> _]. discriminate.
  - destruct (plugin_resolveId' (resolveVirtualModuleId n)) as [r|] eqn:Hr; [|reflexivity].
    apply plugin_resolveId_answers in Hr as [_ [Hown | Hinherited]].
    + apply modules_names in Hown. discriminate.
    + rewrite prefixed_not_inherited in Hinherited. discriminate.
Qed.

(** C3: [resolveId("constructor")] returns the prefixed id although
    ["constructor"] is not the name of a virtual module: the test
    [id in modules] also finds the properties that [modules] inherits from
    [Object.prototype].  [load] has no text for the id so produced. *)
Theorem inherited_name_is_resolved :
  modules' !! "constructor" = None
  /\ plugin_resolveId' "constructor" = Some (resolveVirtualModuleId "constructor")
  /\ plugin_load' (resolveVirtualModuleId "constructor") = Undefined.
Proof.
  assert (Hnone : modules' !! "constructor" = None)
    by (apply modules_not_inherited; reflexivity).
  split; [exact Hnone|]. split.
  - apply plugin_resolveId_answers. split; [reflexivity|]. right. reflexivity.
  - rewrite plugin_load_answers.
    destruct (resolutionMap' !! resolveVirtualModuleId "constructor") as [n|] eqn:Hn;
      [|reflexivity].
    apply resolutionMap_lookup in Hn as [[= <-] [text Htext]].
    rewrite Hnone in Htext. discriminate.
Qed.

End Registry.

(** The round trip on a component override, and the two misses. *)
Example site_component_module :
  Examples.site_resolveId "virtual:vitesse/components/Footer"
  = Some (resolveVirtualModuleId "virtual:vitesse/components/Footer")
  /\ Examples.site_load (resolveVirtualModuleId "virtual:vitesse/components/Footer")
     = OwnValue ("export { default } from " +:+
                 Literal.JSON_stringify "/proj/src/components/Footer.astro" +:+ ";")
  /\ Examples.site_load "virtual:vitesse/components/Footer" = Undefined
  /\ Examples.site_resolveId (resolveVirtualModuleId "virtual:vitesse/components/Footer")
     = None
  /\ Examples.site_resolveId "virtual:vitesse/components/Header" = None.
Proof. vm_compute. repeat split; reflexivity. Qed.

End RegistryFacts.

(** ** What a run accumulates *)

Module RuntimeFacts.
Import Js Config Plugins PluginCalls.

Lemma mergeUpdates_lookup (updates : list UserConfig) (userConfig : UserConfig) (key : string) :
  mergeUpdates userConfig updates !! key
  = match last (omap (fun newConfig : UserConfig => newConfig !! key) updates) with
    | Some v => Some v
    | None => userConfig !! key
    end.
Proof.
  induction updates as [|newConfig updates IH] using rev_ind.
  - reflexivity.
  - unfold mergeUpdates in *. rewrite foldl_snoc, omap_app, lookup_union, IH.
    cbn [omap list_omap].
    destruct (newConfig !! key) as [v|] eqn:Hkey.
    + rewrite last_snoc. destruct (last _); [reflexivity|]. destruct (userConfig !! key); reflexivity.
    + rewrite app_nil_r. destruct (last _); [reflexivity|]. destruct (userConfig !! key); reflexivity.
Qed.

Section Runtime.

Variable VitesseConfigSchema : UserConfig -> VitesseConfig + string.
Variable AstroIntegration : Type.
Variable Logger : Type.
Variable fork : Logger -> string -> Logger.
Variable readOnlyMessage : string -> string -> string.

Implicit Types (s : RunState AstroIntegration) (p : Plugin AstroIntegration Logger).
Implicit Types (t : Setup AstroIntegration).
Implicit Types (context : VitessePluginContext AstroIntegration Logger).

Local Abbreviation perform' := (perform VitesseConfigSchema readOnlyMessage).
Local Abbreviation execute' := (execute VitesseConfigSchema readOnlyMessage).
Local Abbreviation callsOf' := (callsOf VitesseConfigSchema readOnlyMessage).
Local Abbreviation advance' := (advance VitesseConfigSchema readOnlyMessage).
Local Abbreviation forEachPlugin' := (forEachPlugin VitesseConfigSchema fork readOnlyMessage).
Local Abbreviation receivedCalls' := (receivedCalls VitesseConfigSchema fork readOnlyMessage).
Local Abbreviation completedCalls' := (completedCalls VitesseConfigSchema fork readOnlyMessage).
Local Abbreviation runPlugins' := (runPlugins VitesseConfigSchema fork readOnlyMessage).

(** The working configuration and its validated form belong together. *)
Local Abbreviation validated_state s :=
  (VitesseConfigSchema (userConfig s) = inl (vitesseConfig s)).

Lemma injectTranslations_keeps (translations : Translations) s :
  userConfig (injectTranslations readOnlyMessage translations s).2 = userConfig s
  /\ vitesseConfig (injectTranslations readOnlyMessage translations s).2 = vitesseConfig s
  /\ integrations (injectTranslations readOnlyMessage translations s).2 = integrations s.
Proof.
  unfold injectTranslations.
  destruct (injectEntries readOnlyMessage (pluginTranslations s) translations).
  repeat split.
Qed.

Lemma perform_plugins_key (name : string) (c : Call AstroIntegration) s :
  userConfig (perform' name c s).2 !! "plugins" = userConfig s !! "plugins".
Proof.
  destruct c as [newConfig | integration | translations]; cbn [perform].
  - unfold updateConfig, has_property.
    destruct (bool_decide (is_Some (newConfig !! "plugins"))) eqn:Hkey; cbn [orb]; [reflexivity|].
    change (inherited "plugins") with false. cbn [orb].
    destruct (parseWithFriendlyErrors _ _ _) as [merged|e]; [|reflexivity].
    cbn [snd userConfig]. apply bool_decide_eq_false_1 in Hkey.
    rewrite lookup_union_r; [reflexivity|].
    destruct (newConfig !! "plugins"); [exfalso; apply Hkey; eauto | reflexivity].
  - reflexivity.
  - rewrite (proj1 (injectTranslations_keeps translations s)). reflexivity.
Qed.

Lemma execute_plugins_key (name : string) t s :
  userConfig (execute' name t s).2 !! "plugins" = userConfig s !! "plugins".
Proof.
  revert s. induction t as [|e|c andThen IH]; intros s; try reflexivity.
  cbn [execute]. pose proof (perform_plugins_key name c s) as Hc.
  destruct (perform' name c s) as [completion s0]. cbn [snd] in Hc.
  rewrite IH. exact Hc.
Qed.

Lemma perform_validated (name : string) (c : Call AstroIntegration) s :
  validated_state s -> validated_state (perform' name c s).2.
Proof.
  destruct c as [newConfig | integration | translations]; cbn [perform].
  - unfold updateConfig. destruct (has_property "plugins" newConfig); [intros H; exact H|].
    unfold parseWithFriendlyErrors.
    destruct (VitesseConfigSchema (newConfig ∪ userConfig s)) as [merged|issues] eqn:Hmerged;
      intros H; [exact Hmerged | exact H].
  - intros H. exact H.
  - destruct (injectTranslations_keeps translations s) as (-> & -> & _). intros H. exact H.
Qed.

Lemma execute_validated (name : string) t s :
  validated_state s -> validated_state (execute' name t s).2.
Proof.
  revert s. induction t as [|e|c andThen IH]; intros s Hs; try exact Hs.
  cbn [execute]. pose proof (perform_validated name c s Hs) as Hc.
  destruct (perform' name c s) as [completion s0]. cbn [snd] in Hc.
  apply IH, Hc.
Qed.

(** What one call leaves behind: an integration when it is [addIntegration],
    a merged update when it is an [updateConfig] that returned. *)
Lemma perform_accumulates (name : string) (c : Call AstroIntegration) s :
  integrations (perform' name c s).2
  = integrations s ++ addedIntegrations (returned [(c, (perform' name c s).1)])
  /\ userConfig (perform' name c s).2
     = mergeUpdates (userConfig s) (configUpdates (returned [(c, (perform' name c s).1)])).
Proof.
  destruct c as [newConfig | integration | translations]; cbn [perform].
  - unfold updateConfig. destruct (has_property "plugins" newConfig).
    + cbn. rewrite app_nil_r. split; reflexivity.
    + destruct (parseWithFriendlyErrors _ _ _) as [merged|e]; cbn;
        rewrite app_nil_r; split; reflexivity.
  - cbn. split; reflexivity.
  - destruct (injectTranslations_keeps translations s) as (Hu & _ & Hi).
    rewrite Hu, Hi.
    destruct (injectTranslations readOnlyMessage translations s).1 as [[]|e]; cbn;
      rewrite app_nil_r; split; reflexivity.
Qed.

Lemma returned_cons (c : Call AstroIntegration) (completion : Completion unit)
    (calls : list (Call AstroIntegration * Completion unit)) :
  returned ((c, completion) :: calls) = returned [(c, completion)] ++ returned calls.
Proof. unfold returned. cbn. destruct completion; reflexivity. Qed.

(** What a setup leaves behind, whether it returns or throws. *)
Lemma execute_accumulates (name : string) t s :
  integrations (execute' name t s).2
  = integrations s ++ addedIntegrations (returned (callsOf' name t s))
  /\ userConfig (execute' name t s).2
     = mergeUpdates (userConfig s) (configUpdates (returned (callsOf' name t s))).
Proof.
  revert s. induction t as [|e|c andThen IH]; intros s;
    try (cbn; rewrite app_nil_r; split; reflexivity).
  cbn [execute callsOf].
  destruct (perform_accumulates name c s) as [Hi Hu].
  destruct (perform' name c s) as [completion s0]. cbn [fst snd] in *.
  destruct (IH completion s0) as [Hi' Hu'].
  rewrite returned_cons. unfold addedIntegrations, configUpdates, mergeUpdates in *.
  rewrite !omap_app, foldl_app, app_assoc, <- Hi, <- Hu. split; assumption.
Qed.

Lemma forEachPlugin_accumulates
    (pluginsUserConfig : option (list (Plugin AstroIntegration Logger))) context
    (pluginsConfig : list (Plugin AstroIntegration Logger)) s :
  let calls := completedCalls' pluginsUserConfig context pluginsConfig s in
  integrations (forEachPlugin' pluginsUserConfig context pluginsConfig s).2
  = integrations s ++ addedIntegrations calls
  /\ userConfig (forEachPlugin' pluginsUserConfig context pluginsConfig s).2
     = mergeUpdates (userConfig s) (configUpdates calls).
Proof.
  revert s. induction pluginsConfig as [|p rest IH]; intros s.
  - cbn. rewrite app_nil_r. split; reflexivity.
  - cbv zeta. unfold completedCalls. cbn [forEachPlugin receivedCalls]. unfold seq, runSetup.
    destruct (execute_accumulates (name p)
                (setup p (setupArgs fork pluginsUserConfig context (name p) s)) s)
      as [Hi Hu].
    destruct (execute' _ _ s) as [[[]|e] s1]; cbn [snd] in *.
    + destruct (IH s1) as [Hi' Hu']. unfold completedCalls in *.
      unfold returned, addedIntegrations, configUpdates, mergeUpdates in *.
      rewrite !omap_app, foldl_app, app_assoc, <- Hi, <- Hu. split; assumption.
    + rewrite app_nil_r. split; assumption.
Qed.

Lemma forEachPlugin_validated
    (pluginsUserConfig : option (list (Plugin AstroIntegration Logger))) context
    (pluginsConfig : list (Plugin AstroIntegration Logger)) s :
  validated_state s ->
  validated_state (forEachPlugin' pluginsUserConfig context pluginsConfig s).2.
Proof.
  revert s. induction pluginsConfig as [|p rest IH]; intros s Hs; [exact Hs|].
  cbn [forEachPlugin]. unfold seq, runSetup.
  pose proof (execute_validated (name p)
                (setup p (setupArgs fork pluginsUserConfig context (name p) s)) s Hs) as Hp.
  destruct (execute' _ _ s) as [[[]|e] s1]; cbn [snd] in *.
  - apply IH, Hp.
  - exact Hp.
Qed.

(** The calls of a setup behind the schema carry parsed arguments. *)
Local Abbreviation parsedCalls calls :=
  (Forall (fun cc : Call AstroIntegration * Completion unit =>
             exists c, cc.1 = parsedCall c) calls).

Lemma callsOf_wrapped (name : string) t s : parsedCalls (callsOf' name (wrapped t) s).
Proof.
  revert s. induction t as [|e|c andThen IH]; intros s; try constructor.
  cbn [wrapped callsOf].
  destruct (perform' name (parsedCall c) s) as [completion s0].
  constructor; [exists c; reflexivity | apply IH].
Qed.

Lemma receivedCalls_parsed
    (pluginsUserConfig : option (list (Plugin AstroIntegration Logger))) context
    (plugins : list (Plugin AstroIntegration Logger)) s :
  parsedCalls (receivedCalls' pluginsUserConfig context (map vitessePluginSchema plugins) s).
Proof.
  revert s. induction plugins as [|p rest IH]; intros s; [constructor|].
  cbn [map receivedCalls]. apply Forall_app. split.
  - apply callsOf_wrapped.
  - destruct (execute' _ _ s) as [[[]|e] s1]; [apply IH | constructor].
Qed.

Lemma parsed_updates_lack_proto (calls : list (Call AstroIntegration * Completion unit)) :
  parsedCalls calls ->
  omap (fun newConfig : UserConfig => newConfig !! "__proto__") (configUpdates (returned calls))
  = [].
Proof.
  induction 1 as [|[c completion] calls [c0 Hc] _ IH]; [reflexivity|].
  rewrite returned_cons. unfold configUpdates in *. rewrite !omap_app, IH, app_nil_r.
  cbn [fst] in Hc. subst c.
  destruct completion as [[]|e]; [|reflexivity].
  destruct c0 as [newConfig | integration | translations]; try reflexivity.
  cbn. unfold z_record_any. rewrite lookup_delete_eq. reflexivity.
Qed.

(** X1: with no plugin list, or an empty one, [runPlugins] returns the
    validated initial configuration with no integration and an empty
    translation table, unless the output mode is ["static"] and that
    configuration turns prerendering off, in which case it throws the
    conflict error. *)
Theorem no_plugins_returns_initial_config
    (vitesseUserConfig : UserConfig)
    (pluginsUserConfig : option (list (Plugin AstroIntegration Logger))) context
    (validated : VitesseConfig) :
  VitesseConfigSchema vitesseUserConfig = inl validated ->
  pluginsUserConfig = None \/ pluginsUserConfig = Some [] ->
  runPlugins' vitesseUserConfig pluginsUserConfig context
  = if String.eqb (output (config context)) "static" && negb (prerender validated)
    then Throw prerenderConflict
    else Normal (mkRunResult [] validated ∅).
Proof.
  intros Hvalid Hplugins.
  rewrite (PluginsFacts.runPlugins_validated _ _ _ _ _ _ _ _ _ Hvalid).
  destruct Hplugins as [-> | ->]; reflexivity.
Qed.

(** X2: the integrations that [runPlugins] returns are the
    arguments of all [addIntegration] calls of the run, in the order of the
    calls. *)
Theorem returned_integrations_in_call_order
    (vitesseUserConfig : UserConfig)
    (pluginsUserConfig : option (list (Plugin AstroIntegration Logger))) context
    (result : RunResult AstroIntegration) :
  runPlugins' vitesseUserConfig pluginsUserConfig context = Normal result ->
  exists validated,
    VitesseConfigSchema vitesseUserConfig = inl validated
    /\ result_integrations result
       = addedIntegrations
           (completedCalls' pluginsUserConfig context (parsedPlugins pluginsUserConfig)
              (initialState vitesseUserConfig validated)).
Proof.
  intros Hrun.
  destruct (VitesseConfigSchema vitesseUserConfig) as [validated|issues] eqn:Hvalid.
  - exists validated. split; [reflexivity|].
    rewrite (PluginsFacts.runPlugins_validated _ _ _ _ _ _ _ _ _ Hvalid) in Hrun.
    destruct (forEachPlugin_accumulates pluginsUserConfig context
                (parsedPlugins pluginsUserConfig)
                (initialState vitesseUserConfig validated)) as [Hi _].
    destruct (forEachPlugin' _ _ _ _) as [[[]|e] s]; [|discriminate].
    destruct (_ && _); [discriminate|]. injection Hrun as <-.
    exact Hi.
  - unfold runPlugins, parseWithFriendlyErrors in Hrun. rewrite Hvalid in Hrun.
    discriminate.
Qed.

(** X3: the configuration that [runPlugins] returns is the validation of
    the user's configuration with the argument of every [updateConfig] call
    that returned spread over it in the order of the calls, each argument
    as the callback received it.  Under each key the last of these updates
    that has the key decides, and a key that none has keeps the user's
    value; no update touches the key [__proto__]. *)
Theorem returned_config_validates_merged_updates
    (vitesseUserConfig : UserConfig)
    (pluginsUserConfig : option (list (Plugin AstroIntegration Logger))) context
    (result : RunResult AstroIntegration) :
  runPlugins' vitesseUserConfig pluginsUserConfig context = Normal result ->
  exists validated (final : UserConfig),
    VitesseConfigSchema vitesseUserConfig = inl validated
    /\ final
       = mergeUpdates vitesseUserConfig
           (configUpdates
              (completedCalls' pluginsUserConfig context (parsedPlugins pluginsUserConfig)
                 (initialState vitesseUserConfig validated)))
    /\ VitesseConfigSchema final = inl (result_vitesseConfig result)
    /\ (forall key : string,
          final !! key
          = match last (omap (fun newConfig : UserConfig => newConfig !! key)
                          (configUpdates
                             (completedCalls' pluginsUserConfig context
                                (parsedPlugins pluginsUserConfig)
                                (initialState vitesseUserConfig validated)))) with
            | Some v => Some v
            | None => vitesseUserConfig !! key
            end)
    /\ final !! "__proto__" = vitesseUserConfig !! "__proto__".
Proof.
  intros Hrun.
  destruct (VitesseConfigSchema vitesseUserConfig) as [validated|issues] eqn:Hvalid.
  - exists validated. eexists. split; [reflexivity|]. split; [reflexivity|].
    rewrite (PluginsFacts.runPlugins_validated _ _ _ _ _ _ _ _ _ Hvalid) in Hrun.
    pose proof (forEachPlugin_validated pluginsUserConfig context
                  (parsedPlugins pluginsUserConfig)
                  (initialState vitesseUserConfig validated) Hvalid) as Hinv.
    destruct (forEachPlugin_accumulates pluginsUserConfig context
                (parsedPlugins pluginsUserConfig)
                (initialState vitesseUserConfig validated)) as [_ Hu].
    destruct (forEachPlugin' _ _ _ _) as [[[]|e] s]; [|discriminate].
    destruct (_ && _); [discriminate|]. injection Hrun as <-.
    cbn [result_vitesseConfig snd userConfig initialState] in *.
    rewrite <- Hu. split; [exact Hinv|]. rewrite Hu. split.
    + intros key. apply mergeUpdates_lookup.
    + rewrite mergeUpdates_lookup. unfold completedCalls.
      rewrite parsed_updates_lack_proto by apply receivedCalls_parsed. reflexivity.
  - unfold runPlugins, parseWithFriendlyErrors in Hrun. rewrite Hvalid in Hrun.
    discriminate.
Qed.

(** X4: no sequence of setups changes the entry [plugins] of the
    working configuration: it is the same after the loop as before,
    whether the loop completes or a setup throws. *)
Theorem plugins_entry_is_never_updated
    (pluginsUserConfig : option (list (Plugin AstroIntegration Logger))) context
    (pluginsConfig : list (Plugin AstroIntegration Logger)) s :
  userConfig (forEachPlugin' pluginsUserConfig context pluginsConfig s).2 !! "plugins"
  = userConfig s !! "plugins".
Proof.
  revert s. induction pluginsConfig as [|p rest IH]; intros s; [reflexivity|].
  cbn [forEachPlugin]. unfold seq, runSetup.
  pose proof (execute_plugins_key (name p)
                (setup p (setupArgs fork pluginsUserConfig context (name p) s)) s) as Hp.
  destruct (execute' _ _ s) as [[[]|e] s1]; cbn [snd] in *.
  - rewrite IH. exact Hp.
  - exact Hp.
Qed.

(** X5: the host configuration shown to a plugin lists the host's
    integrations followed by those that the plugins before it added. *)
Theorem setup_sees_earlier_integrations
    (vitesseUserConfig : UserConfig)
    (pluginsUserConfig : option (list (Plugin AstroIntegration Logger))) context
    (validated : VitesseConfig)
    (before : list (Plugin AstroIntegration Logger)) p s1 :
  forEachPlugin' pluginsUserConfig context before (initialState vitesseUserConfig validated)
  = (Normal tt, s1) ->
  config_integrations
    (setup_astroConfig (setupArgs fork pluginsUserConfig context (name p) s1))
  = config_integrations (config context)
    ++ addedIntegrations
         (completedCalls' pluginsUserConfig context before
            (initialState vitesseUserConfig validated)).
Proof.
  intros Hbefore.
  destruct (forEachPlugin_accumulates pluginsUserConfig context before
              (initialState vitesseUserConfig validated)) as [Hi _].
  rewrite Hbefore in Hi. cbn [snd] in Hi.
  cbn [setupArgs setup_astroConfig config_integrations]. rewrite Hi. reflexivity.
Qed.

(** X6: when the setup of a plugin calls [updateConfig] with an object
    that makes the merged configuration invalid and does not catch the
    error, the run ends there with the validation error of that update,
    whose message names the plugin; the loop stops in the state it had
    before the call. *)
Theorem invalid_update_aborts_run
    (vitesseUserConfig : UserConfig)
    (pluginsUserConfig : option (list (Plugin AstroIntegration Logger))) context
    (validated : VitesseConfig)
    (before after : list (Plugin AstroIntegration Logger)) p
    (n : nat) (newConfig : UserConfig) (andThen : Completion unit -> Setup AstroIntegration)
    (issues : string) s1 s2 :
  VitesseConfigSchema vitesseUserConfig = inl validated ->
  parsedPlugins pluginsUserConfig = before ++ p :: after ->
  forEachPlugin' pluginsUserConfig context before (initialState vitesseUserConfig validated)
  = (Normal tt, s1) ->
  advance' (name p) n (setup p (setupArgs fork pluginsUserConfig context (name p) s1)) s1
  = (Invoke (UpdateConfig newConfig) andThen, s2) ->
  newConfig !! "plugins" = None ->
  VitesseConfigSchema (newConfig ∪ userConfig s2) = inr issues ->
  andThen (Throw (AstroError
                    ("Invalid config update provided by the '" +:+ name p +:+ "' plugin")
                    (Some issues)))
  = Raise (AstroError ("Invalid config update provided by the '" +:+ name p +:+ "' plugin")
             (Some issues)) ->
  runPlugins' vitesseUserConfig pluginsUserConfig context
  = Throw (AstroError ("Invalid config update provided by the '" +:+ name p +:+ "' plugin")
             (Some issues))
  /\ forEachPlugin' pluginsUserConfig context (before ++ p :: after)
       (initialState vitesseUserConfig validated)
     = (Throw (AstroError ("Invalid config update provided by the '" +:+ name p +:+ "' plugin")
                 (Some issues)),
        s2).
Proof.
  intros Hvalid Hlist Hbefore Hadvance Hkey Hinvalid Huncaught.
  assert (Hloop : forEachPlugin' pluginsUserConfig context (before ++ p :: after)
                    (initialState vitesseUserConfig validated)
                  = (Throw (AstroError
                              ("Invalid config update provided by the '" +:+ name p +:+ "' plugin")
                              (Some issues)), s2)).
  { apply (PluginsFacts.forEachPlugin_setup_throws _ _ _ _ _ _ _ _ _ _ _ _ _ _ Hbefore).
    rewrite (PluginsFacts.execute_advance _ _ _ _ _ _ _ _ _ Hadvance).
    cbn [execute perform]. unfold updateConfig, has_property.
    rewrite Hkey. rewrite bool_decide_eq_false_2 by (intros [? [=]]).
    change (inherited "plugins") with false. cbn [orb].
    unfold parseWithFriendlyErrors. rewrite Hinvalid, Huncaught. reflexivity. }
  split; [|exact Hloop].
  rewrite (PluginsFacts.runPlugins_validated _ _ _ _ _ _ _ _ _ Hvalid), Hlist, Hloop.
  reflexivity.
Qed.

End Runtime.

Lemma no_plugins_returns_initial_config_witness :
  Examples.prerender_schema MoreExamples.user_config = inl (mkVitesseConfig true [] None [])
  /\ runPlugins Examples.prerender_schema Examples.fork Examples.engine_message
       MoreExamples.user_config (Some []) Examples.static_build
     = Normal (mkRunResult [] (mkVitesseConfig true [] None []) ∅).
Proof.
  assert (Hvalid : Examples.prerender_schema MoreExamples.user_config
                   = inl (mkVitesseConfig true [] None []))
    by (vm_compute; reflexivity).
  split; [exact Hvalid|].
  apply (no_plugins_returns_initial_config Examples.prerender_schema string string
           Examples.fork Examples.engine_message MoreExamples.user_config (Some [])
           Examples.static_build (mkVitesseConfig true [] None []) Hvalid (or_intror eq_refl)).
Defined.

Lemma returned_integrations_in_call_order_witness :
  runPlugins Examples.prerender_schema Examples.fork Examples.engine_message
    MoreExamples.user_config
    (Some [Examples.sitemap; MoreExamples.retitle]) Examples.static_build
  = Normal (mkRunResult ["sitemap"; "mdx"] (mkVitesseConfig true [] None [])
              {[ "en" := {[ "sitemap.title" := "Sitemap" ]} ]})
  /\ exists validated,
       Examples.prerender_schema MoreExamples.user_config = inl validated
       /\ ["sitemap"; "mdx"]
          = addedIntegrations
              (completedCalls Examples.prerender_schema Examples.fork Examples.engine_message
                 (Some [Examples.sitemap; MoreExamples.retitle]) Examples.static_build
                 (parsedPlugins (Some [Examples.sitemap; MoreExamples.retitle]))
                 (initialState MoreExamples.user_config validated)).
Proof.
  assert (Hrun : runPlugins Examples.prerender_schema Examples.fork Examples.engine_message
                   MoreExamples.user_config
                   (Some [Examples.sitemap; MoreExamples.retitle]) Examples.static_build
                 = Normal (mkRunResult ["sitemap"; "mdx"] (mkVitesseConfig true [] None [])
                             {[ "en" := {[ "sitemap.title" := "Sitemap" ]} ]}))
    by (vm_compute; reflexivity).
  split; [exact Hrun|].
  apply (returned_integrations_in_call_order Examples.prerender_schema string string
           Examples.fork Examples.engine_message MoreExamples.user_config
           (Some [Examples.sitemap; MoreExamples.retitle]) Examples.static_build _ Hrun).
Defined.

(** The invalid update that [retrying] catches is not merged; its second
    update and the update of [ssr] are. *)
Lemma returned_config_validates_merged_updates_witness :
  runPlugins Examples.prerender_schema Examples.fork Examples.engine_message
    MoreExamples.user_config
    (Some [MoreExamples.retrying; Examples.ssr]) Examples.server_build
  = Normal (mkRunResult [] (mkVitesseConfig false [] None []) ∅)
  /\ exists validated (final : gmap string Value),
       Examples.prerender_schema MoreExamples.user_config = inl validated
       /\ final
          = mergeUpdates MoreExamples.user_config
              (configUpdates
                 (completedCalls Examples.prerender_schema Examples.fork
                    Examples.engine_message
                    (Some [MoreExamples.retrying; Examples.ssr]) Examples.server_build
                    (parsedPlugins (Some [MoreExamples.retrying; Examples.ssr]))
                    (initialState MoreExamples.user_config validated)))
       /\ Examples.prerender_schema final = inl (mkVitesseConfig false [] None []).
Proof.
  assert (Hrun : runPlugins Examples.prerender_schema Examples.fork Examples.engine_message
                   MoreExamples.user_config
                   (Some [MoreExamples.retrying; Examples.ssr]) Examples.server_build
                 = Normal (mkRunResult [] (mkVitesseConfig false [] None []) ∅))
    by (vm_compute; reflexivity).
  split; [exact Hrun|].
  destruct (returned_config_validates_merged_updates Examples.prerender_schema string string
              Examples.fork Examples.engine_message MoreExamples.user_config
              (Some [MoreExamples.retrying; Examples.ssr]) Examples.server_build _ Hrun)
    as (validated & final & Hvalid & Hfinal & Hschema & _).
  exists validated, final. auto.
Defined.

(** The merged configuration of [retitle] followed by [ssr]: the last
    title, the description of the first update, the user's language. *)
Example retitle_merges_shallowly :
  mergeUpdates MoreExamples.user_config
    [ {[ "title" := VString "Draft"; "description" := VString "Notes" ]};
      {[ "title" := VString "Final" ]};
      {[ "prerender" := VBool false ]} ]
  = {[ "title" := VString "Final"; "description" := VString "Notes";
       "lang" := VString "en"; "prerender" := VBool false ]}.
Proof. vm_compute. reflexivity. Qed.

(** The updates that the callbacks received in the run of [retrying] and
    [ssr], and those among them that returned. *)
Example caught_update_is_not_merged :
  (receivedCalls Examples.prerender_schema Examples.fork Examples.engine_message
     (Some [MoreExamples.retrying; Examples.ssr]) Examples.server_build
     (parsedPlugins (Some [MoreExamples.retrying; Examples.ssr]))
     (initialState MoreExamples.user_config (mkVitesseConfig true [] None []))).*1
  = [ UpdateConfig Examples.invalid_update;
      UpdateConfig {[ "title" := VString "Kept" ]};
      UpdateConfig {[ "prerender" := VBool false ]} ]
  /\ configUpdates
       (completedCalls Examples.prerender_schema Examples.fork Examples.engine_message
          (Some [MoreExamples.retrying; Examples.ssr]) Examples.server_build
          (parsedPlugins (Some [MoreExamples.retrying; Examples.ssr]))
          (initialState MoreExamples.user_config (mkVitesseConfig true [] None [])))
     = [ {[ "title" := VString "Kept" ]}; {[ "prerender" := VBool false ]} ].
Proof. split; vm_compute; reflexivity. Qed.

Lemma setup_sees_earlier_integrations_witness :
  forEachPlugin Examples.prerender_schema Examples.fork Examples.engine_message
    (Some [Examples.sitemap; MoreExamples.retitle; Examples.ssr]) Examples.static_build
    (parsedPlugins (Some [Examples.sitemap; MoreExamples.retitle]))
    (initialState MoreExamples.user_config (mkVitesseConfig true [] None []))
  = (Normal tt,
     (forEachPlugin Examples.prerender_schema Examples.fork Examples.engine_message
        (Some [Examples.sitemap; MoreExamples.retitle; Examples.ssr]) Examples.static_build
        (parsedPlugins (Some [Examples.sitemap; MoreExamples.retitle]))
        (initialState MoreExamples.user_config (mkVitesseConfig true [] None []))).2)
  /\ config_integrations
       (setup_astroConfig
          (setupArgs Examples.fork
             (Some [Examples.sitemap; MoreExamples.retitle; Examples.ssr])
             Examples.static_build "ssr"
             (forEachPlugin Examples.prerender_schema Examples.fork Examples.engine_message
                (Some [Examples.sitemap; MoreExamples.retitle; Examples.ssr])
                Examples.static_build
                (parsedPlugins (Some [Examples.sitemap; MoreExamples.retitle]))
                (initialState MoreExamples.user_config (mkVitesseConfig true [] None []))).2))
     = [] ++ ["sitemap"; "mdx"].
Proof.
  assert (Hbefore : forEachPlugin Examples.prerender_schema Examples.fork
            Examples.engine_message
            (Some [Examples.sitemap; MoreExamples.retitle; Examples.ssr]) Examples.static_build
            (parsedPlugins (Some [Examples.sitemap; MoreExamples.retitle]))
            (initialState MoreExamples.user_config (mkVitesseConfig true [] None []))
          = (Normal tt,
             (forEachPlugin Examples.prerender_schema Examples.fork Examples.engine_message
                (Some [Examples.sitemap; MoreExamples.retitle; Examples.ssr])
                Examples.static_build
                (parsedPlugins (Some [Examples.sitemap; MoreExamples.retitle]))
                (initialState MoreExamples.user_config (mkVitesseConfig true [] None []))).2))
    by (vm_compute; reflexivity).
  split; [exact Hbefore|].
  refine (eq_trans
            (setup_sees_earlier_integrations Examples.prerender_schema string string
               Examples.fork Examples.engine_message MoreExamples.user_config
               (Some [Examples.sitemap; MoreExamples.retitle; Examples.ssr])
               Examples.static_build (mkVitesseConfig true [] None [])
               (parsedPlugins (Some [Examples.sitemap; MoreExamples.retitle]))
               (vitessePluginSchema Examples.ssr) _ Hbefore) _).
  vm_compute. reflexivity.
Defined.

Lemma invalid_update_aborts_run_witness :
  Examples.prerender_schema MoreExamples.user_config = inl (mkVitesseConfig true [] None [])
  /\ Examples.invalid_update !! "plugins" = None
  /\ runPlugins Examples.prerender_schema Examples.fork Examples.engine_message
       MoreExamples.user_config
       (Some [Examples.sitemap; MoreExamples.broken; Examples.ssr]) Examples.server_build
     = Throw (AstroError "Invalid config update provided by the 'broken' plugin"
                (Some "prerender: Expected boolean")).
Proof.
  pose (plugins := Some [Examples.sitemap; MoreExamples.broken; Examples.ssr]).
  pose (s1 := (forEachPlugin Examples.prerender_schema Examples.fork Examples.engine_message
                 plugins Examples.server_build [vitessePluginSchema Examples.sitemap]
                 (initialState MoreExamples.user_config (mkVitesseConfig true [] None []))).2).
  pose (s2 := (perform Examples.prerender_schema Examples.engine_message "broken"
                 (AddIntegration "kept") s1).2).
  pose (andThen := fun completion : Completion unit =>
                     wrapped match completion with
                             | Normal _ => uncaught [AddIntegration "unreached"]
                             | Throw e => Raise e
                             end).
  assert (Hvalid : Examples.prerender_schema MoreExamples.user_config
                   = inl (mkVitesseConfig true [] None []))
    by (vm_compute; reflexivity).
  assert (Hbefore : forEachPlugin Examples.prerender_schema Examples.fork
                      Examples.engine_message plugins Examples.server_build
                      [vitessePluginSchema Examples.sitemap]
                      (initialState MoreExamples.user_config (mkVitesseConfig true [] None []))
                    = (Normal tt, s1))
    by (vm_compute; reflexivity).
  assert (Hadvance : advance Examples.prerender_schema Examples.engine_message "broken" 1
                       (setup (vitessePluginSchema MoreExamples.broken)
                          (setupArgs Examples.fork plugins Examples.server_build "broken" s1))
                       s1
                     = (Invoke (UpdateConfig (z_record_any Examples.invalid_update)) andThen, s2))
    by reflexivity.
  assert (Hkey : z_record_any Examples.invalid_update !! "plugins" = None)
    by (vm_compute; reflexivity).
  assert (Hinvalid : Examples.prerender_schema
                       (z_record_any Examples.invalid_update ∪ userConfig s2)
                     = inr "prerender: Expected boolean")
    by (vm_compute; reflexivity).
  split; [exact Hvalid|]. split; [vm_compute; reflexivity|].
  apply (proj1 (invalid_update_aborts_run Examples.prerender_schema string string
                  Examples.fork Examples.engine_message MoreExamples.user_config plugins
                  Examples.server_build (mkVitesseConfig true [] None [])
                  [vitessePluginSchema Examples.sitemap] [vitessePluginSchema Examples.ssr]
                  (vitessePluginSchema MoreExamples.broken) 1
                  (z_record_any Examples.invalid_update) andThen
                  "prerender: Expected boolean" s1 s2
                  Hvalid eq_refl Hbefore Hadvance Hkey Hinvalid eq_refl)).
Defined.

End RuntimeFacts.

(** ** One call of [injectTranslations] *)

Module InjectionFacts.
Import Js Config Plugins PluginCalls.


(** X8: a call of [injectTranslations] removes nothing, whether it returns
    or throws: a locale that has an entry keeps it, with all its keys.
    When the call returns, a key other than [__proto__] that the call gives
    a value for takes that value, and every other key keeps its value. *)
Theorem injecting_keeps_existing_translations {AstroIntegration : Type}
    (readOnlyMessage : string -> string -> string)
    (translations : Translations) (s : RunState AstroIntegration)
    (locale : string) (entry : gmap string string) :
  pluginTranslations s !! locale = Some entry ->
  exists entry' : gmap string string,
    pluginTranslations (injectTranslations readOnlyMessage translations s).2 !! locale
    = Some entry'
    /\ (forall key : string, is_Some (entry !! key) -> is_Some (entry' !! key))
    /\ ((injectTranslations readOnlyMessage translations s).1 = Normal tt ->
        forall key : string,
          key <> "__proto__" ->
          entry' !! key
          = match translation locale key translations with
            | Some v => Some v
            | None => entry !! key
            end).
Proof.
  intros Hentry.
  destruct (TranslationFacts.injectEntries_keeps readOnlyMessage translations
              (pluginTranslations s) locale entry Hentry) as (entry' & Hentry' & Hkeys).
  unfold injectTranslations.
  destruct (injectEntries readOnlyMessage (pluginTranslations s) translations)
    as [completion table] eqn:Hcall.
  cbn [fst snd pluginTranslations] in *.
  exists entry'. split; [exact Hentry'|]. split; [exact Hkeys|].
  intros -> key Hkey.
  pose proof (TranslationFacts.injectEntries_lookup readOnlyMessage _ _ _ locale Hcall)
    as Hlookup.
  rewrite Hentry, Hentry' in Hlookup. cbn [merged] in Hlookup. injection Hlookup as ->.
  rewrite TranslationFacts.Object_assign_lookup.
  rewrite (proj2 (String.eqb_neq key "__proto__") Hkey). reflexivity.
Qed.

Lemma injecting_keeps_existing_translations_witness :
  pluginTranslations
    (mkRunState (AstroIntegration := string) ∅ (mkVitesseConfig true [] None []) []
       {[ "en" := {[ "greeting" := "Hello"; "farewell" := "Bye" ]} ]}) !! "en"
  = Some {[ "greeting" := "Hello"; "farewell" := "Bye" ]}
  /\ exists entry' : gmap string string,
       pluginTranslations
         (injectTranslations Examples.engine_message
            [ ("en", [ ("greeting", "Hi") ]); ("fr", [ ("greeting", "Salut") ]) ]
            (mkRunState (AstroIntegration := string) ∅ (mkVitesseConfig true [] None []) []
               {[ "en" := {[ "greeting" := "Hello"; "farewell" := "Bye" ]} ]})).2 !! "en"
       = Some entry'
       /\ entry' !! "farewell" = Some "Bye" /\ entry' !! "greeting" = Some "Hi".
Proof.
  assert (Hentry : pluginTranslations
                     (mkRunState (AstroIntegration := string) ∅
                        (mkVitesseConfig true [] None []) []
                        {[ "en" := {[ "greeting" := "Hello"; "farewell" := "Bye" ]} ]}) !! "en"
                   = Some {[ "greeting" := "Hello"; "farewell" := "Bye" ]})
    by (vm_compute; reflexivity).
  split; [exact Hentry|].
  destruct (injecting_keeps_existing_translations Examples.engine_message
              [ ("en", [ ("greeting", "Hi") ]); ("fr", [ ("greeting", "Salut") ]) ]
              _ "en" _ Hentry) as (entry' & Hlookup & _ & Hkeys).
  exists entry'. split; [exact Hlookup|]. split.
  - rewrite (Hkeys eq_refl "farewell") by discriminate. vm_compute. reflexivity.
  - rewrite (Hkeys eq_refl "greeting") by discriminate. vm_compute. reflexivity.
Defined.

(** A call whose second locale cannot be assigned throws after the first
    locale was merged; the third is not reached. *)
Example refused_assignment_ends_the_call :
  injectTranslations Examples.engine_message
    [ ("en", [ ("greeting", "Hi") ]);
      ("toString", [ ("title", "x"); ("length", "1") ]);
      ("fr", [ ("greeting", "Salut") ]) ]
    (mkRunState (AstroIntegration := string) ∅ (mkVitesseConfig true [] None []) [] ∅)
  = (Throw (TypeError (Examples.engine_message "toString" "length")),
     mkRunState ∅ (mkVitesseConfig true [] None []) [] {[ "en" := {[ "greeting" := "Hi" ]} ]}).
Proof. vm_compute. reflexivity. Qed.

(** The copy that the argument check makes has no key [__proto__], so that
    the table gets none. *)
Example proto_keys_are_dropped :
  z_record_of_records
    [ ("__proto__", [ ("greeting", "Hi") ]); ("en", [ ("__proto__", "x"); ("greeting", "Hi") ]) ]
  = [ ("en", [ ("greeting", "Hi") ]) ]
  /\ (injectEntries Examples.engine_message ∅ [ ("en", [ ("__proto__", "x"); ("greeting", "Hi") ]) ]).2
     = {[ "en" := {[ "greeting" := "Hi" ]} ]}.
Proof. split; vm_compute; reflexivity. Qed.

(** The fragments of [greeting-en] and [greeting-override], with a fragment
    for the locale [constructor] between them. *)
Lemma injected_fragments_merge_witness :
  injectEach Examples.engine_message ∅
    [ [ ("en", [ ("greeting", "Hello"); ("farewell", "Bye") ]) ];
      [ ("constructor", [ ("greeting", "Hello") ]) ];
      [ ("en", [ ("greeting", "Hi") ]); ("fr", [ ("greeting", "Salut") ]) ] ]
  = (Normal tt,
     {[ "en" := {[ "greeting" := "Hi"; "farewell" := "Bye" ]};
        "fr" := {[ "greeting" := "Salut" ]} ]})
  /\ lastTranslation "en" "greeting"
       [ [ ("en", [ ("greeting", "Hello"); ("farewell", "Bye") ]) ];
         [ ("constructor", [ ("greeting", "Hello") ]) ];
         [ ("en", [ ("greeting", "Hi") ]); ("fr", [ ("greeting", "Salut") ]) ] ]
     = Some "Hi"
  /\ forall entry : gmap string string,
       ({[ "en" := {[ "greeting" := "Hi"; "farewell" := "Bye" ]};
           "fr" := {[ "greeting" := "Salut" ]} ]} : PluginTranslations) !! "en" = Some entry ->
       entry !! "greeting" = Some "Hi".
Proof.
  assert (Hrun : injectEach Examples.engine_message ∅
            [ [ ("en", [ ("greeting", "Hello"); ("farewell", "Bye") ]) ];
              [ ("constructor", [ ("greeting", "Hello") ]) ];
              [ ("en", [ ("greeting", "Hi") ]); ("fr", [ ("greeting", "Salut") ]) ] ]
          = (Normal tt,
             {[ "en" := {[ "greeting" := "Hi"; "farewell" := "Bye" ]};
                "fr" := {[ "greeting" := "Salut" ]} ]}))
    by (vm_compute; reflexivity).
  split; [exact Hrun|]. split; [vm_compute; reflexivity|].
  intros entry Hentry.
  rewrite (proj2 (proj2 (TranslationFacts.injected_fragments_merge Examples.engine_message
                           _ _ Hrun "en") entry Hentry) "greeting") by discriminate.
  vm_compute. reflexivity.
Defined.

Lemma runPlugins_translations_witness :
  runPlugins Examples.prerender_schema Examples.fork Examples.engine_message ∅
    (Some [Examples.greeting_en; Examples.greeting_override]) Examples.server_build
  = Normal (mkRunResult [] (mkVitesseConfig true [] None [])
              {[ "en" := {[ "greeting" := "Hi"; "farewell" := "Bye" ]};
                 "fr" := {[ "greeting" := "Salut" ]} ]})
  /\ exists validated,
       Examples.prerender_schema ∅ = inl validated
       /\ ({[ "en" := {[ "greeting" := "Hi"; "farewell" := "Bye" ]};
              "fr" := {[ "greeting" := "Salut" ]} ]} : PluginTranslations)
          = injectAll Examples.engine_message (∅ : PluginTranslations)
              (injectedFragments
                 (receivedCalls Examples.prerender_schema Examples.fork Examples.engine_message
                    (Some [Examples.greeting_en; Examples.greeting_override])
                    Examples.server_build
                    (parsedPlugins (Some [Examples.greeting_en; Examples.greeting_override]))
                    (initialState ∅ validated)).*1).
Proof.
  assert (Hrun : runPlugins Examples.prerender_schema Examples.fork Examples.engine_message ∅
                   (Some [Examples.greeting_en; Examples.greeting_override])
                   Examples.server_build
                 = Normal (mkRunResult [] (mkVitesseConfig true [] None [])
                             {[ "en" := {[ "greeting" := "Hi"; "farewell" := "Bye" ]};
                                "fr" := {[ "greeting" := "Salut" ]} ]}))
    by (vm_compute; reflexivity).
  split; [exact Hrun|].
  apply (TranslationFacts.runPlugins_translations Examples.prerender_schema string string
           Examples.fork Examples.engine_message ∅
           (Some [Examples.greeting_en; Examples.greeting_override])
           Examples.server_build _ Hrun).
Defined.

End InjectionFacts.

(** ** The names and texts of the registry *)

Module RegistryNames.
Import Js Config VirtualModules.

Lemma fromEntries_is_Some {V} (entries : list (string * V)) (k : string) (v : V) :
  (k, v) ∈ entries -> is_Some (fromEntries entries !! k).
Proof.
  induction entries as [|[k' v'] entries IH] using rev_ind; intros Hin.
  - inversion Hin.
  - rewrite RegistryFacts.fromEntries_snoc. apply elem_of_app in Hin as [Hin|Hin].
    + destruct (decide (k' = k)) as [->|Hne].
      * rewrite lookup_insert_eq. eauto.
      * rewrite lookup_insert_ne by exact Hne. now apply IH.
    + apply list_elem_of_singleton in Hin as [= -> ->]. rewrite lookup_insert_eq. eauto.
Qed.

Section Registry.

Variable URL : Type.
Variable fileURLToPath : URL -> string.
Variable path_resolve : string -> string -> string.
Variable PluginTranslations : Type.
Variable stringify_config : VitesseConfig -> string.
Variable stringify_context : string -> URL -> URL -> string -> string.
Variable stringify_translations : PluginTranslations -> string.
Variable opts : VitesseConfig.
Variable build_format : string.
Variable root : URL.
Variable srcDir : URL.
Variable trailingSlash : string.
Variable pluginTranslations : PluginTranslations.

Local Abbreviation modules' :=
  (modules URL fileURLToPath path_resolve PluginTranslations stringify_config
     stringify_context stringify_translations opts build_format root srcDir trailingSlash
     pluginTranslations).
Local Abbreviation resolutionMap' :=
  (resolutionMap URL fileURLToPath path_resolve PluginTranslations stringify_config
     stringify_context stringify_translations opts build_format root srcDir trailingSlash
     pluginTranslations).
Local Abbreviation plugin_resolveId' :=
  (plugin_resolveId URL fileURLToPath path_resolve PluginTranslations stringify_config
     stringify_context stringify_translations opts build_format root srcDir trailingSlash
     pluginTranslations).
Local Abbreviation plugin_load' :=
  (plugin_load URL fileURLToPath path_resolve PluginTranslations stringify_config
     stringify_context stringify_translations opts build_format root srcDir trailingSlash
     pluginTranslations).
Local Abbreviation components' :=
  (virtualComponentModules URL fileURLToPath path_resolve opts root).
Local Abbreviation resolveId' := (resolveId URL fileURLToPath path_resolve root).

Lemma component_names (n text : string) :
  components' !! n = Some text ->
  exists entry, entry ∈ components opts /\ n = "virtual:vitesse/components/" +:+ entry.1.
Proof.
  intros Hn. unfold virtualComponentModules in Hn.
  apply RegistryFacts.fromEntries_lookup_Some in Hn.
  apply list_elem_of_fmap in Hn as (entry & [= -> _] & Hin). eauto.
Qed.

Lemma component_name_prefix (name : string) :
  String.prefix "virtual:vitesse/components/" ("virtual:vitesse/components/" +:+ name) = true.
Proof. apply RegistryFacts.prefix_append. Qed.

Lemma fixed_is_no_component (n : string) :
  String.prefix "virtual:vitesse/components/" n = false -> components' !! n = None.
Proof.
  intros Hn. destruct (components' !! n) as [text|] eqn:Hc; [|reflexivity].
  apply component_names in Hc as (entry & _ & ->).
  rewrite component_name_prefix in Hn. discriminate.
Qed.

Local Abbreviation fixedModules :=
  (fromEntries
    [ ("virtual:vitesse/user-config", "export default " +:+ stringify_config opts);
      ("virtual:vitesse/project-context",
       "export default " +:+ stringify_context build_format root srcDir trailingSlash);
      ("virtual:vitesse/user-css",
       String.concat "" (map (fun id => "import " +:+ resolveId' id None +:+ ";") (customCss opts)));
      ("virtual:vitesse/user-images",
       userImagesModule URL fileURLToPath path_resolve opts root);
      ("virtual:vitesse/collection-config",
       collectionConfigModule URL fileURLToPath path_resolve root srcDir);
      ("virtual:vitesse/plugin-translations",
       "export default " +:+ stringify_translations pluginTranslations) ]).

Lemma modules_fixed (n : string) :
  String.prefix "virtual:vitesse/components/" n = false ->
  modules' !! n = fixedModules !! n.
Proof.
  intros Hn. unfold modules. rewrite lookup_union_r; [reflexivity|].
  now apply fixed_is_no_component.
Qed.

(** X19: whatever components are configured, the registry holds the six
    fixed modules with their own text: a component override cannot take
    the place of one of them. *)
Theorem fixed_modules_are_never_shadowed :
  modules' !! "virtual:vitesse/user-config"
  = Some ("export default " +:+ stringify_config opts)
  /\ modules' !! "virtual:vitesse/project-context"
     = Some ("export default " +:+ stringify_context build_format root srcDir trailingSlash)
  /\ modules' !! "virtual:vitesse/user-css"
     = Some (String.concat ""
               (map (fun id => "import " +:+ resolveId' id None +:+ ";") (customCss opts)))
  /\ modules' !! "virtual:vitesse/user-images"
     = Some (userImagesModule URL fileURLToPath path_resolve opts root)
  /\ modules' !! "virtual:vitesse/collection-config"
     = Some (collectionConfigModule URL fileURLToPath path_resolve root srcDir)
  /\ modules' !! "virtual:vitesse/plugin-translations"
     = Some ("export default " +:+ stringify_translations pluginTranslations).
Proof.
  repeat split; (rewrite modules_fixed by reflexivity); reflexivity.
Qed.

(** X18: the names of the registry are the six fixed names and, for
    every configured component, [virtual:vitesse/components/] followed by
    the name of the component; there is no other. *)
Theorem registry_names (n : string) :
  is_Some (modules URL fileURLToPath path_resolve PluginTranslations stringify_config
             stringify_context stringify_translations opts build_format root srcDir
             trailingSlash pluginTranslations !! n)
  <-> n ∈ [ "virtual:vitesse/user-config"; "virtual:vitesse/project-context";
            "virtual:vitesse/user-css"; "virtual:vitesse/user-images";
            "virtual:vitesse/collection-config"; "virtual:vitesse/plugin-translations" ]
      \/ exists entry, entry ∈ components opts
                       /\ n = "virtual:vitesse/components/" +:+ entry.1.
Proof.
  split.
  - intros [text Hn]. unfold modules in Hn.
    apply lookup_union_Some_raw in Hn as [Hn | [_ Hn]].
    + right. now apply component_names in Hn.
    + left. apply RegistryFacts.fromEntries_lookup_Some in Hn.
      apply (list_elem_of_fmap_2 fst) in Hn. exact Hn.
  - intros [Hfixed | (entry & Hin & ->)].
    + rewrite modules_fixed.
      * repeat (apply elem_of_cons in Hfixed as [->|Hfixed]; [eexists; reflexivity|]).
        inversion Hfixed.
      * repeat (apply elem_of_cons in Hfixed as [->|Hfixed]; [reflexivity|]).
        inversion Hfixed.
    + unfold modules. apply lookup_union_is_Some. left.
      unfold virtualComponentModules.
      apply (fromEntries_is_Some _ _
               ("export { default } from " +:+ resolveId' entry.2 None +:+ ";")).
      apply list_elem_of_fmap. exists entry. split; [reflexivity | exact Hin].
Qed.

(** X20: [load] returns the text of a module exactly for the prefixed
    form of the module's name, and it never returns a value that the
    registry inherits from [Object.prototype]. *)
Theorem load_answers_only_for_prefixed_names (id : string) :
  (forall text : string,
     plugin_load' id = OwnValue text
     <-> exists n, id = resolveVirtualModuleId n /\ modules' !! n = Some text)
  /\ (forall k : string, plugin_load' id <> InheritedValue k).
Proof.
  split.
  - intros text. rewrite RegistryFacts.plugin_load_answers. split.
    + destruct (resolutionMap' !! id) as [n|] eqn:Hid; [|discriminate].
      apply RegistryFacts.resolutionMap_lookup in Hid as [-> _].
      destruct (modules' !! n) as [text'|] eqn:Hn; [|discriminate].
      intros [= ->]. eauto.
    + intros (n & -> & Hn).
      rewrite (proj2 (RegistryFacts.resolutionMap_lookup _ _ _ _ _ _ _ _ _ _ _ _ _ _ n)
                 (conj eq_refl (ex_intro _ text Hn))), Hn.
      reflexivity.
  - intros k. rewrite RegistryFacts.plugin_load_answers.
    destruct (resolutionMap' !! id) as [n|]; [|discriminate].
    destruct (modules' !! n); discriminate.
Qed.

(** X21: round trip.  For a name [n] of the registry, [resolveId(n)] is the
    prefixed name, and [load] of it returns the text registered under
    [n]. *)
Theorem registered_module_loads_under_its_resolved_id (n text : string) :
  modules' !! n = Some text ->
  plugin_resolveId' n = Some (resolveVirtualModuleId n)
  /\ plugin_load' (resolveVirtualModuleId n) = OwnValue text.
Proof.
  intros Hn. split.
  - apply RegistryFacts.plugin_resolveId_answers. split; [reflexivity|]. left. eauto.
  - apply RegistryFacts.plugin_load_text. eauto.
Qed.

(** X22: the prefix keeps requests and resolved ids apart.  [resolveId]
    answers for no id that starts with the prefix, and [load] answers for
    no id that does not. *)
Theorem prefix_separates_requests_from_resolved_ids (id : string) :
  plugin_resolveId' (resolveVirtualModuleId id) = None
  /\ (String.prefix (resolveVirtualModuleId "") id = false -> plugin_load' id = Undefined).
Proof.
  split.
  - destruct (plugin_resolveId' (resolveVirtualModuleId id)) as [r|] eqn:Hr; [|reflexivity].
    apply RegistryFacts.plugin_resolveId_answers in Hr as [_ [Hown | Hinherited]].
    + apply RegistryFacts.modules_names in Hown. discriminate.
    + rewrite RegistryFacts.prefixed_not_inherited in Hinherited. discriminate.
  - intros Hid. rewrite RegistryFacts.plugin_load_answers.
    destruct (resolutionMap' !! id) as [n|] eqn:Hn; [|reflexivity].
    apply RegistryFacts.resolutionMap_lookup in Hn as [-> _].
    unfold resolveVirtualModuleId in Hid. cbn in Hid. destruct n; discriminate.
Qed.

End Registry.

End RegistryNames.

(** ** Strings *)

Module StringFacts.
Import Js LiteralFacts.

Lemma length_append (a b : string) :
  String.length (a +:+ b) = String.length a + String.length b.
Proof.
  induction a as [|c a IH]; [reflexivity|].
  rewrite append_cons. cbn [String.length]. rewrite IH. reflexivity.
Qed.

Lemma concat_cons (sep x : string) (xs : list string) :
  xs <> [] -> String.concat sep (x :: xs) = x +:+ sep +:+ String.concat sep xs.
Proof. destruct xs; [contradiction | reflexivity]. Qed.

Lemma concat_empty_cons (x : string) (xs : list string) :
  String.concat "" (x :: xs) = x +:+ String.concat "" xs.
Proof.
  destruct xs; [cbn [String.concat]; now rewrite append_empty_r | reflexivity].
Qed.

Lemma append_inj_l (p a b : string) : p +:+ a = p +:+ b -> a = b.
Proof.
  induction p as [|c p IH]; [trivial|].
  rewrite !append_cons. intros [= H]. now apply IH.
Qed.

Lemma append_inj_r (a b sfx : string) : a +:+ sfx = b +:+ sfx -> a = b.
Proof.
  revert b. induction a as [|c a IH]; intros [|d b] H.
  - reflexivity.
  - apply (f_equal String.length) in H.
    change ("" +:+ sfx) with sfx in H.
    rewrite append_cons in H. cbn [String.length] in H.
    rewrite length_append in H. lia.
  - apply (f_equal String.length) in H.
    change ("" +:+ sfx) with sfx in H.
    rewrite append_cons in H. cbn [String.length] in H.
    rewrite length_append in H. lia.
  - rewrite !append_cons in H. injection H as -> H. f_equal. now apply IH.
Qed.

Lemma substring_prefix (a b : string) : substring 0 (String.length a) (a +:+ b) = a.
Proof.
  induction a as [|c a IH]; [destruct b; reflexivity|].
  rewrite append_cons. cbn [String.length substring]. now rewrite IH.
Qed.

Lemma substring_skip (a b : string) (m : nat) :
  substring (String.length a) m (a +:+ b) = substring 0 m b.
Proof.
  induction a as [|c a IH]; [reflexivity|].
  rewrite append_cons. cbn [String.length substring]. exact IH.
Qed.

Lemma substring_all (s : string) : substring 0 (String.length s) s = s.
Proof.
  induction s as [|c s IH]; [reflexivity|].
  cbn [String.length substring]. now rewrite IH.
Qed.

Lemma substring_split (s : string) (k : nat) :
  k <= String.length s ->
  substring 0 k s +:+ substring k (String.length s - k) s = s.
Proof.
  revert k. induction s as [|c s IH]; intros k Hk.
  - cbn [String.length] in Hk. assert (k = 0) as -> by lia. reflexivity.
  - destruct k as [|k].
    + cbn [substring]. change (String.length (String c s) - 0) with (S (String.length s)).
      cbn [substring append]. now rewrite substring_all.
    + cbn [String.length] in *. cbn [substring Nat.sub].
      rewrite append_cons. f_equal. apply IH. lia.
Qed.

(** [s.endsWith(suffix)] holds exactly when [s] is some text followed by
    [suffix], and [slice] then gives that text. *)
Lemma endsWith_append (p suffix : string) : endsWith suffix (p +:+ suffix) = true.
Proof.
  unfold endsWith. rewrite length_append.
  replace (String.length p + String.length suffix - String.length suffix)
    with (String.length p) by lia.
  rewrite substring_skip, substring_all, String.eqb_refl.
  rewrite andb_true_r. apply Nat.leb_le. lia.
Qed.

Lemma endsWith_inv (suffix s : string) :
  endsWith suffix s = true -> s = slice_to_minus (String.length suffix) s +:+ suffix.
Proof.
  unfold endsWith, slice_to_minus. intros H.
  apply andb_true_iff in H as [Hlen Heq].
  apply Nat.leb_le in Hlen. apply String.eqb_eq in Heq.
  pose proof (substring_split s (String.length s - String.length suffix)) as Hsplit.
  replace (String.length s - (String.length s - String.length suffix))
    with (String.length suffix) in Hsplit by lia.
  rewrite Heq in Hsplit. symmetry. apply Hsplit. lia.
Qed.

Lemma slice_append (p suffix : string) :
  slice_to_minus (String.length suffix) (p +:+ suffix) = p.
Proof.
  unfold slice_to_minus. rewrite length_append.
  replace (String.length p + String.length suffix - String.length suffix)
    with (String.length p) by lia.
  apply substring_prefix.
Qed.

End StringFacts.

(** ** The texts of the style-sheet and component modules *)

Module RegistryTexts.
Import Js Config VirtualModules LiteralFacts StringFacts.

Section Registry.

Variable URL : Type.
Variable fileURLToPath : URL -> string.
Variable path_resolve : string -> string -> string.
Variable PluginTranslations : Type.
Variable stringify_config : VitesseConfig -> string.
Variable stringify_context : string -> URL -> URL -> string -> string.
Variable stringify_translations : PluginTranslations -> string.
Variable opts : VitesseConfig.
Variable build_format : string.
Variable root : URL.
Variable srcDir : URL.
Variable trailingSlash : string.
Variable pluginTranslations : PluginTranslations.

Local Abbreviation modules' :=
  (modules URL fileURLToPath path_resolve PluginTranslations stringify_config
     stringify_context stringify_translations opts build_format root srcDir trailingSlash
     pluginTranslations).
Local Abbreviation resolveId' := (resolveId URL fileURLToPath path_resolve root).
Local Abbreviation referenced id :=
  (if String.prefix "." id%string then path_resolve (fileURLToPath root) id%string
   else id%string).

Lemma readBareImport_statement (id rest : string) :
  SourceText.readBareImport (("import " +:+ resolveId' id None +:+ ";") +:+ rest)
  = Some (referenced id, rest).
Proof.
  unfold SourceText.readBareImport.
  change (("import " +:+ resolveId' id None +:+ ";") +:+ rest)
    with ("import " +:+ ((resolveId' id None +:+ ";") +:+ rest)).
  change (ModuleText.strip "import " ("import " +:+ ?s)) with (Some s).
  cbn [mbind option_bind]. rewrite append_assoc.
  unfold resolveId. rewrite readStringLiteral_JSON_stringify.
  cbn [mbind option_bind]. reflexivity.
Qed.

Lemma readBareImports_statements (ids : list string) (fuel : nat) :
  length ids < fuel ->
  SourceText.readBareImports fuel
    (String.concat "" (map (fun id => "import " +:+ resolveId' id None +:+ ";") ids))
  = Some (map (fun id => referenced id) ids).
Proof.
  revert fuel. induction ids as [|id ids IH]; intros fuel Hfuel.
  - destruct fuel; [cbn in Hfuel; lia | reflexivity].
  - destruct fuel as [|fuel]; [cbn in Hfuel; lia|].
    cbn [map]. rewrite concat_empty_cons.
    cbn [SourceText.readBareImports].
    change ("import " +:+ resolveId' id None +:+ ";")
      with (String "i" ("mport " +:+ resolveId' id None +:+ ";")) at 1.
    rewrite append_cons.
    change (String "i" (("mport " +:+ resolveId' id None +:+ ";") +:+ ?r))
      with (("import " +:+ resolveId' id None +:+ ";") +:+ r).
    rewrite readBareImport_statement. cbn [mbind option_bind].
    rewrite IH by (cbn [length] in Hfuel; lia). reflexivity.
Qed.

Lemma statements_length (ids : list string) :
  length ids
  <= String.length
       (String.concat "" (map (fun id => "import " +:+ resolveId' id None +:+ ";") ids)).
Proof.
  induction ids as [|id ids IH]; [cbn; lia|].
  cbn [map]. rewrite concat_empty_cons, length_append.
  change ("import " +:+ resolveId' id None +:+ ";")
    with (String "i" ("mport " +:+ resolveId' id None +:+ ";")).
  cbn [String.length length]. lia.
Qed.

(** X23: the user-css module consists of one import for each configured
    style sheet, in the configured order; each import names the style sheet
    itself, or its resolution against the project root when it starts with
    a dot. *)
Theorem user_css_imports_every_style_sheet :
  exists text : string,
    modules' !! "virtual:vitesse/user-css" = Some text
    /\ SourceText.readImportsOnly text
       = Some (map (fun id => referenced id) (customCss opts)).
Proof.
  exists (String.concat ""
            (map (fun id => "import " +:+ resolveId' id None +:+ ";") (customCss opts))).
  split.
  - rewrite RegistryNames.modules_fixed by reflexivity. reflexivity.
  - unfold SourceText.readImportsOnly. apply readBareImports_statements.
    apply Nat.lt_succ_r, statements_length.
Qed.

Lemma component_key_injective : Inj eq eq (fun name => "virtual:vitesse/components/" +:+ name).
Proof. intros a b H. now apply append_inj_l in H. Qed.

(** X24: for a component override [name] with the path [path], the
    registry holds the module [virtual:vitesse/components/name], which
    re-exports the default export of [path] itself, or of its resolution
    against the project root when it starts with a dot. *)
Theorem component_module_reexports_override (name path : string) :
  NoDup (components opts).*1 ->
  (name, path) ∈ components opts ->
  exists text : string,
    modules' !! ("virtual:vitesse/components/" +:+ name) = Some text
    /\ SourceText.readReexport text = Some (referenced path).
Proof.
  intros Hnodup Hin.
  exists ("export { default } from " +:+ resolveId' path None +:+ ";"). split.
  - unfold modules. apply lookup_union_Some_l. unfold virtualComponentModules.
    apply RegistryFacts.fromEntries_lookup_NoDup.
    + assert (Hkeys : (map (fun entry : string * string =>
                              ("virtual:vitesse/components/" +:+ entry.1,
                               "export { default } from " +:+ resolveId' entry.2 None +:+ ";"))
                           (components opts)).*1
                      = (fun name => "virtual:vitesse/components/" +:+ name)
                        <$> (components opts).*1)
        by (rewrite <- !list_fmap_compose; reflexivity).
      rewrite Hkeys.
      apply (NoDup_fmap_2 _ (Inj0 := component_key_injective)), Hnodup.
    + apply list_elem_of_fmap. exists (name, path). split; [reflexivity | exact Hin].
  - unfold SourceText.readReexport.
    change (ModuleText.strip "export { default } from "
              ("export { default } from " +:+ ?s)) with (Some s).
    cbn [mbind option_bind]. unfold resolveId.
    rewrite readStringLiteral_JSON_stringify. reflexivity.
Qed.

End Registry.

Lemma component_module_reexports_override_witness :
  NoDup (components Examples.site).*1
  /\ ("Footer", "./src/components/Footer.astro") ∈ components Examples.site
  /\ exists text : string,
       Examples.site_modules !! "virtual:vitesse/components/Footer" = Some text
       /\ SourceText.readReexport text = Some "/proj/src/components/Footer.astro".
Proof.
  assert (Hnodup : NoDup (components Examples.site).*1)
    by (apply NoDup_singleton).
  assert (Hin : ("Footer", "./src/components/Footer.astro") ∈ components Examples.site)
    by (apply list_elem_of_singleton; reflexivity).
  split; [exact Hnodup|]. split; [exact Hin|].
  destruct (component_module_reexports_override string Examples.file_url_to_path
              Examples.posix_resolve unit (fun _ => "{}") (fun _ _ _ _ => "{}")
              (fun _ => "{}") Examples.site "directory" "file:///proj/" "file:///proj/src/"
              "ignore" tt "Footer" "./src/components/Footer.astro" Hnodup Hin)
    as (text & Hmodule & Hread).
  exists text. split; [exact Hmodule|].
  rewrite Hread. vm_compute. reflexivity.
Defined.

(** The user-css module of the example site is loaded under the id that
    [resolveId] gives for its name. *)
Lemma registered_module_loads_under_its_resolved_id_witness :
  Examples.site_modules !! "virtual:vitesse/user-css"
  = Some ("import " +:+ Literal.JSON_stringify "/proj/src/styles/a.css" +:+
          ";import " +:+ Literal.JSON_stringify "my-pkg/style.css" +:+ ";")
  /\ Examples.site_resolveId "virtual:vitesse/user-css"
     = Some (resolveVirtualModuleId "virtual:vitesse/user-css")
  /\ Examples.site_load (resolveVirtualModuleId "virtual:vitesse/user-css")
     = OwnValue ("import " +:+ Literal.JSON_stringify "/proj/src/styles/a.css" +:+
                 ";import " +:+ Literal.JSON_stringify "my-pkg/style.css" +:+ ";").
Proof.
  assert (Hmodule : Examples.site_modules !! "virtual:vitesse/user-css"
                    = Some ("import " +:+ Literal.JSON_stringify "/proj/src/styles/a.css" +:+
                            ";import " +:+ Literal.JSON_stringify "my-pkg/style.css" +:+ ";"))
    by (vm_compute; reflexivity).
  split; [exact Hmodule|].
  apply (RegistryNames.registered_module_loads_under_its_resolved_id
           string Examples.file_url_to_path
           Examples.posix_resolve unit (fun _ => "{}") (fun _ _ _ _ => "{}")
           (fun _ => "{}") Examples.site "directory" "file:///proj/" "file:///proj/src/"
           "ignore" tt "virtual:vitesse/user-css" _ Hmodule).
Defined.

End RegistryTexts.

(** ** What the translation loader reads *)

Module LoaderFacts.
Import Js TranslationLoader StringFacts.

Lemma mapM_Normal {A B} (f : A -> Completion B) (l : list A) (ys : list B) :
  mapM f l = Normal ys <-> Forall2 (fun x y => f x = Normal y) l ys.
Proof.
  revert ys. induction l as [|x l IH]; intros ys; cbn [mapM].
  - split; [intros [= <-]; constructor | intros H; inversion H; reflexivity].
  - destruct (f x) as [y|e] eqn:Hx; cbn [mbind Completion_bind].
    + destruct (mapM f l) as [ys'|e] eqn:Hl; cbn [mbind Completion_bind mret Completion_ret].
      * split.
        -- intros [= <-]. constructor; [exact Hx | now apply IH].
        -- intros H. inversion H as [|? y0 ? ys0 Hy Hrest]; subst.
           rewrite Hx in Hy. injection Hy as <-.
           apply IH in Hrest. injection Hrest as <-. reflexivity.
      * split; [discriminate|].
        intros H. inversion H as [|? y0 ? ys0 Hy Hrest]; subst.
        apply IH in Hrest. discriminate.
    + split; [discriminate|].
      intros H. inversion H as [|? y0 ? ys0 Hy Hrest]; subst. rewrite Hx in Hy. discriminate.
Qed.

Lemma mapM_total {A B} (f : A -> Completion B) (l : list A) :
  (forall x, x ∈ l -> exists y, f x = Normal y) -> exists ys, mapM f l = Normal ys.
Proof.
  induction l as [|x l IH]; intros Hall; cbn [mapM].
  - eexists. reflexivity.
  - destruct (Hall x) as [y Hy]; [left|]. rewrite Hy. cbn [mbind Completion_bind].
    destruct IH as [ys Hys]; [intros x' Hin; apply Hall; now right|].
    rewrite Hys. eexists. reflexivity.
Qed.

Lemma Forall2_results {A B} (P : A -> B -> Prop) (l : list A) (ys : list B) :
  Forall2 P l ys ->
  (forall y, y ∈ ys -> exists x, x ∈ l /\ P x y)
  /\ (forall x, x ∈ l -> exists y, y ∈ ys /\ P x y).
Proof.
  induction 1 as [|x y l ys Hxy _ [IH1 IH2]]; split.
  - intros y Hin. inversion Hin.
  - intros x Hin. inversion Hin.
  - intros y' Hin. apply elem_of_cons in Hin as [->|Hin].
    + exists x. split; [left | exact Hxy].
    + destruct (IH1 y' Hin) as (x' & Hx' & HP). exists x'. split; [now right | exact HP].
  - intros x' Hin. apply elem_of_cons in Hin as [->|Hin].
    + exists y. split; [left | exact Hxy].
    + destruct (IH2 x' Hin) as (y' & Hy' & HP). exists y'. split; [now right | exact HP].
Qed.

Section WithFileSystem.

Variable URL : Type.
Variable URL_new : string -> URL -> URL.
Variable readdirSync : URL -> Completion (list string).
Variable readFileSync : URL -> Completion string.
Variable JSON_parse : string -> Value + string.
Variables Opts PluginTable I18nFactory : Type.
Variable createTranslationSystem :
  Opts -> gmap string Value -> PluginTable -> I18nFactory.

Local Abbreviation tryBlock' := (tryBlock URL URL_new readdirSync readFileSync JSON_parse).
Local Abbreviation userTranslations' :=
  (userTranslations URL URL_new readdirSync readFileSync JSON_parse).
Local Abbreviation load' :=
  (createTranslationSystemFromFs URL URL_new readdirSync readFileSync JSON_parse
     Opts PluginTable I18nFactory createTranslationSystem).
Local Abbreviation loadEntry' := (loadEntry URL URL_new readFileSync JSON_parse).

Lemma loadEntry_Normal (i18nDir : URL) (file id : string) (data : Value) :
  loadEntry' i18nDir file = Normal (id, data)
  <-> id = slice_to_minus 5 file
      /\ exists text, readFileSync (URL_new file i18nDir) = Normal text
                      /\ JSON_parse text = inl data.
Proof.
  unfold loadEntry, parse_json.
  destruct (readFileSync (URL_new file i18nDir)) as [text|e]; cbn [mbind Completion_bind].
  - destruct (JSON_parse text) as [data'|msg] eqn:Hparse; cbn [mbind Completion_bind].
    + split.
      * intros [= <- <-]. split; [reflexivity|]. eauto.
      * intros [-> (text' & [= <-] & Hparse')]. rewrite Hparse in Hparse'.
        injection Hparse' as <-. reflexivity.
    + split; [discriminate|].
      intros [_ (text' & [= <-] & Hparse')]. rewrite Hparse in Hparse'. discriminate.
  - split; [discriminate|]. intros [_ (text' & [=] & _)].
Qed.

(** X26: what the loader throws is what the [try] block threw, and it
    is never an error with the code [ENOENT]. *)
Theorem loader_throws_only_other_errors (opts : Opts) (srcDir : URL)
    (pluginTranslations : PluginTable) (e : Thrown) :
  load' opts srcDir pluginTranslations = Throw e
  <-> tryBlock' srcDir = Throw e /\ is_ENOENT e = false.
Proof.
  unfold createTranslationSystemFromFs, userTranslations.
  destruct (tryBlock' srcDir) as [table|e'] eqn:Htry; cbn [mbind Completion_bind].
  - split; [discriminate | intros [[=] _]].
  - destruct (is_ENOENT e') eqn:He; cbn [mbind Completion_bind].
    + split; [discriminate|]. intros [[= ->] He']. rewrite He in He'. discriminate.
    + split.
      * intros [= ->]. auto.
      * intros [[= ->] _]. reflexivity.
Qed.

(** X27: when no name in the directory ends with [.json], no file is
    read: the on-disk table is empty whatever reading a file would give. *)
Theorem only_json_files_are_read (opts : Opts) (srcDir : URL)
    (pluginTranslations : PluginTable) (files : list string) :
  readdirSync (URL_new "content/i18n/" srcDir) = Normal files ->
  (forall file, file ∈ files -> endsWith ".json" file = false) ->
  load' opts srcDir pluginTranslations
  = Normal (createTranslationSystem opts ∅ pluginTranslations).
Proof.
  intros Hdir Hnone.
  unfold createTranslationSystemFromFs, userTranslations, tryBlock.
  rewrite Hdir. cbn [mbind Completion_bind].
  assert (Hfilter : filter (fun file => endsWith ".json" file = true) files = []).
  { clear Hdir. induction files as [|f files IH]; [reflexivity|].
    rewrite filter_cons. destruct (decide (endsWith ".json" f = true)) as [Hf|_].
    - rewrite (Hnone f) in Hf by left. discriminate.
    - apply IH. intros f' Hin. apply Hnone. now right. }
  rewrite Hfilter. reflexivity.
Qed.

(** X28: when every file of the directory whose name ends with [.json]
    can be read and parsed, the loader returns the system built from a
    table that has, for the file [id.json], the parsed content of the file
    under the key [id], and no other entry. *)
Theorem loaded_table_has_one_entry_per_locale_file (opts : Opts) (srcDir : URL)
    (pluginTranslations : PluginTable) (files : list string) :
  let i18nDir := URL_new "content/i18n/" srcDir in
  readdirSync i18nDir = Normal files ->
  NoDup files ->
  (forall file, file ∈ files -> endsWith ".json" file = true ->
     exists text data, readFileSync (URL_new file i18nDir) = Normal text
                       /\ JSON_parse text = inl data) ->
  exists table : gmap string Value,
    load' opts srcDir pluginTranslations
    = Normal (createTranslationSystem opts table pluginTranslations)
    /\ forall (id : string) (data : Value),
         table !! id = Some data
         <-> (id +:+ ".json") ∈ files
             /\ exists text, readFileSync (URL_new (id +:+ ".json") i18nDir) = Normal text
                             /\ JSON_parse text = inl data.
Proof.
  intros i18nDir Hdir Hnodup Hall.
  set (jsonFiles := filter (fun file => endsWith ".json" file = true) files).
  assert (Hjson : forall f, f ∈ jsonFiles <-> f ∈ files /\ endsWith ".json" f = true).
  { intros f. unfold jsonFiles. rewrite list_elem_of_filter. tauto. }
  destruct (mapM_total (loadEntry' i18nDir) jsonFiles) as [entries Hentries].
  { intros f Hf. apply Hjson in Hf as [Hf Hends].
    destruct (Hall f Hf Hends) as (text & data & Hread & Hparse).
    exists (slice_to_minus 5 f, data). apply loadEntry_Normal. eauto. }
  exists (fromEntries entries). split.
  - unfold createTranslationSystemFromFs, userTranslations, tryBlock. fold i18nDir.
    rewrite Hdir. cbn [mbind Completion_bind]. fold jsonFiles. rewrite Hentries. reflexivity.
  - apply mapM_Normal in Hentries.
    destruct (Forall2_results _ _ _ Hentries) as [Hfrom Hto].
    assert (Hkeys : entries.*1 = slice_to_minus 5 <$> jsonFiles).
    { clear -Hentries. induction Hentries as [|f [id data] l ys Hf _ IH]; [reflexivity|].
      apply loadEntry_Normal in Hf as [-> _]. cbn [fmap list_fmap] in *. now rewrite IH. }
    assert (Hdistinct : NoDup entries.*1).
    { rewrite Hkeys. apply NoDup_fmap_2_strong.
      - intros f g Hf Hg Heq. apply Hjson in Hf as [_ Hf]. apply Hjson in Hg as [_ Hg].
        rewrite (endsWith_inv _ _ Hf), (endsWith_inv _ _ Hg).
        change (String.length ".json") with 5. now rewrite Heq.
      - unfold jsonFiles. now apply NoDup_filter. }
    intros id data. split.
    + intros Hlookup. apply RegistryFacts.fromEntries_lookup_Some in Hlookup.
      destruct (Hfrom _ Hlookup) as (f & Hf & Hload).
      apply Hjson in Hf as [Hf Hends].
      apply loadEntry_Normal in Hload as [-> Hcontent].
      pose proof (endsWith_inv _ _ Hends) as Hname.
      change (String.length ".json") with 5 in Hname. rewrite <- Hname. auto.
    + intros [Hf (text & Hread & Hparse)].
      apply RegistryFacts.fromEntries_lookup_NoDup; [exact Hdistinct|].
      assert (Hin : (id +:+ ".json") ∈ jsonFiles)
        by (apply Hjson; split; [exact Hf | apply endsWith_append]).
      destruct (Hto _ Hin) as ([id' data'] & Hentry & Hload).
      apply loadEntry_Normal in Hload as [-> (text' & Hread' & Hparse')].
      rewrite Hread in Hread'. injection Hread' as <-.
      rewrite Hparse in Hparse'. injection Hparse' as <-.
      change 5 with (String.length ".json") in Hentry. rewrite slice_append in Hentry.
      exact Hentry.
Qed.

End WithFileSystem.

Lemma missing_directory_gives_empty_table_witness :
  Examples.absent_readdir (Examples.url_new "content/i18n/" "/site/src/")
  = Throw Examples.ENOENT
  /\ is_ENOENT Examples.ENOENT = true
  /\ createTranslationSystemFromFs string Examples.url_new Examples.absent_readdir
       MoreExamples.unreadable Examples.json_parse unit unit (gmap string Value)
       Examples.table_only tt "/site/src/" tt
     = Normal ∅.
Proof.
  split; [reflexivity|]. split; [reflexivity|].
  apply (TranslationLoaderFacts.missing_directory_gives_empty_table string Examples.url_new
           Examples.absent_readdir MoreExamples.unreadable Examples.json_parse
           unit unit (gmap string Value) Examples.table_only tt "/site/src/" tt
           Examples.ENOENT eq_refl eq_refl).
Defined.

Lemma malformed_json_propagates_witness :
  Examples.malformed_readdir (Examples.url_new "content/i18n/" "/site/src/")
  = Normal ["en.json"]
  /\ Examples.json_parse "{ hello" = inr "Unexpected token"
  /\ createTranslationSystemFromFs string Examples.url_new Examples.malformed_readdir
       Examples.malformed_readFile Examples.json_parse unit unit (gmap string Value)
       Examples.table_only tt "/site/src/" tt
     = Throw (SyntaxError "Unexpected token").
Proof.
  split; [reflexivity|]. split; [reflexivity|].
  apply (TranslationLoaderFacts.malformed_json_propagates string Examples.url_new
           Examples.malformed_readdir Examples.malformed_readFile Examples.json_parse
           unit unit (gmap string Value) Examples.table_only tt "/site/src/" tt
           ["en.json"] [] [] "en.json" "{ hello" "Unexpected token" []
           eq_refl eq_refl eq_refl eq_refl eq_refl).
Defined.

Lemma only_json_files_are_read_witness :
  MoreExamples.notes_readdir (Examples.url_new "content/i18n/" "/site/src/")
  = Normal ["notes.txt"; "README.md"]
  /\ createTranslationSystemFromFs string Examples.url_new MoreExamples.notes_readdir
       MoreExamples.unreadable Examples.json_parse unit unit (gmap string Value)
       Examples.table_only tt "/site/src/" tt
     = Normal ∅.
Proof.
  split; [reflexivity|].
  apply (only_json_files_are_read string Examples.url_new MoreExamples.notes_readdir
           MoreExamples.unreadable Examples.json_parse unit unit (gmap string Value)
           Examples.table_only tt "/site/src/" tt ["notes.txt"; "README.md"] eq_refl).
  intros file Hin.
  apply elem_of_cons in Hin as [->|Hin]; [reflexivity|].
  apply list_elem_of_singleton in Hin as ->. reflexivity.
Defined.

Lemma loaded_table_has_one_entry_per_locale_file_witness :
  MoreExamples.locale_readdir (Examples.url_new "content/i18n/" "/site/src/")
  = Normal ["en.json"; "fr.json"; "notes.txt"]
  /\ exists table : gmap string Value,
       createTranslationSystemFromFs string Examples.url_new MoreExamples.locale_readdir
         MoreExamples.locale_readFile MoreExamples.small_json_parse unit unit
         (gmap string Value) Examples.table_only tt "/site/src/" tt
       = Normal table
       /\ table !! "fr" = Some VNull.
Proof.
  assert (Hdir : MoreExamples.locale_readdir (Examples.url_new "content/i18n/" "/site/src/")
                 = Normal ["en.json"; "fr.json"; "notes.txt"]) by reflexivity.
  split; [exact Hdir|].
  assert (Hnodup : NoDup ["en.json"; "fr.json"; "notes.txt"]).
  { repeat (apply NoDup_cons; split; [intros Hin; repeat (apply elem_of_cons in Hin as [[=]|Hin]); inversion Hin|]).
    apply NoDup_nil_2. }
  destruct (loaded_table_has_one_entry_per_locale_file string Examples.url_new
              MoreExamples.locale_readdir MoreExamples.locale_readFile
              MoreExamples.small_json_parse unit unit (gmap string Value)
              Examples.table_only tt "/site/src/" tt ["en.json"; "fr.json"; "notes.txt"]
              Hdir Hnodup) as (table & Hload & Htable).
  - intros file Hin Hends.
    apply elem_of_cons in Hin as [->|Hin]; [exists "{}", (VObject []); split; reflexivity|].
    apply elem_of_cons in Hin as [->|Hin]; [exists "null", VNull; split; reflexivity|].
    apply list_elem_of_singleton in Hin as ->. discriminate Hends.
  - exists table. split; [exact Hload|].
    apply Htable. split.
    + right. left.
    + exists "null". split; reflexivity.
Defined.

End LoaderFacts.

(** ** Accepted navigation items *)

Module NavBarShape.
Import Js Zod NavBar.

(** A schema that returns the value it accepts, unchanged, and lets no
    exception escape. *)
Local Abbreviation plain schema :=
  (forall x, schema x = Valid x \/ schema x = Invalid).

Lemma plain_string : plain z_string.
Proof. intros []; auto. Qed.

Lemma plain_primitive : plain (z_union [z_string; z_number; z_boolean; z_undefined]).
Proof.
  intros [| |b|n|s|items|props]; auto.
  cbn. destruct (isNaN n); auto.
Qed.

Local Abbreviation notProto kv := (negb (String.eqb (fst kv) "__proto__")).

Lemma record_pairs (valueType : Schema) (props : list (string * Value)) :
  plain valueType ->
  mergeObject (map (fun kv => (kv.1, valueType kv.2, true)) props)
  = if forallb (fun kv => match valueType kv.2 with Valid _ => true | _ => false end) props
    then MValid (List.filter (fun kv => notProto kv) props)
    else MInvalid.
Proof.
  intros Hplain. induction props as [|[k x] props IH]; [reflexivity|].
  cbn [map mergeObject forallb List.filter fst snd]. rewrite IH.
  destruct (Hplain x) as [-> | ->]; cbn [andb].
  - destruct (forallb _ props); [|reflexivity].
    rewrite orb_true_r, andb_true_r. destruct (negb (String.eqb k "__proto__")); reflexivity.
  - destruct (forallb _ props); reflexivity.
Qed.

Lemma record_plain (valueType : Schema) (props : list (string * Value)) :
  plain valueType ->
  z_record valueType (VObject props)
  = if forallb (fun kv => match valueType kv.2 with Valid _ => true | _ => false end) props
    then Valid (VObject (List.filter (fun kv => notProto kv) props))
    else Invalid.
Proof.
  intros Hplain. unfold z_record. rewrite (record_pairs _ _ Hplain).
  destruct (forallb _ props); reflexivity.
Qed.

Lemma forallb_filter {A} (p q : A -> bool) (l : list A) :
  forallb p l = true -> forallb p (List.filter q l) = true.
Proof.
  induction l as [|x l IH]; [reflexivity|]. cbn [forallb List.filter].
  intros H. apply andb_true_iff in H as [Hx Hl].
  destruct (q x); cbn [forallb]; [rewrite Hx|]; auto.
Qed.

Lemma filter_filter {A} (q : A -> bool) (l : list A) :
  List.filter q (List.filter q l) = List.filter q l.
Proof.
  induction l as [|x l IH]; [reflexivity|]. cbn [List.filter].
  destruct (q x) eqn:Hx; cbn [List.filter]; [rewrite Hx, IH|]; auto.
Qed.

(** A record of plain values that was accepted is accepted again, as it
    is. *)
Lemma record_again (valueType : Schema) (v out : Value) :
  plain valueType ->
  z_record valueType v = Valid out -> z_record valueType out = Valid out.
Proof.
  intros Hplain. destruct v as [| | | | | |props]; try discriminate.
  rewrite (record_plain _ _ Hplain).
  destruct (forallb _ props) eqn:Hall; [|discriminate]. intros [= <-].
  rewrite (record_plain _ _ Hplain), (forallb_filter _ _ _ Hall), filter_filter.
  reflexivity.
Qed.

Lemma record_output (valueType : Schema) (v out : Value) :
  plain valueType ->
  z_record valueType v = Valid out -> exists props, out = VObject props.
Proof.
  intros Hplain. destruct v as [| | | | | |props]; try discriminate.
  rewrite (record_plain _ _ Hplain). destruct (forallb _ props); [|discriminate].
  intros [= <-]. eauto.
Qed.

Lemma record_no_escape (valueType : Schema) (v : Value) (e : Thrown) :
  plain valueType -> z_record valueType v <> Escaped e.
Proof.
  intros Hplain. destruct v as [| | | | | |props]; try discriminate.
  rewrite (record_plain _ _ Hplain). destruct (forallb _ props); discriminate.
Qed.

(** The value of a property, [undefined] when the object has none. *)
Local Abbreviation prop k props :=
  (match lookup_prop k%string props with Some x => x | None => VUndefined end).

Lemma run_internal (props : list (string * Value)) :
  run InternalNavBarLinkItemSchema (VObject props)
  = match mergeObject
            [ ("label", z_optional z_string (prop "label" props), has_key "label" props);
              ("translations",
               z_default (z_record z_string) (VObject []) (prop "translations" props),
               has_key "translations" props);
              ("slug", z_string (prop "slug" props), has_key "slug" props);
              ("attrs", NavBarLinkItemHTMLAttributesSchema (prop "attrs" props),
               has_key "attrs" props) ] with
    | MValid out => Valid (VObject out)
    | MInvalid => Invalid
    | MEscaped e => Escaped e
    end.
Proof. reflexivity. Qed.

Lemma run_link (props : list (string * Value)) :
  run NavBarLinkItemSchema (VObject props)
  = match mergeObject
            [ ("label", z_string (prop "label" props), has_key "label" props);
              ("translations",
               z_default (z_record z_string) (VObject []) (prop "translations" props),
               has_key "translations" props);
              ("link", z_string (prop "link" props), has_key "link" props);
              ("attrs", NavBarLinkItemHTMLAttributesSchema (prop "attrs" props),
               has_key "attrs" props) ] with
    | MValid out =>
        match extraKeys NavBarLinkItemSchema props with
        | [] => Valid (VObject out)
        | _ :: _ => Invalid
        end
    | MInvalid => Invalid
    | MEscaped e => Escaped e
    end.
Proof. reflexivity. Qed.

Lemma string_field (x v : Value) :
  z_string x = Valid v -> exists s, x = VString s /\ v = VString s.
Proof. destruct x; try discriminate. intros [= <-]. eauto. Qed.

Lemma label_field (x v : Value) :
  z_optional z_string x = Valid v ->
  v = x /\ (x = VUndefined \/ exists s, x = VString s).
Proof. destruct x; try discriminate; intros [= <-]; eauto. Qed.

Lemma translations_field (x v : Value) :
  z_default (z_record z_string) (VObject []) x = Valid v ->
  (exists t, v = VObject t) /\ z_record z_string v = Valid v.
Proof.
  intros H.
  assert (Hrecord : exists y, z_record z_string y = Valid v)
    by (destruct x; eexists; exact H).
  destruct Hrecord as [y Hy]. split.
  - exact (record_output _ _ _ plain_string Hy).
  - exact (record_again _ _ _ plain_string Hy).
Qed.

Lemma attrs_field (x v : Value) :
  NavBarLinkItemHTMLAttributesSchema x = Valid v ->
  (exists a, v = VObject a) /\ linkHTMLAttributesSchema v = Valid v.
Proof.
  intros H.
  assert (Hrecord : exists y, linkHTMLAttributesSchema y = Valid v)
    by (destruct x; eexists; exact H).
  destruct Hrecord as [y Hy]. split.
  - exact (record_output _ _ _ plain_primitive Hy).
  - exact (record_again _ _ _ plain_primitive Hy).
Qed.

Lemma translations_no_escape (x : Value) (e : Thrown) :
  z_default (z_record z_string) (VObject []) x <> Escaped e.
Proof. destruct x; apply (record_no_escape _ _ _ plain_string). Qed.

Lemma attrs_no_escape (x : Value) (e : Thrown) :
  NavBarLinkItemHTMLAttributesSchema x <> Escaped e.
Proof. destruct x; apply (record_no_escape _ _ _ plain_primitive). Qed.

Lemma string_no_escape (x : Value) (e : Thrown) : z_string x <> Escaped e.
Proof. destruct x; discriminate. Qed.

Lemma label_no_escape (x : Value) (e : Thrown) : z_optional z_string x <> Escaped e.
Proof. destruct x; discriminate. Qed.

(** The outcomes of the two object schemas, by the outcomes of the
    fields. *)
Lemma internal_outcome (props : list (string * Value)) :
  let label := prop "label" props in
  (exists t s a,
      run InternalNavBarLinkItemSchema (VObject props)
      = Valid (VObject
                 ((if negb (is_undefined label) || has_key "label" props
                   then [("label", label)] else [])
                  ++ [("translations", VObject t); ("slug", VString s);
                      ("attrs", VObject a)]))
      /\ (label = VUndefined \/ exists l, label = VString l)
      /\ prop "slug" props = VString s
      /\ z_record z_string (VObject t) = Valid (VObject t)
      /\ linkHTMLAttributesSchema (VObject a) = Valid (VObject a))
  \/ run InternalNavBarLinkItemSchema (VObject props) = Invalid.
Proof.
  intros label. rewrite run_internal. fold label.
  destruct (z_optional z_string label) as [vl| |e] eqn:Hl;
    [| | exfalso; exact (label_no_escape _ _ Hl)];
  (destruct (z_default (z_record z_string) (VObject []) (prop "translations" props))
     as [vt| |e] eqn:Ht; [| | exfalso; exact (translations_no_escape _ _ Ht)]);
  (destruct (z_string (prop "slug" props)) as [vs| |e] eqn:Hs;
     [| | exfalso; exact (string_no_escape _ _ Hs)]);
  (destruct (NavBarLinkItemHTMLAttributesSchema (prop "attrs" props)) as [va| |e] eqn:Ha;
     [| | exfalso; exact (attrs_no_escape _ _ Ha)]);
  cbn [mergeObject]; try (right; repeat match goal with
                                 | |- context [if ?c then _ else _] => destruct c
                                 end; reflexivity).
  left.
  apply label_field in Hl as [-> Hlabel].
  apply translations_field in Ht as [[t ->] Ht].
  apply string_field in Hs as (sl & Hslug & ->).
  apply attrs_field in Ha as [[a ->] Ha].
  exists t, sl, a. cbn [is_undefined negb orb andb String.eqb Ascii.eqb Bool.eqb].
  split; [|auto].
  destruct (negb (is_undefined label) || has_key "label" props); reflexivity.
Qed.

Lemma link_outcome (props : list (string * Value)) :
  (exists l t k a,
      run NavBarLinkItemSchema (VObject props)
      = Valid (VObject [("label", VString l); ("translations", VObject t);
                        ("link", VString k); ("attrs", VObject a)])
      /\ extraKeys NavBarLinkItemSchema props = []
      /\ z_record z_string (VObject t) = Valid (VObject t)
      /\ linkHTMLAttributesSchema (VObject a) = Valid (VObject a))
  \/ run NavBarLinkItemSchema (VObject props) = Invalid.
Proof.
  rewrite run_link.
  destruct (z_string (prop "label" props)) as [vl| |e] eqn:Hl;
    [| | exfalso; exact (string_no_escape _ _ Hl)];
  (destruct (z_default (z_record z_string) (VObject []) (prop "translations" props))
     as [vt| |e] eqn:Ht; [| | exfalso; exact (translations_no_escape _ _ Ht)]);
  (destruct (z_string (prop "link" props)) as [vk| |e] eqn:Hk;
     [| | exfalso; exact (string_no_escape _ _ Hk)]);
  (destruct (NavBarLinkItemHTMLAttributesSchema (prop "attrs" props)) as [va| |e] eqn:Ha;
     [| | exfalso; exact (attrs_no_escape _ _ Ha)]);
  cbn [mergeObject]; try (right; repeat match goal with
                                 | |- context [if ?c then _ else _] => destruct c
                                 end; reflexivity).
  apply string_field in Hl as (l & _ & ->).
  apply translations_field in Ht as [[t ->] Ht].
  apply string_field in Hk as (k & _ & ->).
  apply attrs_field in Ha as [[a ->] Ha].
  cbn [is_undefined negb orb andb String.eqb Ascii.eqb Bool.eqb].
  destruct (extraKeys NavBarLinkItemSchema props) eqn:Hextra; [|right; reflexivity].
  left. exists l, t, k, a. auto.
Qed.

Lemma run_non_object (o : ObjectSchema) (v : Value) :
  (forall props, v <> VObject props) -> run o v = Invalid.
Proof. destruct v; try reflexivity. intros H. now destruct (H props). Qed.

Import NavBarNormal.

Lemma item_outcome (v : Value) :
  (exists out, NavBarItemSchema v = Valid out /\ Normalised out)
  \/ NavBarItemSchema v = Invalid.
Proof.
  destruct v as [| | | |s| |props]; try (right; reflexivity).
  - left. eexists. split; [reflexivity|].
    apply (InternalLink [] s [] []); auto.
  - unfold NavBarItemSchema. cbn [z_union].
    destruct (link_outcome props) as [(l & t & k & a & -> & _ & Ht & Ha) | ->].
    { left. eexists. split; [reflexivity|]. now constructor. }
    destruct (internal_outcome props) as [(t & s & a & -> & Hlabel & _ & Ht & Ha) | ->].
    { left. eexists. split; [reflexivity|]. constructor; [|exact Ht|exact Ha].
      destruct Hlabel as [-> | [l ->]].
      - cbn [is_undefined negb orb]. destruct (has_key "label" props); auto.
      - cbn [is_undefined negb orb]. eauto. }
    right. reflexivity.
Qed.

Lemma normalised_accepted (out : Value) :
  Normalised out -> NavBarItemSchema out = Valid out.
Proof.
  intros [l k t a Ht Ha | label s t a Hlabel Ht Ha]; unfold NavBarItemSchema; cbn [z_union].
  - rewrite run_link.
    cbn [lookup_prop String.eqb Ascii.eqb Bool.eqb z_string z_default].
    unfold NavBarLinkItemHTMLAttributesSchema at 1. cbn [z_default].
    rewrite Ht, Ha. reflexivity.
  - destruct Hlabel as [-> | [-> | [l ->]]]; cbn [app].
    + rewrite run_link.
      cbn [lookup_prop String.eqb Ascii.eqb Bool.eqb z_string z_default].
      unfold NavBarLinkItemHTMLAttributesSchema at 1. cbn [z_default].
      rewrite Ht, Ha. cbn [mergeObject].
      rewrite run_internal.
      cbn [lookup_prop String.eqb Ascii.eqb Bool.eqb z_string z_default z_optional].
      unfold NavBarLinkItemHTMLAttributesSchema at 1. cbn [z_default].
      rewrite Ht, Ha. reflexivity.
    + rewrite run_link.
      cbn [lookup_prop String.eqb Ascii.eqb Bool.eqb z_string z_default].
      unfold NavBarLinkItemHTMLAttributesSchema at 1. cbn [z_default].
      rewrite Ht, Ha. cbn [mergeObject].
      rewrite run_internal.
      cbn [lookup_prop String.eqb Ascii.eqb Bool.eqb z_string z_default z_optional].
      unfold NavBarLinkItemHTMLAttributesSchema at 1. cbn [z_default].
      rewrite Ht, Ha. reflexivity.
    + rewrite run_link.
      cbn [lookup_prop String.eqb Ascii.eqb Bool.eqb z_string z_default].
      unfold NavBarLinkItemHTMLAttributesSchema at 1. cbn [z_default].
      rewrite Ht, Ha. cbn [mergeObject].
      rewrite run_internal.
      cbn [lookup_prop String.eqb Ascii.eqb Bool.eqb z_string z_default z_optional].
      unfold NavBarLinkItemHTMLAttributesSchema at 1. cbn [z_default].
      rewrite Ht, Ha. reflexivity.
Qed.

(** X14: validating a navigation item never throws, and an accepted
    item is returned in one of two shapes: an external link with a label, a
    link, translations and attributes, or an internal link with a slug,
    translations, attributes and at most a label, never a link. *)
Theorem accepted_items_are_normalised (v : Value) :
  (forall e : Thrown, NavBarItemSchema v <> Escaped e)
  /\ (forall out : Value, NavBarItemSchema v = Valid out -> Normalised out).
Proof.
  destruct (item_outcome v) as [(out & Hout & Hnormal) | Hinvalid].
  - rewrite Hout. split; [discriminate|]. intros out' [= <-]. exact Hnormal.
  - rewrite Hinvalid. split; discriminate.
Qed.

(** X15: validation is idempotent: an item that validation
    returned is accepted again and returned unchanged. *)
Theorem validating_an_accepted_item_changes_nothing (v out : Value) :
  NavBarItemSchema v = Valid out -> NavBarItemSchema out = Valid out.
Proof.
  intros Hv. destruct (item_outcome v) as [(out' & Hout & Hnormal) | Hinvalid].
  - rewrite Hout in Hv. injection Hv as <-. now apply normalised_accepted.
  - rewrite Hinvalid in Hv. discriminate.
Qed.

Lemma validating_an_accepted_item_changes_nothing_witness :
  NavBarItemSchema
    (VObject [("slug", VString "guides/intro"); ("label", VString "Intro");
              ("link", VString "/dropped"); ("attrs", VObject [("target", VString "_blank")])])
  = Valid (VObject [("label", VString "Intro"); ("translations", VObject []);
                    ("slug", VString "guides/intro");
                    ("attrs", VObject [("target", VString "_blank")])])
  /\ NavBarItemSchema
       (VObject [("label", VString "Intro"); ("translations", VObject []);
                 ("slug", VString "guides/intro");
                 ("attrs", VObject [("target", VString "_blank")])])
     = Valid (VObject [("label", VString "Intro"); ("translations", VObject []);
                       ("slug", VString "guides/intro");
                       ("attrs", VObject [("target", VString "_blank")])]).
Proof.
  assert (H : NavBarItemSchema
    (VObject [("slug", VString "guides/intro"); ("label", VString "Intro");
              ("link", VString "/dropped"); ("attrs", VObject [("target", VString "_blank")])])
  = Valid (VObject [("label", VString "Intro"); ("translations", VObject []);
                    ("slug", VString "guides/intro");
                    ("attrs", VObject [("target", VString "_blank")])])) by reflexivity.
  split; [exact H|].
  exact (validating_an_accepted_item_changes_nothing _ _ H).
Defined.

(** X16: an object that is accepted as an external link item has no
    property besides [label], [translations], [link] and [attrs]. *)
Theorem external_link_items_have_no_other_key
    (props : list (string * Value)) (out : Value) (k : string) (x : Value) :
  run NavBarLinkItemSchema (VObject props) = Valid out ->
  (k, x) ∈ props ->
  k ∈ ["label"; "translations"; "link"; "attrs"].
Proof.
  intros Hvalid Hin.
  destruct (link_outcome props) as [(l & t & k' & a & _ & Hextra & _) | Hinvalid];
    [|rewrite Hinvalid in Hvalid; discriminate].
  destruct (has_key k (shape NavBarLinkItemSchema)) eqn:Hkey.
  - cbn in Hkey.
    repeat (apply orb_true_iff in Hkey as [Hkey | Hkey];
            [apply String.eqb_eq in Hkey as ->; repeat constructor|]).
    discriminate.
  - assert (Hfiltered : (k, x) ∈ extraKeys NavBarLinkItemSchema props)
      by (apply list_elem_of_filter; split; [exact Hkey | exact Hin]).
    rewrite Hextra in Hfiltered. inversion Hfiltered.
Qed.

Lemma external_link_items_have_no_other_key_witness :
  run NavBarLinkItemSchema (VObject [("link", VString "https://x.dev"); ("label", VString "Docs")])
  = Valid (VObject [("label", VString "Docs"); ("translations", VObject []);
                    ("link", VString "https://x.dev"); ("attrs", VObject [])])
  /\ ("link", VString "https://x.dev")
     ∈ [("link", VString "https://x.dev"); ("label", VString "Docs")]
  /\ "link" ∈ ["label"; "translations"; "link"; "attrs"].
Proof.
  assert (H : run NavBarLinkItemSchema
                (VObject [("link", VString "https://x.dev"); ("label", VString "Docs")])
              = Valid (VObject [("label", VString "Docs"); ("translations", VObject []);
                                ("link", VString "https://x.dev"); ("attrs", VObject [])]))
    by reflexivity.
  assert (Hin : ("link", VString "https://x.dev")
                ∈ [("link", VString "https://x.dev"); ("label", VString "Docs")]) by left.
  split; [exact H|]. split; [exact Hin|].
  exact (external_link_items_have_no_other_key _ _ _ _ H Hin).
Defined.

(** X17: an attribute bag is accepted exactly when each of its values is a
    string, a number other than [NaN], a boolean or [undefined]; it is
    returned as it is, without a property [__proto__], and an absent bag
    becomes the empty one. *)
Theorem attribute_bags_hold_primitive_values (props : list (string * Value)) :
  NavBarLinkItemHTMLAttributesSchema (VObject props)
  = (if forallb (fun kv : string * Value =>
                   match kv.2 with
                   | VUndefined | VBool _ | VString _ => true
                   | VNumber n => negb (isNaN n)
                   | _ => false
                   end) props
     then Valid (VObject (List.filter (fun kv => negb (String.eqb kv.1 "__proto__")) props))
     else Invalid)
  /\ NavBarLinkItemHTMLAttributesSchema VUndefined = Valid (VObject []).
Proof.
  split; [|reflexivity].
  change (NavBarLinkItemHTMLAttributesSchema (VObject props))
    with (z_record (z_union [z_string; z_number; z_boolean; z_undefined]) (VObject props)).
  rewrite (record_plain _ _ plain_primitive).
  assert (Hsame : forallb (fun kv : string * Value =>
                             match z_union [z_string; z_number; z_boolean; z_undefined] kv.2 with
                             | Valid _ => true
                             | _ => false
                             end) props
                  = forallb (fun kv : string * Value =>
                               match kv.2 with
                               | VUndefined | VBool _ | VString _ => true
                               | VNumber n => negb (isNaN n)
                               | _ => false
                               end) props).
  { induction props as [|[k x] props IH]; [reflexivity|].
    cbn [forallb snd]. rewrite IH. destruct x as [| |b|n|s|items|props']; try reflexivity.
    cbn. destruct (isNaN n); reflexivity. }
  rewrite Hsame. reflexivity.
Qed.

(** A bag with a fractional number and an infinity is accepted; one with
    [NaN] is not. *)
Example nan_attribute_is_rejected :
  NavBarLinkItemHTMLAttributesSchema
    (VObject [("opacity", VNumber (S754_finite false 1 (-1))); ("max", VNumber (S754_infinity false))])
  = Valid (VObject [("opacity", VNumber (S754_finite false 1 (-1)));
                    ("max", VNumber (S754_infinity false))])
  /\ NavBarLinkItemHTMLAttributesSchema (VObject [("tabindex", VNumber S754_nan)]) = Invalid.
Proof. split; reflexivity. Qed.

End NavBarShape.

(** ** The declared translation keys *)

Module PluginTypesFacts.
Import PluginTypes LiteralFacts StringFacts.

Lemma add_elem (keys : list string) (key k : string) :
  k ∈ add keys key <-> k ∈ keys \/ k = key.
Proof.
  unfold add. case_bool_decide as Hin.
  - split; [auto|]. intros [H | ->]; assumption.
  - rewrite elem_of_app, list_elem_of_singleton. reflexivity.
Qed.

Lemma add_NoDup (keys : list string) (key : string) : NoDup keys -> NoDup (add keys key).
Proof.
  intros Hkeys. unfold add. case_bool_decide as Hin; [exact Hkeys|].
  apply NoDup_app. split; [exact Hkeys|]. split.
  - intros k Hk Hk'. apply list_elem_of_singleton in Hk' as ->. contradiction.
  - apply NoDup_singleton.
Qed.

Lemma foldl_add (l keys : list string) :
  (NoDup keys -> NoDup (foldl add keys l))
  /\ (forall k, k ∈ foldl add keys l <-> k ∈ keys \/ k ∈ l).
Proof.
  revert keys. induction l as [|key l IH]; intros keys; cbn [foldl].
  - split; [trivial|]. intros k. split; [auto|]. intros [H|H]; [exact H | inversion H].
  - destruct (IH (add keys key)) as [IHn IHe]. split.
    + intros Hkeys. apply IHn, add_NoDup, Hkeys.
    + intros k. rewrite IHe, add_elem, elem_of_cons. tauto.
Qed.

Lemma foldl_foldl_add (translations : list (list string)) (keys : list string) :
  (NoDup keys ->
   NoDup (foldl (fun keys localeTranslations => foldl add keys localeTranslations)
            keys translations))
  /\ (forall k,
        k ∈ foldl (fun keys localeTranslations => foldl add keys localeTranslations)
              keys translations
        <-> k ∈ keys \/ exists localeTranslations,
                          localeTranslations ∈ translations /\ k ∈ localeTranslations).
Proof.
  revert keys. induction translations as [|l translations IH]; intros keys; cbn [foldl].
  - split; [trivial|]. intros k. split; [auto|].
    intros [H | (l & Hl & _)]; [exact H | inversion Hl].
  - destruct (IH (foldl add keys l)) as [IHn IHe].
    destruct (foldl_add l keys) as [Hn He]. split.
    + intros Hkeys. apply IHn, Hn, Hkeys.
    + intros k. rewrite IHe, He. split.
      * intros [[H | H] | (l' & Hl' & Hk)]; [auto | right; exists l; split; [left|exact H] |].
        right. exists l'. split; [now right | exact Hk].
      * intros [H | (l' & Hl' & Hk)]; [auto|].
        apply elem_of_cons in Hl' as [-> | Hl']; [auto|]. right. eauto.
Qed.

(** X12: the keys that are declared are the keys that occur in the table
    of some locale, each of them once. *)
Theorem declared_keys_are_the_distinct_keys (translations : list (list string)) :
  NoDup (allKeys translations)
  /\ forall k : string,
       k ∈ allKeys translations
       <-> exists localeTranslations,
             localeTranslations ∈ translations /\ k ∈ localeTranslations.
Proof.
  unfold allKeys. destruct (foldl_foldl_add translations []) as [Hn He]. split.
  - apply Hn, NoDup_nil_2.
  - intros k. rewrite He. split; [|auto]. intros [H | H]; [inversion H | exact H].
Qed.

Lemma injectPluginTranslationsTypes_cases (translations : list (list string)) :
  injectPluginTranslationsTypes translations
  = match allKeys translations with
    | [] => None
    | keys =>
        Some (mkInjectedType "i18n-plugins.d.ts"
                (header +:+ String.concat separator (map keyDeclaration keys) +:+ footer))
    end.
Proof.
  unfold injectPluginTranslationsTypes. cbv zeta.
  destruct (allKeys translations); reflexivity.
Qed.

(** X11: [injectTypes] is called exactly when the table of some locale
    has a key, and then once, for the file [i18n-plugins.d.ts]. *)
Theorem types_are_injected_when_a_key_exists (translations : list (list string)) :
  (injectPluginTranslationsTypes translations = None
   <-> forall localeTranslations,
         localeTranslations ∈ translations -> localeTranslations = [])
  /\ (forall call, injectPluginTranslationsTypes translations = Some call ->
                   filename call = "i18n-plugins.d.ts").
Proof.
  rewrite injectPluginTranslationsTypes_cases.
  assert (He : forall k, k ∈ allKeys translations
                         <-> exists l, l ∈ translations /\ k ∈ l).
  { intros k. unfold allKeys. rewrite (proj2 (foldl_foldl_add translations [])).
    split; [|auto]. intros [H | H]; [inversion H | exact H]. }
  destruct (allKeys translations) as [|k keys].
  - split; [|discriminate]. split; [|reflexivity].
    intros _ l Hl. destruct l as [|k l]; [reflexivity|].
    assert (Hk : k ∈ ([] : list string)).
    { apply He. exists (k :: l). split; [exact Hl | left]. }
    inversion Hk.
  - split.
    + split; [discriminate|]. intros Hall.
      assert (Hk : k ∈ k :: keys) by left.
      apply He in Hk as (l & Hl & Hk).
      rewrite (Hall l Hl) in Hk. inversion Hk.
    + intros call [= <-]. reflexivity.
Qed.

Lemma strip_append (p s : string) : ModuleText.strip p (p +:+ s) = Some s.
Proof.
  induction p as [|c p IH]; [reflexivity|].
  rewrite append_cons. cbn [ModuleText.strip]. rewrite Ascii.eqb_refl. exact IH.
Qed.

(** No line terminator starts where a plain key is followed by the closing
    apostrophe. *)
Lemma lineTerminatorAt_closed (c : ascii) (key rest : string) :
  lineTerminatorAt (String c key) = false ->
  lineTerminatorAt (String c (key +:+ String "'" rest)) = false.
Proof.
  unfold lineTerminatorAt.
  destruct (Ascii.eqb c "010"), (Ascii.eqb c "013"), (Ascii.eqb c "226");
    cbn [orb andb]; try discriminate; try reflexivity.
  destruct key as [|c2 [|c3 key]].
  - intros _. change ("" +:+ String "'" rest) with (String "'" rest).
    destruct rest; reflexivity.
  - intros _. change (String c2 "" +:+ String "'" rest) with (String c2 (String "'" rest)).
    change (Ascii.eqb "'" "168") with false. change (Ascii.eqb "'" "169") with false.
    apply andb_false_r.
  - rewrite !append_cons. intros H. exact H.
Qed.

Lemma readQuoted_key (key rest : string) :
  plainKey key = true ->
  readQuoted (key +:+ String "'" rest) = Some (key, rest).
Proof.
  induction key as [|c key IH]; intros Hplain.
  - reflexivity.
  - cbn [plainKey] in Hplain.
    apply andb_true_iff in Hplain as [Hplain Hkey].
    apply andb_true_iff in Hplain as [Hplain Hline].
    apply andb_true_iff in Hplain as [Hquote Hslash].
    apply negb_true_iff in Hquote, Hslash, Hline.
    rewrite append_cons. cbn [readQuoted].
    rewrite Hquote, (lineTerminatorAt_closed _ _ _ Hline), Hslash, (IH Hkey). reflexivity.
Qed.

Lemma readDeclaration_key (key rest : string) :
  plainKey key = true ->
  readDeclaration (keyDeclaration key +:+ rest) = Some (key, rest).
Proof.
  intros Hfree. unfold readDeclaration, keyDeclaration.
  rewrite !append_assoc, strip_append. cbn [mbind option_bind].
  change ("': string;" +:+ rest) with (String "'" (": string;" +:+ rest)).
  rewrite (readQuoted_key _ _ Hfree). cbn [mbind option_bind].
  rewrite strip_append. reflexivity.
Qed.

Lemma readDeclarations_keys (keys : list string) (fuel : nat) :
  keys <> [] ->
  length keys <= fuel ->
  Forall (fun key => plainKey key = true) keys ->
  readDeclarations fuel (String.concat separator (map keyDeclaration keys) +:+ footer)
  = Some (keys, footer).
Proof.
  revert fuel. induction keys as [|key keys IH]; intros fuel Hne Hfuel Hfree; [contradiction|].
  apply Forall_cons in Hfree as [Hkey Hfree].
  destruct fuel as [|fuel]; [cbn in Hfuel; lia|].
  cbn [readDeclarations map].
  destruct keys as [|key' keys].
  - cbn [map String.concat]. rewrite (readDeclaration_key _ _ Hkey).
    reflexivity.
  - rewrite concat_cons by discriminate.
    rewrite !append_assoc, (readDeclaration_key _ _ Hkey). cbn [mbind option_bind].
    rewrite strip_append.
    rewrite (IH fuel) by (try discriminate; try assumption; cbn [length] in *; lia).
    reflexivity.
Qed.

Lemma keyDeclaration_length (key : string) : 1 <= String.length (keyDeclaration key).
Proof.
  unfold keyDeclaration. rewrite length_append.
  change (String.length "'") with 1. lia.
Qed.

Lemma declarations_length (keys : list string) (rest : string) :
  length keys
  <= String.length (String.concat separator (map keyDeclaration keys) +:+ rest).
Proof.
  rewrite length_append.
  assert (H : length keys <= String.length (String.concat separator (map keyDeclaration keys)));
    [|lia].
  induction keys as [|key keys IH]; [cbn [length]; lia|].
  cbn [map]. pose proof (keyDeclaration_length key) as Hkey.
  destruct keys as [|key' keys].
  - cbn [map String.concat length]. lia.
  - rewrite concat_cons by discriminate. rewrite !length_append.
    cbn [length map] in *. lia.
Qed.

(** X13: when at least one key exists and no key contains an apostrophe,
    a backslash or a line terminator, the declaration that is injected
    reads back, its property names taken as the string literals they are,
    as the collected keys in the order of the collection. *)
Theorem injected_declaration_lists_the_keys (translations : list (list string)) :
  allKeys translations <> [] ->
  Forall (fun key => plainKey key = true) (allKeys translations) ->
  exists call,
    injectPluginTranslationsTypes translations = Some call
    /\ readContent (content call) = Some (allKeys translations).
Proof.
  intros Hne Hfree. rewrite injectPluginTranslationsTypes_cases.
  destruct (allKeys translations) as [|k keys] eqn:Hkeys; [contradiction|].
  eexists. split; [reflexivity|].
  cbn [content]. unfold readContent. rewrite strip_append. cbn [mbind option_bind].
  rewrite (readDeclarations_keys (k :: keys)); [| discriminate | apply declarations_length | exact Hfree].
  cbn [mbind option_bind]. rewrite String.eqb_refl. reflexivity.
Qed.

Lemma injected_declaration_lists_the_keys_witness :
  allKeys [["myPlugin.doThing"; "sitemap.title"]; ["sitemap.title"; "myPlugin.undo"]]
  = ["myPlugin.doThing"; "sitemap.title"; "myPlugin.undo"]
  /\ exists call,
       injectPluginTranslationsTypes
         [["myPlugin.doThing"; "sitemap.title"]; ["sitemap.title"; "myPlugin.undo"]]
       = Some call
       /\ readContent (content call)
          = Some ["myPlugin.doThing"; "sitemap.title"; "myPlugin.undo"].
Proof.
  assert (Hkeys : allKeys [["myPlugin.doThing"; "sitemap.title"];
                           ["sitemap.title"; "myPlugin.undo"]]
                  = ["myPlugin.doThing"; "sitemap.title"; "myPlugin.undo"])
    by (vm_compute; reflexivity).
  split; [exact Hkeys|].
  destruct (injected_declaration_lists_the_keys
              [["myPlugin.doThing"; "sitemap.title"]; ["sitemap.title"; "myPlugin.undo"]])
    as (call & Hcall & Hread).
  - rewrite Hkeys. discriminate.
  - rewrite Hkeys. repeat constructor.
  - exists call. split; [exact Hcall|]. rewrite Hread. exact (f_equal Some Hkeys).
Defined.

(** A key with an apostrophe is written as it is, and the declaration then
    names another property. *)
Example apostrophe_is_not_escaped :
  option_map content (injectPluginTranslationsTypes [["it's"]])
  = Some (header +:+ "'it's': string;" +:+ footer)
  /\ (content <$> injectPluginTranslationsTypes [["it's"]]) ≫= readContent = None.
Proof. vm_compute. split; reflexivity. Qed.

(** Nor is a backslash: the key [a\nb], of four characters, is declared as
    the property whose name is [a], a line feed and [b]; and a key with a
    line feed breaks the declaration. *)
Example backslash_is_not_escaped :
  (content <$> injectPluginTranslationsTypes [["a\nb"]]) ≫= readContent
  = Some [String "a" (String "010" "b")]
  /\ (content <$> injectPluginTranslationsTypes [[String "a" (String "010" "b")]])
     ≫= readContent
     = None.
Proof. vm_compute. split; reflexivity. Qed.

End PluginTypesFacts.
